(** * SearchInVideos: the video-to-audio transcoding pipeline

    A shallow embedding of [src/video_processing.py]:
    [ensure_directories], [video_to_audio] and
    [process_videos_in_directory], together with the parts of Python's
    [str] and [os.path] (POSIX flavour) that these functions call.

    Conventions of the model.
    - Paths and file names are [string]s of 8-bit characters; [str.lower]
      is the ASCII one.
    - The filesystem is a set of regular files and a set of directories.
    - moviepy and pydub are external: what they do for a given video is
      read from a [clip] record (does the container open, is there an
      audio track, how does writing the WAV end, ...).
    - Python floats are IEEE 754 doubles, kept as the rationals they
      denote: a division gives the double nearest to the exact quotient,
      ties to even.  The exponent range is not modelled (no overflow, no
      underflow); no file size or duration of a real file gets there.
    - Everything printed and every codec call is appended to a trace. *)

From Stdlib Require Import ZArith QArith Qround Qpower Lqa.
From Stdlib Require Import String Ascii List Bool Lia.
From stdpp Require Import base decidable option list gmap strings.

Local Open Scope Z_scope.
Local Open Scope string_scope.

(** ** Python strings *)

Module PyStr.

(** [c.lower()] on one ASCII character. *)
Definition lower_char (c : ascii) : ascii :=
  let n := N_of_ascii c in
  if ((65 <=? n) && (n <=? 90))%N then ascii_of_N (n + 32) else c.

(** [s.lower()]. *)
Fixpoint lower (s : string) : string :=
  match s with
  | EmptyString => EmptyString
  | String c r => String (lower_char c) (lower r)
  end.

(** [s.endswith(suffix)]: some tail of [s] is [suffix]. *)
Fixpoint endswith (s suffix : string) : bool :=
  String.eqb s suffix ||
  match s with
  | EmptyString => false
  | String _ r => endswith r suffix
  end.

(** [s.endswith(tuple)]: true as soon as one of the suffixes matches. *)
Definition endswith_any (s : string) (suffixes : list string) : bool :=
  existsb (endswith s) suffixes.


(** The scan behind [s.rfind(c)]: [i] is the index of the head of [s],
      [last] the index of the last occurrence seen so far. *)
Fixpoint rfind_from (c : ascii) (s : string) (i last : Z) : Z :=
  match s with
  | EmptyString => last
  | String x r => rfind_from c r (i + 1) (if Ascii.eqb x c then i else last)
  end.

(** [s.rfind(c)]: index of the last [c] in [s], or [-1]. *)
Definition rfind (c : ascii) (s : string) : Z := rfind_from c s 0 (-1).

(** [s[n:]] for a natural [n]. *)
Fixpoint drop (n : nat) (s : string) : string :=
  match n, s with
  | O, _ => s
  | S n', String _ r => drop n' r
  | S _, EmptyString => EmptyString
  end.

(** [s[:n]] for a natural [n]. *)
Fixpoint take (n : nat) (s : string) : string :=
  match n, s with
  | S n', String c r => String c (take n' r)
  | _, _ => EmptyString
  end.

(** [s.startswith(pre)]: the first [len(pre)] characters of [s] are
    [pre]. *)
Definition startswith (s pre : string) : bool :=
  String.eqb (take (String.length pre) s) pre.

(** [s[i:]] and [s[:j]] for indices that are not negative. *)
Definition slice_from (i : Z) (s : string) : string := drop (Z.to_nat i) s.
Definition slice_to (j : Z) (s : string) : string := take (Z.to_nat j) s.
Definition slice (i j : Z) (s : string) : string :=
  slice_to (j - i) (slice_from i s).

(** Does [c] occur in [s]? *)
Fixpoint contains (c : ascii) (s : string) : bool :=
  match s with
  | EmptyString => false
  | String x r => Ascii.eqb x c || contains c r
  end.

(** Is every character of [s] equal to [c]? *)
Fixpoint all_eq (c : ascii) (s : string) : bool :=
  match s with
  | EmptyString => true
  | String x r => Ascii.eqb x c && all_eq c r
  end.

(** Truth value of a string: only the empty string is falsy. *)
Definition truthy (s : string) : bool := negb (String.eqb s "").

End PyStr.

(** ** [os.path] on POSIX *)

Module OsPath.
Import PyStr.

Definition sep : ascii := "/"%char.
Definition extsep : ascii := "."%char.

(** [os.path.basename(p)]: [i = p.rfind('/') + 1; return p[i:]]. *)
Definition basename (p : string) : string :=
  slice_from (rfind sep p + 1) p.

(** First component of [os.path.splitext(p)].  The extension starts at
      the last dot, provided that dot comes after the last separator and
      is not one of the leading dots of the file name. *)
Definition splitext_root (p : string) : string :=
  let sepIndex := rfind sep p in
  let dotIndex := rfind extsep p in
  if (sepIndex <? dotIndex)%Z
       && negb (all_eq extsep (slice (sepIndex + 1) dotIndex p))
  then slice_to dotIndex p
  else p.

(** [os.path.join(a, b)]. *)
Definition join (a b : string) : string :=
  if startswith b "/" then b
  else if String.eqb a "" || endswith a "/" then a ++ b
  else a ++ "/" ++ b.

End OsPath.

(** ** Python floats *)

Module PyFloat.

(** Round a rational to the nearest integer, ties to the even one. *)
Definition round_half_even (q : Q) : Z :=
  let f := Qfloor q in
  match Qcompare (q - inject_Z f) (1 # 2) with
  | Lt => f
  | Gt => f + 1
  | Eq => if Z.even f then f else f + 1
  end.

(** The exponent [e] of the last place of a positive rational [x] in
    a 53-bit significand: [2^52 <= x / 2^e < 2^53]. *)
Definition last_place (x : Q) : Z :=
  let e0 := Z.log2 (Qnum x) - Z.log2 (Zpos (Qden x)) - 53 in
  if Qle_bool (2 ^ 53) (x / 2 ^ e0) then e0 + 1 else e0.

Definition round_pos (x : Q) : Q :=
  (inject_Z (round_half_even (x / 2 ^ last_place x)) * 2 ^ last_place x)%Q.

(** The double nearest to the rational [x]. *)
Definition fl (x : Q) : Q :=
  match Qnum x with
  | Z0 => 0%Q
  | Zpos _ => round_pos x
  | Zneg _ => (- round_pos (- x))%Q
  end.

(** Half a unit in the last place, relative to the value: the largest
    relative error of [fl]. *)
Definition half_ulp : Q := 1 # 9007199254740992.

End PyFloat.

(** ** The world: filesystem, codecs, trace *)

(** Exceptions that the modelled calls can raise; all are subclasses of
    [Exception]. *)
Inductive exn : Type :=
| OSError
| CodecError
| ZeroDivisionError
| ValueError
| UnicodeEncodeError
| UnicodeDecodeError.

(** The lines the program prints. *)
Inductive message : Type :=
| MsgExists (video_path : string)
| MsgNoAudio (video_path : string)
| MsgExtractError (video_path : string) (e : exn)
| MsgProcessError (temp_audio : string) (e : exn)
| MsgInvalidDir (directory : string)
| MsgProcessing (filename : string)
| MsgCreated (output_path : string)
| MsgFailed (filename : string).

(** What is observable of a run: the codec calls and the prints. *)
Inductive event : Type :=
| CallOpen (video_path : string)
| CallWrite (temp_audio : string)
| CallClose (video_path : string)
| CallLoad (temp_audio : string)
| CallExport (final_audio : string) (kbps : Z)
| Print (m : message).

(** How a call that writes a file can end: it returns, it raises before
    the file exists, or it raises after the file was created. *)
Inductive write_end : Type :=
| Written
| FailsBefore
| FailsAfter.

(** What moviepy and pydub do with one video. *)
Record clip : Type := Clip {
  opens : bool;          (* [VideoFileClip(video_path)] returns *)
  has_audio : bool;      (* [video.audio] is truthy *)
  write : write_end;     (* [video.audio.write_audiofile(temp_audio)] *)
  closes : bool;         (* [video.close()] returns *)
  wav_loads : bool;      (* [AudioSegment.from_file(temp_audio)] returns *)
  wav_bytes : Z;         (* [os.path.getsize(temp_audio)] *)
  wav_ms : Z;            (* [len(audio)], in milliseconds *)
  export : write_end     (* [audio.export(final_audio, ...)] *)
}.

Record world : Type := World {
  files : gset string;   (* regular files *)
  dirs : gset string;    (* directories *)
  trace : list event     (* oldest event first *)
}.

(** ** A state-and-exception monad for the Python code *)

Inductive result (A : Type) : Type :=
| Ok (a : A)
| Raise (e : exn).
Arguments Ok {A} a.
Arguments Raise {A} e.

Definition M (A : Type) : Type := world -> result A * world.

Definition ret {A} (a : A) : M A := fun w => (Ok a, w).

Definition raise {A} (e : exn) : M A := fun w => (Raise e, w).

Definition bind {A B} (m : M A) (k : A -> M B) : M B :=
  fun w => match m w with
           | (Ok a, w') => k a w'
           | (Raise e, w') => (Raise e, w')
           end.

Declare Scope py_scope.
Delimit Scope py_scope with py.
Notation "x <- m ;; k" := (bind m (fun x => k))
  (at level 100, m at next level, right associativity) : py_scope.
Notation "m ;; k" := (bind m (fun _ => k))
  (at level 100, right associativity) : py_scope.
Local Open Scope py_scope.

(** [try: body except Exception as e: handler e]. *)
Definition try_except {A} (body : M A) (handler : exn -> M A) : M A :=
  fun w => match body w with
           | (Ok a, w') => (Ok a, w')
           | (Raise e, w') => handler e w'
           end.

(** [try: body finally: cleanup].  The cleanup runs whatever the body
    did; an exception of the cleanup replaces the body's outcome. *)
Definition try_finally {A} (body : M A) (cleanup : M unit) : M A :=
  fun w => match body w with
           | (r, w') =>
               match cleanup w' with
               | (Ok _, w'') => (r, w'')
               | (Raise e, w'') => (Raise e, w'')
               end
           end.

(** Control flow of a block that can [return] early. *)
Inductive flow : Type :=
| Next
| Return (v : option string).

Definition emit (e : event) : M unit :=
  fun w => (Ok tt, World (files w) (dirs w) (trace w ++ [e])).

Definition print (m : message) : M unit := emit (Print m).

(** ** [os] *)

Module Os.
Import PyStr.

(** [os.path.isfile], [os.path.isdir], [os.path.exists]. *)
Definition isfile (p : string) : M bool :=
  fun w => (Ok (bool_decide (p ∈ files w)), w).

Definition isdir (p : string) : M bool :=
  fun w => (Ok (bool_decide (p ∈ dirs w)), w).

Definition exists_ (p : string) : M bool :=
  fun w => (Ok (bool_decide (p ∈ files w) || bool_decide (p ∈ dirs w)), w).

(** A call that creates the regular file [p]. *)
Definition create (p : string) : M unit :=
  fun w => (Ok tt, World ({[p]} ∪ files w) (dirs w) (trace w)).

(** [os.remove(p)]: only a regular file can be removed. *)
Definition remove (p : string) : M unit :=
  fun w => if bool_decide (p ∈ files w)
           then (Ok tt, World (files w ∖ {[p]}) (dirs w) (trace w))
           else (Raise OSError, w).

(** The directories that [os.makedirs(name)] goes through: every prefix
    of [name] that stops at a separator, then [name] itself.  [seen] is
    the part of the path already read. *)
Fixpoint chain_from (seen rest : string) : list string :=
  match rest with
  | EmptyString => [seen]
  | String c r =>
      if Ascii.eqb c "/"
      then seen :: chain_from (seen ++ "/") r
      else chain_from (seen ++ String c EmptyString) r
  end.

(** [os.mkdir] with [exist_ok=True]: a directory that is already there is
    accepted, a regular file in the way is an error. *)
Definition mkdir_exist_ok (p : string) : M unit :=
  fun w => if bool_decide (p ∈ files w)
           then (Raise OSError, w)
           else (Ok tt, World (files w) ({[p]} ∪ dirs w) (trace w)).

Fixpoint mkdir_all (ps : list string) : M unit :=
  match ps with
  | [] => ret tt
  | p :: rest => mkdir_exist_ok p ;; mkdir_all rest
  end.

(** [os.makedirs(name, exist_ok=True)]. *)
Definition makedirs (name : string) : M unit :=
  mkdir_all (chain_from "" name).

End Os.

(** ** [video_processing.py] *)

Module VideoProcessing.
Import PyStr OsPath Os PyFloat.

(** [int(x)] on a float: truncation towards zero. *)
Definition int_of (x : Q) : Z := Z.quot (Qnum x) (Zpos (Qden x)).

(** [a / b] on two ints: the double nearest to the quotient; a zero
    divisor raises. *)
Definition truediv (a b : Z) : M Q :=
  if Z.eqb b 0 then raise ZeroDivisionError
  else ret (fl (inject_Z a / inject_Z b)).

(** [n / x] on an int and a float: [n] is converted to the nearest
    double, then the two doubles are divided; a zero divisor raises. *)
Definition truediv_float (n : Z) (x : Q) : M Q :=
  if Qeq_bool x 0 then raise ZeroDivisionError
  else ret (fl (fl (inject_Z n) / x)).

Section Program.

(** What the codecs do with the video at a given path. *)
Variable media : string -> clip.
(** What [os.listdir] enumerates for a directory, in its order. *)
Variable listing : string -> list string.

(** [VideoFileClip(video_path)]. *)
Definition VideoFileClip (video_path : string) : M clip :=
  emit (CallOpen video_path) ;;
  if opens (media video_path) then ret (media video_path)
  else raise CodecError.

(** [video.audio.write_audiofile(temp_audio)]. *)
Definition write_audiofile (video : clip) (temp_audio : string) : M unit :=
  emit (CallWrite temp_audio) ;;
  match write video with
  | Written => create temp_audio
  | FailsBefore => raise CodecError
  | FailsAfter => create temp_audio ;; raise CodecError
  end.

(** [video.close()]. *)
Definition close (video : clip) (video_path : string) : M unit :=
  emit (CallClose video_path) ;;
  if closes video then ret tt else raise CodecError.

(** [AudioSegment.from_file(temp_audio, format="wav")]; the segment read
    back is the audio of the clip that was written there. *)
Definition from_file (video : clip) (temp_audio : string) : M clip :=
  emit (CallLoad temp_audio) ;;
  if wav_loads video then ret video else raise CodecError.

(** [os.path.getsize(temp_audio)]. *)
Definition getsize (audio : clip) (temp_audio : string) : M Z :=
  present <- isfile temp_audio ;;
  if present then ret (wav_bytes audio) else raise OSError.

(** [audio.export(final_audio, format="mp3", bitrate=f"{kbps}k")]. *)
Definition export_mp3 (audio : clip) (final_audio : string) (kbps : Z)
  : M unit :=
  emit (CallExport final_audio kbps) ;;
  match export audio with
  | Written => create final_audio
  | FailsBefore => raise CodecError
  | FailsAfter => create final_audio ;; raise CodecError
  end.

Definition audio_dir : string := "output/audio".
Definition analysis_dir : string := "output/analysis".

Definition ensure_directories : M (string * string) :=
  makedirs audio_dir ;;
  makedirs analysis_dir ;;
  ret (audio_dir, analysis_dir).

Definition base_name_of (video_path : string) : string :=
  splitext_root (basename video_path).

Definition temp_audio_of (video_path : string) : string :=
  join audio_dir (base_name_of video_path ++ "_temp.wav").

Definition final_audio_of (video_path : string) : string :=
  join audio_dir (base_name_of video_path ++ ".mp3").

(** The first [try] block of [video_to_audio]. *)
Definition extract_audio (video_path temp_audio : string) : M flow :=
  try_except
    (video <- VideoFileClip video_path ;;
     if negb (has_audio video)
     then print (MsgNoAudio video_path) ;; ret (Return None)
     else
       write_audiofile video temp_audio ;;
       close video video_path ;;
       ret Next)
    (fun e => print (MsgExtractError video_path e) ;; ret (Return None)).

(** The bitrate chosen by the second [try] block, in kbps. *)
Definition choose_bitrate (audio : clip) (current_size : Q)
    (max_size_mb : Z) : M Z :=
  if Qle_bool current_size (inject_Z max_size_mb)
  then ret 192
  else
    duration_s <- truediv (wav_ms audio) 1000 ;;
    quotient <- truediv_float (max_size_mb * 8192) duration_s ;;
    let target_bitrate := int_of quotient in
    ret (Z.max 32 (Z.min 192 target_bitrate)).

(** The second [try] block of [video_to_audio], with its [except] and
    [finally] clauses. *)
Definition encode_audio (video : clip) (temp_audio final_audio : string)
    (max_size_mb : Z) : M flow :=
  try_finally
    (try_except
       (audio <- from_file video temp_audio ;;
        bytes <- getsize audio temp_audio ;;
        current_size <- truediv bytes (1024 * 1024) ;;
        bitrate <- choose_bitrate audio current_size max_size_mb ;;
        export_mp3 audio final_audio bitrate ;;
        ret Next)
       (fun e => print (MsgProcessError temp_audio e) ;; ret (Return None)))
    (present <- exists_ temp_audio ;;
     if present then remove temp_audio else ret tt).

Definition video_to_audio (video_path : string) (max_size_mb : Z)
  : M (option string) :=
  d <- ensure_directories ;;
  let audio_dir := fst d in
  let base_name := splitext_root (basename video_path) in
  let temp_audio := join audio_dir (base_name ++ "_temp.wav") in
  let final_audio := join audio_dir (base_name ++ ".mp3") in
  cached <- isfile final_audio ;;
  if cached
  then print (MsgExists video_path) ;; ret (Some final_audio)
  else
    r1 <- extract_audio video_path temp_audio ;;
    match r1 with
    | Return v => ret v
    | Next =>
        r2 <- encode_audio (media video_path) temp_audio final_audio
                max_size_mb ;;
        match r2 with
        | Return v => ret v
        | Next => ret (Some final_audio)
        end
    end.

Definition video_extensions : list string :=
  [".mp4"; ".avi"; ".mov"; ".mkv"].

Definition is_video (filename : string) : bool :=
  endswith_any (lower filename) video_extensions.

(** The [for] loop of [process_videos_in_directory]; [processed] is the
    list [processed_audio_files] built so far. *)
Fixpoint for_each_entry (directory : string) (entries : list string)
    (processed : list string) : M (list string) :=
  match entries with
  | [] => ret processed
  | filename :: rest =>
      if is_video filename
      then
        let video_path := join directory filename in
        print (MsgProcessing filename) ;;
        output_path <- video_to_audio video_path 15 ;;
        match output_path with
        | Some p =>
            if truthy p
            then print (MsgCreated p) ;;
                 for_each_entry directory rest (processed ++ [p])%list
            else print (MsgFailed filename) ;;
                 for_each_entry directory rest processed
        | None =>
            print (MsgFailed filename) ;;
            for_each_entry directory rest processed
        end
      else for_each_entry directory rest processed
  end.

Definition process_videos_in_directory (directory : string)
  : M (list string) :=
  is_dir <- isdir directory ;;
  if negb is_dir
  then print (MsgInvalidDir directory) ;; ret []
  else for_each_entry directory (listing directory) [].

End Program.

End VideoProcessing.

(** ** Vocabulary of the statements *)

Module Spec.
Import PyStr OsPath Os PyFloat VideoProcessing.

(** World updates, named. *)
Definition log (w : world) (es : list event) : world :=
  World (files w) (dirs w) (trace w ++ es).

Definition touch (p : string) (w : world) : world :=
  World ({[p]} ∪ files w) (dirs w) (trace w).

Definition untouch (p : string) (w : world) : world :=
  World (files w ∖ {[p]}) (dirs w) (trace w).

(** The output directories can be created: no regular file sits where
    [ensure_directories] wants a directory. *)
Definition ensure_ok (w : world) : Prop :=
  ("output" ∉ files w) ∧ (audio_dir ∉ files w) ∧ (analysis_dir ∉ files w).

Definition output_dirs : gset string :=
  {["output"; audio_dir; analysis_dir]}.

Definition with_output_dirs (w : world) : world :=
  World (files w) (output_dirs ∪ dirs w) (trace w).

(** The size of the intermediate in MB, as the program measures it. *)
Definition measured_mb (c : clip) : Q :=
  fl (inject_Z (wav_bytes c) / inject_Z (1024 * 1024)).

(** [N / (ms / 1000)] as the program computes it: three roundings. *)
Definition float_quotient (N ms : Z) : Q :=
  fl (fl (inject_Z N) / fl (inject_Z ms / inject_Z 1000)).

(** The value [choose_bitrate] returns, if it returns: a function of the
    clip and of the size limit only. *)
Definition chosen_bitrate (c : clip) (max_size_mb : Z) : option Z :=
  if Qle_bool (measured_mb c) (inject_Z max_size_mb)
  then Some 192
  else if Qeq_bool (fl (inject_Z (wav_ms c) / inject_Z 1000)) 0 then None
  else Some (Z.max 32 (Z.min 192
         (int_of (float_quotient (max_size_mb * 8192) (wav_ms c))))).

(** The size-targeting rule in the words of the specification, in exact
    arithmetic: 192 kbps when the intermediate fits, otherwise
    [clamp(32, 192, floor(maxSizeMB * 8192 / D))] with [D] in seconds. *)
Definition clamp (lo hi x : Z) : Z := Z.max lo (Z.min hi x).

Definition spec_bitrate (size_bytes duration_ms max_size_mb : Z) : Z :=
  let size_mb := (inject_Z size_bytes / inject_Z (1024 * 1024))%Q in
  let D := (inject_Z duration_ms / inject_Z 1000)%Q in
  if Qle_bool size_mb (inject_Z max_size_mb) then 192
  else clamp 32 192 (Qfloor (inject_Z (max_size_mb * 8192) / D)).

(** The intermediate WAV, as measured, is not larger than the limit. *)
Definition fits (c : clip) (max_size_mb : Z) : bool :=
  Qle_bool (measured_mb c) (inject_Z max_size_mb).

(** Stages a clip gets through. *)
Definition is_written (e : write_end) : bool :=
  match e with Written => true | _ => false end.

Definition is_fails_before (e : write_end) : bool :=
  match e with FailsBefore => true | _ => false end.

Definition extracts (c : clip) : bool :=
  opens c && has_audio c && is_written (write c) && closes c.

Definition reaches_export (c : clip) (max_size_mb : Z) : bool :=
  extracts c && wav_loads c && bool_decide (is_Some (chosen_bitrate c max_size_mb)).

Definition transcodes (c : clip) (max_size_mb : Z) : bool :=
  reaches_export c max_size_mb && is_written (export c).

Definition leaves_final (c : clip) (max_size_mb : Z) : bool :=
  reaches_export c max_size_mb && negb (is_fails_before (export c)).

(** Projections of a trace. *)
Definition processing_of (t : list event) : list string :=
  omap (fun e => match e with Print (MsgProcessing f) => Some f | _ => None end) t.

Definition opened (t : list event) : list string :=
  omap (fun e => match e with CallOpen v => Some v | _ => None end) t.

Definition exported (t : list event) : list (string * Z) :=
  omap (fun e => match e with CallExport p b => Some (p, b) | _ => None end) t.

(** The last character of a string. *)
Fixpoint last_char (s : string) : option ascii :=
  match s with
  | EmptyString => None
  | String c EmptyString => Some c
  | String _ r => last_char r
  end.

Section Batch.
Variable media : string -> clip.

(** What becomes of one directory entry. *)
Inductive verdict : Type :=
| Cached
| Transcoded
| Failed.

(** The batch seen from outside: [cache] is the set of files present when
    an entry's turn comes; each video is a cache hit, a fresh transcode
    or a failure. *)
Definition verdict_of (cache : gset string) (video_path : string) : verdict :=
  if bool_decide (final_audio_of video_path ∈ cache) then Cached
  else if transcodes (media video_path) 15 then Transcoded
  else Failed.

Definition cache_step (cache : gset string) (video_path : string)
  : gset string :=
  if leaves_final (media video_path) 15
  then {[final_audio_of video_path]} ∪ cache
  else cache.

Fixpoint plan (cache : gset string) (videos : list string)
  : list (string * verdict) :=
  match videos with
  | [] => []
  | v :: rest => (v, verdict_of cache v) :: plan (cache_step cache v) rest
  end.

(** The cache once a list of videos has had its turn. *)
Definition cache_after (cache : gset string) (videos : list string)
  : gset string :=
  fold_left cache_step videos cache.

(** The audio paths a plan yields: one per entry that did not fail. *)
Definition paths_of (p : list (string * verdict)) : list string :=
  omap (fun x => match snd x with
                 | Failed => None
                 | _ => Some (final_audio_of (fst x))
                 end) p.

(** The videos a plan decodes: those that are not cache hits. *)
Definition decoded_of (p : list (string * verdict)) : list string :=
  omap (fun x => match snd x with
                 | Cached => None
                 | _ => Some (fst x)
                 end) p.

End Batch.

(** The allow-list in the words of the specification: a name is a video
    name when some tail of it is, up to case, one of the extensions. *)
Definition ends_with_ci (name ext : string) : Prop :=
  exists pre suf, name = pre ++ suf /\ lower suf = ext.

Definition video_name (name : string) : Prop :=
  exists ext, ext ∈ [".mp4"; ".avi"; ".mov"; ".mkv"] /\ ends_with_ci name ext.

(** The entries of a directory that are videos, as paths. *)
Definition candidates (listing : string -> list string) (directory : string)
  : list string :=
  map (join directory) (filter (fun f => is_video f = true) (listing directory)).

End Spec.

(** ** Sample inputs *)

Module Samples.
Import VideoProcessing Spec.

(** A video with a 200 MB, 1000 s audio track that every codec call
    handles. *)
Definition healthy : clip :=
  Clip true true Written true true (200 * 1024 * 1024) 1000000 Written.

(** The same with a 5 MB, 30 s track, under the default limit. *)
Definition small : clip :=
  Clip true true Written true true (5 * 1024 * 1024) 30000 Written.

(** A 200 MB track of 573.44 s. *)
Definition lecture : clip :=
  Clip true true Written true true (200 * 1024 * 1024) 573440 Written.

(** A container that does not open. *)
Definition corrupt : clip :=
  Clip false false FailsBefore false false 0 0 FailsBefore.

(** A video without audio track. *)
Definition silent : clip :=
  Clip true false Written true true 0 0 Written.

(** A video whose WAV extraction breaks off after the file was created. *)
Definition half_written : clip :=
  Clip true true FailsAfter true true 0 0 Written.

(** An empty working directory, and one where a regular file named
    [output] is in the way. *)
Definition fresh : world := World ∅ ∅ [].
Definition blocked : world := World {["output"]} ∅ [].

(** A working directory with a video folder. *)
Definition with_videos : world := World ∅ {["videos"]} [].

(** A working directory where [clip.mp3] was produced earlier. *)
Definition cached_clip : world :=
  World {["output/audio/clip.mp3"]} {["output"; "output/audio"]} [].

Definition all (c : clip) (video_path : string) : clip := c.

(** Three valid videos and a corrupt one. *)
Definition three_and_one (video_path : string) : clip :=
  if String.eqb video_path "videos/b.mp4" then corrupt else healthy.

Definition four_entries (directory : string) : list string :=
  ["a.mp4"; "b.mp4"; "c.avi"; "d.mkv"].

Definition mixed_entries (directory : string) : list string :=
  ["a.mp4"; "b.txt"; "c.MKV"].

Definition twin_entries (directory : string) : list string :=
  ["a.mp4"; "notes.txt"; "a.mov"].

End Samples.


(** ** The analysis files: [app_utils.py] and [analysis_utils.py]

    [should_skip_analysis], [save_analysis] and [load_existing_analysis]
    keep one text file per audio file under [output/analysis].  They run
    on the filesystem of the transcoder, extended with what the regular
    files hold.

    A text is kept as its UTF-8 encoding and a file name as its bytes, so
    that the length of a name is the one the filesystem limits.  A string
    that is not valid UTF-8 stands for a text that cannot be encoded. *)

Module Analysis.
Import PyStr OsPath Os VideoProcessing.

(** [s.replace(old, new)] for a non-empty [old] (the program only
    replaces ['.mp3']): the occurrences of [old] are found from left to
    right and do not overlap.  [skip] counts the characters of the
    occurrence just replaced that are still to be passed over. *)
Fixpoint replace_from (old new s : string) (skip : nat) : string :=
  match s with
  | EmptyString => EmptyString
  | String c r =>
      match skip with
      | S k => replace_from old new r k
      | O =>
          if startswith s old
          then new ++ replace_from old new r (String.length old - 1)
          else String c (replace_from old new r 0)
      end
  end.

Definition str_replace (old new s : string) : string :=
  replace_from old new s 0.

Definition NUL : ascii := "000"%char.
Definition LF : ascii := "010"%char.
Definition CR : ascii := "013"%char.

(** Is the byte [c] between [lo] and [hi]? *)
Definition byte_in (lo hi : N) (c : ascii) : bool :=
  ((lo <=? N_of_ascii c) && (N_of_ascii c <=? hi))%N.

(** The strict UTF-8 decoder of Python accepts [s]: shortest forms only,
    no surrogates, nothing above U+10FFFF. *)
Fixpoint utf8_valid (s : string) : bool :=
  match s with
  | EmptyString => true
  | String c r =>
      if byte_in 0 127 c then utf8_valid r
      else if byte_in 194 223 c then
        match r with
        | String c1 r1 => byte_in 128 191 c1 && utf8_valid r1
        | _ => false
        end
      else if byte_in 224 239 c then
        match r with
        | String c1 (String c2 r2) =>
            (if byte_in 224 224 c then byte_in 160 191 c1
             else if byte_in 237 237 c then byte_in 128 159 c1
             else byte_in 128 191 c1)
            && byte_in 128 191 c2 && utf8_valid r2
        | _ => false
        end
      else if byte_in 240 244 c then
        match r with
        | String c1 (String c2 (String c3 r3)) =>
            (if byte_in 240 240 c then byte_in 144 191 c1
             else if byte_in 244 244 c then byte_in 128 143 c1
             else byte_in 128 191 c1)
            && byte_in 128 191 c2 && byte_in 128 191 c3 && utf8_valid r3
        | _ => false
        end
      else false
  end.

(** What reading in text mode does to line ends (universal newlines):
    every ['\r\n'] and every other ['\r'] becomes ['\n']. *)
Fixpoint universal_newlines (s : string) : string :=
  match s with
  | EmptyString => EmptyString
  | String c r =>
      if Ascii.eqb c CR then
        match r with
        | String c' r' =>
            if Ascii.eqb c' LF then String LF (universal_newlines r')
            else String LF (universal_newlines r)
        | EmptyString => String LF EmptyString
        end
      else String c (universal_newlines r)
  end.

(** The working directory: files, directories and trace as before, and
    the bytes of every regular file ([bytes_at] is only looked at for the
    paths in [files]). *)
Record disk : Type := Disk {
  fs : world;
  bytes_at : string -> string
}.

(** The contents after the file at [p] was overwritten with [bytes]. *)
Definition put (p bytes : string) (c : string -> string) : string -> string :=
  fun q => if String.eqb q p then bytes else c q.

(** The directory a new file at [p] goes into exists: [p] has no
    directory part (or only the root), or that part is a directory. *)
Definition parent_exists (p : string) (w : world) : bool :=
  let i := rfind sep p in
  (i <=? 0)%Z || bool_decide (slice_to i p ∈ dirs w).

(** The longest file name, in bytes, that the filesystem takes. *)
Definition name_max : nat := 255.

(** [with open(p, "w", encoding="utf-8") as f: f.write(text)].
    A NUL in the path is a [ValueError] before anything is tried.  A
    directory at [p], a missing parent directory, an empty file name or
    one of more than [name_max] bytes make [open] raise an [OSError].
    Otherwise the file is created or truncated; then the text is
    written, or, if it cannot be encoded, [write] raises and leaves the
    file empty. *)
Definition write_text (p text : string) (d : disk) : result unit * disk :=
  if contains NUL p then (Raise ValueError, d)
  else if bool_decide (p ∈ dirs (fs d))
          || negb (parent_exists p (fs d))
          || String.eqb (basename p) ""
          || (name_max <? String.length (basename p))%nat
  then (Raise OSError, d)
  else
    let opened bytes :=
      Disk (World ({[p]} ∪ files (fs d)) (dirs (fs d)) (trace (fs d)))
           (put p bytes (bytes_at d)) in
    if utf8_valid text then (Ok tt, opened text)
    else (Raise UnicodeEncodeError, opened "").

(** [with open(p, 'r', encoding='utf-8') as f: f.read()]: only a regular
    file can be read; its bytes are decoded, which fails if they are not
    UTF-8, and the line ends are translated. *)
Definition read_text (p : string) (d : disk) : result string * disk :=
  if bool_decide (p ∈ files (fs d))
  then if utf8_valid (bytes_at d p)
       then (Ok (universal_newlines (bytes_at d p)), d)
       else (Raise UnicodeDecodeError, d)
  else (Raise OSError, d).

(** [app_utils.should_skip_analysis]. *)
Definition should_skip_analysis (audio_file : string) (skip_reanalysis : bool)
  : M bool :=
  if negb skip_reanalysis then ret false
  else
    let base_name := splitext_root (basename audio_file) in
    names <- ensure_directories ;;
    let analysis_file := join (snd names) (base_name ++ "_analysis.txt") in
    isfile analysis_file.

(** [app_utils.save_analysis]. *)
Definition save_analysis (audio_file text : string) (d : disk)
  : result unit * disk :=
  let base_name := splitext_root (basename audio_file) in
  match ensure_directories (fs d) with
  | (Ok names, w) =>
      let analysis_file := join (snd names) (base_name ++ "_analysis.txt") in
      write_text analysis_file text (Disk w (bytes_at d))
  | (Raise e, w) => (Raise e, Disk w (bytes_at d))
  end.

(** [analysis_utils.load_existing_analysis]; the pair it returns is
    [(True, content)] or [(False, None)]. *)
Definition load_existing_analysis (audio_file : string) (d : disk)
  : result (bool * option string) * disk :=
  let analysis_path :=
    "output/analysis/"
    ++ str_replace ".mp3" "_analysis.txt" (basename audio_file) in
  match exists_ analysis_path (fs d) with
  | (Ok true, w) =>
      match read_text analysis_path (Disk w (bytes_at d)) with
      | (Ok content, d') => (Ok (true, Some content), d')
      | (Raise e, d') => (Raise e, d')
      end
  | (Ok false, w) => (Ok (false, None), Disk w (bytes_at d))
  | (Raise e, w) => (Raise e, Disk w (bytes_at d))
  end.

(** ** Vocabulary of the statements about the analysis files *)

(** The analysis file that [app_utils] uses for an audio file. *)
Definition analysis_file_of (audio_file : string) : string :=
  "output/analysis/" ++ splitext_root (basename audio_file) ++ "_analysis.txt".

(** The file name [n] can be created: no NUL, at most [name_max]
    bytes. *)
Definition storable (n : string) : bool :=
  negb (contains NUL n) && (String.length n <=? name_max)%nat.

(** Does [pat] occur in [s]?  ([pat in s] in Python.) *)
Fixpoint occurs (pat s : string) : bool :=
  startswith s pat ||
  match s with
  | EmptyString => false
  | String _ r => occurs pat r
  end.

End Analysis.

(** * Theorems *)

Import PyStr OsPath Os PyFloat VideoProcessing Spec.

(** ** Facts about paths *)

Section PathFacts.

Lemma contains_take c n s : contains c s = false -> contains c (take n s) = false.
Proof.
  revert s. induction n as [|n IH]; intros [|x r]; simpl; try done.
  intros [-> H]%orb_false_elim. by rewrite IH.
Qed.

Lemma rfind_from_cases c s i last :
  (rfind_from c s i last = last /\ contains c s = false) \/
  (exists k : nat, rfind_from c s i last = i + Z.of_nat k
                   /\ contains c (drop (S k) s) = false).
Proof.
  revert i last. induction s as [|x r IH]; intros i last; simpl.
  - by left.
  - destruct (IH (i + 1) (if Ascii.eqb x c then i else last)) as [[E N]|(k & E & N)].
    + destruct (Ascii.eqb x c) eqn:Hx.
      * right. exists 0%nat. split; [lia | done].
      * left. by rewrite E.
    + right. exists (S k). split; [lia | done].
Qed.

Lemma basename_no_sep p : contains sep (basename p) = false.
Proof.
  unfold basename, rfind, slice_from.
  destruct (rfind_from_cases sep p 0 (-1)) as [[E N]|(k & E & N)]; rewrite E.
  - done.
  - replace (Z.to_nat (0 + Z.of_nat k + 1)) with (S k) by lia. done.
Qed.

Lemma splitext_root_no_sep p :
  contains sep p = false -> contains sep (splitext_root p) = false.
Proof.
  intros H. unfold splitext_root, slice_to.
  destruct (_ && _); [by apply contains_take | done].
Qed.

Lemma base_name_no_sep v : contains sep (base_name_of v) = false.
Proof. apply splitext_root_no_sep, basename_no_sep. Qed.

Lemma append_cons a s t : String a s ++ t = String a (s ++ t).
Proof. reflexivity. Qed.

Lemma append_nil t : "" ++ t = t.
Proof. reflexivity. Qed.

Lemma join_audio_dir b x r :
  contains sep b = false -> Ascii.eqb x sep = false ->
  join audio_dir (b ++ String x r) = "output/audio/" ++ b ++ String x r.
Proof.
  intros Hb Hx. unfold join.
  assert (startswith (b ++ String x r) "/" = false) as ->.
  { unfold startswith. destruct b as [|y b]; rewrite ?append_nil, ?append_cons; simpl.
    - unfold sep in Hx. by rewrite Hx.
    - simpl in Hb. apply orb_false_elim in Hb as [Hy _]. unfold sep in Hy. by rewrite Hy. }
  reflexivity.
Qed.


Lemma final_audio_form v :
  final_audio_of v = "output/audio/" ++ base_name_of v ++ ".mp3".
Proof. apply join_audio_dir; [apply base_name_no_sep | reflexivity]. Qed.

Lemma temp_audio_form v :
  temp_audio_of v = "output/audio/" ++ base_name_of v ++ "_temp.wav".
Proof. apply join_audio_dir; [apply base_name_no_sep | reflexivity]. Qed.

Lemma last_char_append s c t : last_char (s ++ String c t) = last_char (String c t).
Proof.
  induction s as [|x s IH]; [done|].
  rewrite append_cons. destruct s as [|y s]; [done|].
  rewrite append_cons in *. exact IH.
Qed.

Lemma final_not_temp u v : final_audio_of u <> temp_audio_of v.
Proof.
  rewrite final_audio_form, temp_audio_form. intros H.
  apply String.app_inj in H. apply (f_equal last_char) in H.
  rewrite !last_char_append in H. discriminate H.
Qed.

Lemma output_path_not_dir b s :
  let p := "output/audio/" ++ b ++ s in
  p <> "output" /\ p <> audio_dir /\ p <> analysis_dir.
Proof.
  cbv zeta. rewrite !append_cons, append_nil. unfold audio_dir, analysis_dir.
  repeat split; intros H; discriminate H.
Qed.

Lemma final_audio_truthy v : truthy (final_audio_of v) = true.
Proof. rewrite final_audio_form. reflexivity. Qed.

End PathFacts.

(** ** Running the program *)

Ltac present :=
  repeat (match goal with
          | |- context [bool_decide (?p ∈ ?F)] =>
              rewrite (bool_decide_eq_true_2 (p ∈ F)) by set_solver
          end; simpl).

Ltac in_files :=
  simpl;
  rewrite ?elem_of_difference, ?elem_of_union, ?elem_of_singleton;
  intuition (try congruence).

Ltac summary_leaf v :=
  let u := fresh "u" in
  do 2 eexists;
  split; [reflexivity|];
  split; [simpl; rewrite <- ?app_assoc; reflexivity|];
  split; [reflexivity|];
  split; [reflexivity|];
  split; [reflexivity|];
  split;
  [ unfold ensure_ok, not in *; simpl; repeat split; in_files
  | intros u; pose proof (final_not_temp u v); in_files ].

Section Runs.
Variable media : string -> clip.

Lemma extract_audio_run v temp w :
  extract_audio media v temp w =
  let c := media v in
  let failed := Print (MsgExtractError v CodecError) in
  if negb (opens c) then (Ok (Return None), log w [CallOpen v; failed])
  else if negb (has_audio c)
  then (Ok (Return None), log w [CallOpen v; Print (MsgNoAudio v)])
  else match write c with
       | FailsBefore =>
           (Ok (Return None), log w [CallOpen v; CallWrite temp; failed])
       | FailsAfter =>
           (Ok (Return None), log (touch temp w) [CallOpen v; CallWrite temp; failed])
       | Written =>
           if closes c
           then (Ok Next, log (touch temp w) [CallOpen v; CallWrite temp; CallClose v])
           else (Ok (Return None),
                 log (touch temp w) [CallOpen v; CallWrite temp; CallClose v; failed])
       end.
Proof.
  unfold extract_audio, try_except, bind, VideoFileClip, write_audiofile,
    close, print, emit, create, ret, raise, log, touch, bind.
  cbv zeta. simpl.
  destruct (opens (media v)); simpl; [|by rewrite <- !app_assoc].
  destruct (has_audio (media v)); simpl; [|by rewrite <- !app_assoc].
  destruct (write (media v)); simpl; [|by rewrite <- !app_assoc..].
  destruct (closes (media v)); simpl; by rewrite <- !app_assoc.
Qed.

Lemma encode_audio_run c temp final m w :
  temp ∈ files w ->
  encode_audio c temp final m w =
  let cleaned w' := untouch temp w' in
  if negb (wav_loads c)
  then (Ok (Return None),
        log (cleaned w) [CallLoad temp; Print (MsgProcessError temp CodecError)])
  else match chosen_bitrate c m with
       | None =>
           (Ok (Return None),
            log (cleaned w)
              [CallLoad temp; Print (MsgProcessError temp ZeroDivisionError)])
       | Some b =>
           match export c with
           | FailsBefore =>
               (Ok (Return None),
                log (cleaned w)
                  [CallLoad temp; CallExport final b;
                   Print (MsgProcessError temp CodecError)])
           | FailsAfter =>
               (Ok (Return None),
                log (cleaned (touch final w))
                  [CallLoad temp; CallExport final b;
                   Print (MsgProcessError temp CodecError)])
           | Written =>
               (Ok Next,
                log (cleaned (touch final w)) [CallLoad temp; CallExport final b])
           end
       end.
Proof.
  intros Htemp.
  unfold encode_audio, try_finally, try_except, from_file, getsize, isfile,
    export_mp3, choose_bitrate, chosen_bitrate, truediv, truediv_float,
    exists_, remove, print, emit, create, ret, raise, log, touch, untouch,
    bind.
  change (Z.eqb (1024 * 1024) 0) with false.
  change (Z.eqb 1000 0) with false.
  fold (measured_mb c). fold (float_quotient (m * 8192) (wav_ms c)).
  cbv zeta. simpl files. simpl trace. simpl dirs.
  destruct (wav_loads c); simpl negb; cbv iota.
  2:{ present. by rewrite <- !app_assoc. }
  present.
  destruct (Qle_bool _ _); simpl.
  - destruct (export c); simpl; present; by rewrite <- ?app_assoc.
  - destruct (Qeq_bool _ _); simpl.
    + present. by rewrite <- ?app_assoc.
    + destruct (export c); simpl; present; by rewrite <- ?app_assoc.
Qed.

Lemma ensure_directories_run w :
  ensure_ok w ->
  ensure_directories w = (Ok (audio_dir, analysis_dir), with_output_dirs w).
Proof.
  intros (H1 & H2 & H3).
  unfold ensure_directories, makedirs.
  change (chain_from "" audio_dir) with ["output"; audio_dir].
  change (chain_from "" analysis_dir) with ["output"; analysis_dir].
  unfold mkdir_all, mkdir_exist_ok, ret, bind, with_output_dirs; simpl.
  rewrite !bool_decide_eq_false_2 by done. simpl.
  do 2 f_equal. unfold output_dirs. set_solver.
Qed.

Lemma ensure_directories_blocked w :
  ~ ensure_ok w -> exists w', ensure_directories w = (Raise OSError, w').
Proof.
  intros H.
  unfold ensure_directories, makedirs.
  change (chain_from "" audio_dir) with ["output"; audio_dir].
  change (chain_from "" analysis_dir) with ["output"; analysis_dir].
  unfold mkdir_all, mkdir_exist_ok, ret, bind; simpl.
  destruct (bool_decide ("output" ∈ files w)) eqn:E1; simpl; [by eexists|].
  destruct (bool_decide (audio_dir ∈ files w)) eqn:E2; simpl; [by eexists|]. rewrite ?E1; simpl.
  destruct (bool_decide (analysis_dir ∈ files w)) eqn:E3; simpl; [by eexists|].
  exfalso. apply H.
  apply bool_decide_eq_false in E1, E2, E3. done.
Qed.

Lemma video_to_audio_run v m w :
  ensure_ok w ->
  video_to_audio media v m w =
  let temp := temp_audio_of v in
  let final := final_audio_of v in
  let w0 := with_output_dirs w in
  if bool_decide (final ∈ files w)
  then (Ok (Some final), log w0 [Print (MsgExists v)])
  else match extract_audio media v temp w0 with
       | (Ok (Return r), w1) => (Ok r, w1)
       | (Ok Next, w1) =>
           match encode_audio (media v) temp final m w1 with
           | (Ok (Return r), w2) => (Ok r, w2)
           | (Ok Next, w2) => (Ok (Some final), w2)
           | (Raise e, w2) => (Raise e, w2)
           end
       | (Raise e, w1) => (Raise e, w1)
       end.
Proof.
  intros Hok. unfold video_to_audio.
  unfold bind at 1. rewrite (ensure_directories_run _ Hok).
  cbv zeta. simpl fst.
  fold (base_name_of v). fold (temp_audio_of v). fold (final_audio_of v).
  unfold bind at 1. unfold isfile at 1. simpl files.
  destruct (bool_decide _); [reflexivity|].
  unfold bind at 1.
  destruct (extract_audio _ _ _ _) as [[[|r]|e] w1]; [|reflexivity..].
  unfold bind at 1.
  by destruct (encode_audio _ _ _ _ _) as [[[|r]|e] w2].
Qed.


Lemma output_files_not_dirs v :
  let final := final_audio_of v in
  let temp := temp_audio_of v in
  (final <> "output" /\ final <> audio_dir /\ final <> analysis_dir) /\
  (temp <> "output" /\ temp <> audio_dir /\ temp <> analysis_dir).
Proof.
  cbv zeta. rewrite final_audio_form, temp_audio_form.
  split; apply output_path_not_dir.
Qed.

Lemma video_to_audio_summary v m w :
  ensure_ok w ->
  let final := final_audio_of v in
  let cached := bool_decide (final ∈ files w) in
  exists w' es,
    video_to_audio media v m w =
      (Ok (if cached || transcodes (media v) m then Some final else None), w')
    /\ trace w' = (trace w ++ es)%list
    /\ processing_of es = []
    /\ opened es = (if cached then [] else [v])
    /\ dirs w' = output_dirs ∪ dirs w
    /\ ensure_ok w'
    /\ (forall u, final_audio_of u ∈ files w' <->
                  final_audio_of u ∈ files w \/
                  (final_audio_of u = final /\ leaves_final (media v) m = true)).
Proof.
  intros Hok. cbv zeta. rewrite (video_to_audio_run _ _ _ Hok). cbv zeta.
  destruct (output_files_not_dirs v) as ((F1 & F2 & F3) & (T1 & T2 & T3)).
  destruct (bool_decide (final_audio_of v ∈ files w)) eqn:Hc.
  { apply bool_decide_eq_true in Hc. simpl orb. cbv iota. summary_leaf v. }
  apply bool_decide_eq_false in Hc. simpl orb.
  rewrite extract_audio_run. cbv zeta.
  unfold transcodes, leaves_final, reaches_export, extracts.
  destruct (media v) as [o h wr cl ld sz ms ex]; simpl.
  destruct o; simpl; [|summary_leaf v].
  destruct h; simpl; [|summary_leaf v].
  destruct wr; simpl; [|summary_leaf v..].
  destruct cl; simpl; [|summary_leaf v].
  rewrite encode_audio_run by (simpl; set_solver). cbv zeta. simpl.
  destruct ld; simpl; [|summary_leaf v].
  destruct (chosen_bitrate _ m) as [b|] eqn:Hb; simpl.
  2:{ summary_leaf v. }
  destruct ex; simpl; summary_leaf v.
Qed.


Lemma for_each_entry_run d l : forall acc w cache,
  ensure_ok w ->
  (forall u, final_audio_of u ∈ files w <-> final_audio_of u ∈ cache) ->
  let todo := plan media cache (map (join d) (filter (fun f => is_video f = true) l)) in
  exists w' es,
    for_each_entry media d l acc w = (Ok (acc ++ paths_of todo)%list, w')
    /\ trace w' = (trace w ++ es)%list
    /\ processing_of es = filter (fun f => is_video f = true) l
    /\ opened es = decoded_of todo
    /\ ensure_ok w'.
Proof.
  induction l as [|f l IH]; intros acc w cache Hok Hinv; cbv zeta.
  { exists w, []. simpl. rewrite !app_nil_r. done. }
  simpl for_each_entry. destruct (is_video f) eqn:Hf.
  2:{ rewrite filter_cons_False by congruence. apply IH; done. }
  rewrite filter_cons_True by done. simpl map. simpl plan.
  unfold bind at 1, print, emit. unfold bind at 1.
  set (w0 := World (files w) (dirs w) (trace w ++ [Print (MsgProcessing f)])).
  destruct (video_to_audio_summary (join d f) 15 w0 Hok)
    as (w1 & es1 & Hrun & Htr & Hproc & Hopen & _ & Hok1 & Hfiles).
  rewrite Hrun. clear Hrun.
  assert (Hinv1 : forall u, final_audio_of u ∈ files w1 <->
                            final_audio_of u ∈ cache_step media cache (join d f)).
  { intros u. rewrite Hfiles. simpl. rewrite Hinv. unfold cache_step.
    destruct (leaves_final _ _); in_files. }
  unfold verdict_of.
  assert (bool_decide (final_audio_of (join d f) ∈ files w0)
          = bool_decide (final_audio_of (join d f) ∈ cache)) as Hcache.
  { apply bool_decide_ext, Hinv. }
  rewrite Hcache in *. clear Hcache.
  destruct (bool_decide (final_audio_of (join d f) ∈ cache)); cbn [orb] in *; cbv iota.
  - rewrite final_audio_truthy. unfold bind at 1, print, emit.
    set (w2 := World _ _ _).
    destruct (IH (acc ++ [final_audio_of (join d f)])%list w2
                 (cache_step media cache (join d f)) Hok1 Hinv1)
      as (w3 & es3 & Hrun3 & Htr3 & Hproc3 & Hopen3 & Hok3).
    exists w3, ([Print (MsgProcessing f)] ++ es1
                ++ [Print (MsgCreated (final_audio_of (join d f)))] ++ es3)%list.
    rewrite Hrun3, Htr3. subst w2. simpl trace. rewrite Htr. subst w0. simpl trace.
    unfold processing_of, opened in *. rewrite !omap_app, Hproc, Hproc3, Hopen, Hopen3.
    simpl. rewrite <- !app_assoc. done.
  - destruct (transcodes (media (join d f)) 15); cbv iota.
    + rewrite final_audio_truthy. unfold bind at 1, print, emit.
      set (w2 := World _ _ _).
      destruct (IH (acc ++ [final_audio_of (join d f)])%list w2
                   (cache_step media cache (join d f)) Hok1 Hinv1)
        as (w3 & es3 & Hrun3 & Htr3 & Hproc3 & Hopen3 & Hok3).
      exists w3, ([Print (MsgProcessing f)] ++ es1
                  ++ [Print (MsgCreated (final_audio_of (join d f)))] ++ es3)%list.
      rewrite Hrun3, Htr3. subst w2. simpl trace. rewrite Htr. subst w0. simpl trace.
      unfold processing_of, opened in *. rewrite !omap_app, Hproc, Hproc3, Hopen, Hopen3.
      simpl. rewrite <- !app_assoc. done.
    + unfold bind at 1, print, emit.
      set (w2 := World _ _ _).
      destruct (IH acc w2 (cache_step media cache (join d f)) Hok1 Hinv1)
        as (w3 & es3 & Hrun3 & Htr3 & Hproc3 & Hopen3 & Hok3).
      exists w3, ([Print (MsgProcessing f)] ++ es1
                  ++ [Print (MsgFailed f)] ++ es3)%list.
      rewrite Hrun3, Htr3. subst w2. simpl trace. rewrite Htr. subst w0. simpl trace.
      unfold processing_of, opened in *. rewrite !omap_app, Hproc, Hproc3, Hopen, Hopen3.
      simpl. rewrite <- !app_assoc. done.
Qed.

End Runs.

(** ** The transcoder *)

Lemma cache_hit_run media v m w :
  ensure_ok w -> final_audio_of v ∈ files w ->
  video_to_audio media v m w =
    (Ok (Some (final_audio_of v)), log (with_output_dirs w) [Print (MsgExists v)]).
Proof.
  intros Hok Hin. rewrite (video_to_audio_run _ _ _ _ Hok). cbv zeta.
  by rewrite bool_decide_eq_true_2.
Qed.

Lemma transcodes_leaves_final c m :
  transcodes c m = true -> leaves_final c m = true.
Proof.
  unfold transcodes, leaves_final.
  destruct (reaches_export c m); [|done]. by destruct (export c).
Qed.

Lemma success_leaves_cache media v m w p w1 :
  ensure_ok w ->
  video_to_audio media v m w = (Ok (Some p), w1) ->
  p = final_audio_of v /\ final_audio_of v ∈ files w1 /\ ensure_ok w1.
Proof.
  intros Hok Hrun.
  destruct (video_to_audio_summary media v m w Hok)
    as (w' & es & Hrun' & _ & _ & _ & _ & Hok' & Hfiles).
  rewrite Hrun in Hrun'.
  destruct (bool_decide (final_audio_of v ∈ files w)) eqn:Hc; cbn [orb] in Hrun'.
  - injection Hrun' as -> ->. apply bool_decide_eq_true in Hc.
    split; [done|]. split; [|done]. apply Hfiles. by left.
  - destruct (transcodes (media v) m) eqn:Ht; [|discriminate Hrun'].
    injection Hrun' as -> ->.
    split; [done|]. split; [|done]. apply Hfiles. right.
    split; [done|]. by apply transcodes_leaves_final.
Qed.

(** C3. The cache check is an existence check and makes the call
    idempotent: when the final audio file already exists the call returns
    its path, changes no file and makes no codec call (the only event is
    the "already exists" print); and after any call that returned a path,
    a second call on the same video is such a cache hit, whatever the
    codecs would do. *)
Theorem C3_cache_hit_idempotent media v m w :
  ensure_ok w ->
  (final_audio_of v ∈ files w ->
   video_to_audio media v m w =
     (Ok (Some (final_audio_of v)),
      World (files w) (output_dirs ∪ dirs w)
        (trace w ++ [Print (MsgExists v)]))) /\
  (forall p w1 media',
     video_to_audio media v m w = (Ok (Some p), w1) ->
     video_to_audio media' v m w1 =
       (Ok (Some p),
        World (files w1) (output_dirs ∪ dirs w1)
          (trace w1 ++ [Print (MsgExists v)]))).
Proof.
  intros Hok. split.
  - intros Hin. by rewrite cache_hit_run.
  - intros p w1 media' Hrun.
    destruct (success_leaves_cache _ _ _ _ _ _ Hok Hrun) as (-> & Hin & Hok1).
    by rewrite cache_hit_run.
Qed.

(** C9. The cache check comes before any look at the input: with the
    final audio file present the call succeeds without opening the video,
    also for a video that cannot be opened; so a call that does not
    return the path (in particular the invalid-input failure) had no
    cached file. *)
Theorem C9_cache_precedes_validation media v m w :
  ensure_ok w ->
  (final_audio_of v ∈ files w ->
   exists w',
     video_to_audio media v m w = (Ok (Some (final_audio_of v)), w')
     /\ opened (trace w') = opened (trace w)) /\
  (forall r w',
     video_to_audio media v m w = (r, w') ->
     r <> Ok (Some (final_audio_of v)) ->
     final_audio_of v ∉ files w).
Proof.
  intros Hok. split.
  - intros Hin. eexists. split; [by apply cache_hit_run|].
    simpl. unfold opened. rewrite omap_app. simpl. by rewrite app_nil_r.
  - intros r w' Hrun Hr Hin. rewrite cache_hit_run in Hrun by done.
    injection Hrun as <- _. by apply Hr.
Qed.

(** C5. A video that opens but has no audio track, with no cached final
    file: the call returns [None], the only events are the open call and
    the "no audio" print (nothing is written), and the files on disk are
    the ones that were there, so no final file and no new intermediate. *)
Theorem C5_no_audio_track media v m w :
  ensure_ok w ->
  final_audio_of v ∉ files w ->
  opens (media v) = true ->
  has_audio (media v) = false ->
  exists w',
    video_to_audio media v m w = (Ok None, w')
    /\ trace w' = (trace w ++ [CallOpen v; Print (MsgNoAudio v)])%list
    /\ files w' = files w
    /\ (final_audio_of v ∉ files w')
    /\ (temp_audio_of v ∉ files w -> temp_audio_of v ∉ files w').
Proof.
  intros Hok Hc Ho Ha. rewrite (video_to_audio_run _ _ _ _ Hok). cbv zeta.
  rewrite bool_decide_eq_false_2 by done.
  rewrite extract_audio_run. cbv zeta. rewrite Ho, Ha. simpl.
  eexists. split; [reflexivity|]. simpl. done.
Qed.

(** C7. A path that is not a directory: the batch returns the empty list,
    prints the invalid-directory line and does nothing else (no file, no
    directory, no codec call). *)
Theorem C7_invalid_directory media listing d w :
  d ∉ dirs w ->
  process_videos_in_directory media listing d w =
    (Ok [], World (files w) (dirs w) (trace w ++ [Print (MsgInvalidDir d)])).
Proof.
  intros Hd. unfold process_videos_in_directory, bind, isdir.
  by rewrite bool_decide_eq_false_2.
Qed.

Lemma C7_invalid_directory_witness :
  process_videos_in_directory (Samples.all Samples.healthy)
    Samples.four_entries "videos" Samples.fresh =
    (Ok [], World ∅ ∅ [Print (MsgInvalidDir "videos")]).
Proof.
  apply (C7_invalid_directory (Samples.all Samples.healthy)
           Samples.four_entries "videos" Samples.fresh).
  vm_compute. discriminate.
Defined.

Lemma C3_cache_hit_idempotent_witness :
  video_to_audio (Samples.all Samples.corrupt) "videos/clip.mp4" 15
    Samples.cached_clip =
    (Ok (Some "output/audio/clip.mp3"),
     World {["output/audio/clip.mp3"]} output_dirs
       [Print (MsgExists "videos/clip.mp4")]).
Proof.
  assert (Hok : ensure_ok Samples.cached_clip).
  { vm_compute. repeat split; discriminate. }
  assert (Hin : final_audio_of "videos/clip.mp4" ∈ files Samples.cached_clip).
  { vm_compute. reflexivity. }
  pose proof (proj1 (C3_cache_hit_idempotent (Samples.all Samples.corrupt)
                       "videos/clip.mp4" 15 Samples.cached_clip Hok) Hin) as H.
  rewrite H. vm_compute. reflexivity.
Defined.

Lemma C9_cache_precedes_validation_witness :
  exists w',
    video_to_audio (Samples.all Samples.corrupt) "videos/clip.mp4" 15
      Samples.cached_clip = (Ok (Some "output/audio/clip.mp3"), w')
    /\ opened (trace w') = [].
Proof.
  assert (Hok : ensure_ok Samples.cached_clip).
  { vm_compute. repeat split; discriminate. }
  assert (Hin : final_audio_of "videos/clip.mp4" ∈ files Samples.cached_clip).
  { vm_compute. reflexivity. }
  exact (proj1 (C9_cache_precedes_validation (Samples.all Samples.corrupt)
                  "videos/clip.mp4" 15 Samples.cached_clip Hok) Hin).
Defined.

Lemma C5_no_audio_track_witness :
  exists w',
    video_to_audio (Samples.all Samples.silent) "videos/mute.mp4" 15
      Samples.fresh = (Ok None, w')
    /\ trace w' = [CallOpen "videos/mute.mp4";
                   Print (MsgNoAudio "videos/mute.mp4")]
    /\ files w' = ∅
    /\ (final_audio_of "videos/mute.mp4" ∉ files w')
    /\ (temp_audio_of "videos/mute.mp4" ∉ files Samples.fresh ->
        temp_audio_of "videos/mute.mp4" ∉ files w').
Proof.
  apply (C5_no_audio_track (Samples.all Samples.silent) "videos/mute.mp4" 15
           Samples.fresh).
  - vm_compute. repeat split; discriminate.
  - vm_compute. discriminate.
  - reflexivity.
  - reflexivity.
Defined.

(** ** Cleanup of the intermediate file *)

(** Once the extraction stage has gone through, the intermediate file is
    gone when the call returns, whatever the encoding stage did. *)
Lemma encode_stage_removes_intermediate media v m w :
  ensure_ok w ->
  final_audio_of v ∉ files w ->
  extracts (media v) = true ->
  exists r w',
    video_to_audio media v m w = (Ok r, w')
    /\ (temp_audio_of v ∉ files w').
Proof.
  intros Hok Hc He. rewrite (video_to_audio_run _ _ _ _ Hok). cbv zeta.
  rewrite bool_decide_eq_false_2 by done.
  rewrite extract_audio_run. cbv zeta. unfold extracts in He.
  destruct (media v) as [o h wr cl ld sz ms ex]; simpl in *.
  destruct o, h, wr, cl; try discriminate He. simpl.
  rewrite encode_audio_run by (simpl; in_files). cbv zeta. simpl.
  destruct ld; simpl; [|do 2 eexists; split; [reflexivity|in_files]].
  destruct (chosen_bitrate _ m); [|do 2 eexists; split; [reflexivity|in_files]].
  destruct ex; do 2 eexists; (split; [reflexivity|in_files]).
Qed.

(** The extraction stage has no cleanup: when [write_audiofile] raises
    after creating the file, or [close] raises, the call returns [None]
    and the intermediate file stays. *)
Lemma extract_stage_leaves_intermediate media v m w :
  ensure_ok w ->
  final_audio_of v ∉ files w ->
  opens (media v) = true ->
  has_audio (media v) = true ->
  write (media v) = FailsAfter \/
    (write (media v) = Written /\ closes (media v) = false) ->
  exists w',
    video_to_audio media v m w = (Ok None, w')
    /\ temp_audio_of v ∈ files w'.
Proof.
  intros Hok Hc Ho Ha Hw. rewrite (video_to_audio_run _ _ _ _ Hok). cbv zeta.
  rewrite bool_decide_eq_false_2 by done.
  rewrite extract_audio_run. cbv zeta. rewrite Ho, Ha. simpl.
  destruct Hw as [-> | [-> ->]]; eexists; (split; [reflexivity|in_files]).
Qed.

(** C1, at the failing input.  [write_audiofile] breaks off after it
    created the WAV: the call returns [None] and
    [output/audio/clip_temp.wav] is still on disk. *)
Theorem C1_intermediate_left_after_failed_extraction :
  video_to_audio (Samples.all Samples.half_written) "videos/clip.mp4" 15
    Samples.fresh =
    (Ok None,
     World {["output/audio/clip_temp.wav"]} output_dirs
       [CallOpen "videos/clip.mp4"; CallWrite "output/audio/clip_temp.wav";
        Print (MsgExtractError "videos/clip.mp4" CodecError)])
  /\ temp_audio_of "videos/clip.mp4" = "output/audio/clip_temp.wav".
Proof. split; vm_compute; reflexivity. Qed.

(** ** Exceptions that leave the transcoder *)

Lemma blocked_directories_raise media v m w :
  ~ ensure_ok w -> exists w', video_to_audio media v m w = (Raise OSError, w').
Proof.
  intros H. destruct (ensure_directories_blocked w H) as (w' & Hw').
  exists w'. unfold video_to_audio. unfold bind at 1. by rewrite Hw'.
Qed.

(** C8, at the failing input.  A regular file named [output] is in the
    way: [os.makedirs] raises, nothing catches it, [video_to_audio]
    raises instead of returning [None], and the batch that called it is
    aborted by the same exception. *)
Theorem C8_makedirs_error_escapes :
  video_to_audio (Samples.all Samples.healthy) "videos/clip.mp4" 15
    Samples.blocked = (Raise OSError, Samples.blocked)
  /\ fst (process_videos_in_directory (Samples.all Samples.healthy)
            Samples.four_entries "videos"
            (World {["output"]} {["videos"]} [])) = Raise OSError.
Proof. split; vm_compute; reflexivity. Qed.

(** ** Double-precision arithmetic *)

Lemma round_half_even_cases q :
  round_half_even q = Qfloor q \/ round_half_even q = Qfloor q + 1.
Proof.
  unfold round_half_even. cbv zeta.
  destruct (Qcompare _ _); [destruct (Z.even _)|..]; auto.
Qed.

Lemma round_half_even_near q :
  (inject_Z (round_half_even q) - (1 # 2) <= q
   /\ q <= inject_Z (round_half_even q) + (1 # 2))%Q.
Proof.
  pose proof (Qfloor_le q) as Hlo. pose proof (Qlt_floor q) as Hhi.
  rewrite inject_Z_plus in Hhi. change (inject_Z 1) with 1%Q in Hhi.
  unfold round_half_even. cbv zeta.
  destruct (Qcompare_spec (q - inject_Z (Qfloor q)) (1 # 2)) as [E|E|E].
  - destruct (Z.even _); [|rewrite inject_Z_plus; change (inject_Z 1) with 1%Q];
      split; lra.
  - split; lra.
  - rewrite inject_Z_plus. change (inject_Z 1) with 1%Q. split; lra.
Qed.

Lemma round_half_even_Z k : round_half_even (inject_Z k) = k.
Proof.
  unfold round_half_even. cbv zeta. rewrite Qfloor_Z.
  destruct (Qcompare_spec (inject_Z k - inject_Z k) (1 # 2)) as [E|E|E].
  - exfalso. lra.
  - reflexivity.
  - exfalso. lra.
Qed.

Lemma round_half_even_mono q1 q2 :
  (q1 <= q2)%Q -> round_half_even q1 <= round_half_even q2.
Proof.
  intros Hle. pose proof (Qfloor_resp_le _ _ Hle) as Hf.
  destruct (Z.eq_dec (Qfloor q1) (Qfloor q2)) as [E|E].
  - unfold round_half_even. cbv zeta. rewrite E.
    destruct (Qcompare_spec (q1 - inject_Z (Qfloor q2)) (1 # 2)) as [E1|E1|E1];
      destruct (Qcompare_spec (q2 - inject_Z (Qfloor q2)) (1 # 2)) as [E2|E2|E2];
      try destruct (Z.even _); try lia; exfalso; lra.
  - destruct (round_half_even_cases q1) as [-> | ->];
      destruct (round_half_even_cases q2) as [-> | ->]; lia.
Qed.

(** Powers of two as rationals. *)
Lemma two_nonzero : ~ (2 == 0)%Q.
Proof. discriminate. Qed.

Lemma pow2_pos e : (0 < 2 ^ e)%Q.
Proof. apply Qpower_0_lt. reflexivity. Qed.

Lemma pow2_succ e : (2 ^ (e + 1) == 2 * 2 ^ e)%Q.
Proof. rewrite Qpower_plus by apply two_nonzero. rewrite Qpower_1_r. ring. Qed.

Lemma pow2_log2 n :
  0 < n -> (2 ^ Z.log2 n <= inject_Z n /\ inject_Z n < 2 * 2 ^ Z.log2 n)%Q.
Proof.
  intros Hn. destruct (Z.log2_spec n Hn) as [Hlo Hhi].
  pose proof (Z.log2_nonneg n) as H0.
  rewrite <- pow2_succ.
  change 2%Q with (inject_Z 2).
  rewrite <- !Zpower_Qpower by lia.
  rewrite <- Zle_Qle, <- Zlt_Qlt. replace (Z.log2 n + 1) with (Z.succ (Z.log2 n)) by lia.
  done.
Qed.

Lemma last_place_spec x :
  (0 < x)%Q ->
  (2 ^ 52 <= x / 2 ^ last_place x /\ x / 2 ^ last_place x < 2 ^ 53)%Q.
Proof.
  intros Hx. destruct x as [n d].
  assert (Hn : 0 < n).
  { unfold Qlt in Hx. simpl in Hx. lia. }
  unfold last_place. cbv zeta. simpl Qnum. simpl Qden.
  set (a := Z.log2 n). set (b := Z.log2 (Z.pos d)).
  destruct (pow2_log2 n Hn) as [An An'].
  destruct (pow2_log2 (Z.pos d)) as [Bd Bd']; [lia|].
  fold a in An, An'. fold b in Bd, Bd'.
  pose proof (pow2_pos a) as PA. pose proof (pow2_pos b) as PB.
  assert (He0 : (2 ^ (a - b - 53) == 2 ^ a / (2 ^ b * 2 ^ 53))%Q).
  { rewrite !Qpower_minus by apply two_nonzero. field.
    repeat split; try apply Qpower_not_0; try apply two_nonzero;
      discriminate. }
  assert (Hq : (n # d == inject_Z n / inject_Z (Z.pos d))%Q) by apply Qmake_Qdiv.
  set (N := inject_Z n) in *. set (D := inject_Z (Z.pos d)) in *.
  set (A := (2 ^ a)%Q) in *. set (B := (2 ^ b)%Q) in *.
  assert (HD : (0 < D)%Q) by lra.
  assert (HN : (0 < N)%Q) by lra.
  assert (Hy : ((n # d) / 2 ^ (a - b - 53) == N * B * 2 ^ 53 / (D * A))%Q).
  { rewrite He0, Hq. field. repeat split; lra. }
  assert (Hlo : (2 ^ 52 < (n # d) / 2 ^ (a - b - 53))%Q).
  { rewrite Hy. apply Qlt_shift_div_l; [nra|].
    change (2 ^ 52)%Q with (4503599627370496 # 1)%Q.
    change (2 ^ 53)%Q with (9007199254740992 # 1)%Q. nra. }
  assert (Hhi : ((n # d) / 2 ^ (a - b - 53) < 2 * 2 ^ 53)%Q).
  { rewrite Hy. apply Qlt_shift_div_r; [nra|].
    change (2 ^ 53)%Q with (9007199254740992 # 1)%Q. nra. }
  destruct (Qle_bool _ _) eqn:Hc.
  - apply Qle_bool_iff in Hc.
    assert (Hh : ((n # d) / 2 ^ (a - b - 53 + 1)
                  == (n # d) / 2 ^ (a - b - 53) / 2)%Q).
    { rewrite pow2_succ. field. apply Qpower_not_0, two_nonzero. }
    rewrite Hh. change (2 ^ 52)%Q with (4503599627370496 # 1)%Q in *.
    change (2 ^ 53)%Q with (9007199254740992 # 1)%Q in *.
    set (y := ((n # d) / 2 ^ (a - b - 53))%Q) in *.
    split.
    + apply Qle_shift_div_l; lra.
    + apply Qlt_shift_div_r; lra.
  - split; [lra|].
    apply not_true_iff_false in Hc. rewrite Qle_bool_iff in Hc. lra.
Qed.

Lemma round_pos_near x :
  (0 < x)%Q ->
  (x * (1 - half_ulp) <= round_pos x /\ round_pos x <= x * (1 + half_ulp))%Q.
Proof.
  intros Hx. destruct (last_place_spec x Hx) as [Hlo Hhi].
  unfold round_pos. pose proof (pow2_pos (last_place x)) as HP.
  set (P := (2 ^ last_place x)%Q) in *.
  assert (Hxy : (x == x / P * P)%Q) by (field; lra).
  destruct (round_half_even_near (x / P)) as [K1 K2].
  set (y := (x / P)%Q) in *. set (k := inject_Z (round_half_even y)) in *.
  change (2 ^ 52)%Q with (4503599627370496 # 1)%Q in *.
  unfold half_ulp.
  assert (H1 : (y * (1 - (1 # 9007199254740992)) <= k)%Q) by lra.
  assert (H2 : (k <= y * (1 + (1 # 9007199254740992)))%Q) by lra.
  split; nra.
Qed.

Lemma round_pos_mono x y :
  (0 < x)%Q -> (x <= y)%Q -> (round_pos x <= round_pos y)%Q.
Proof.
  intros Hx Hxy. assert (Hy : (0 < y)%Q) by lra.
  destruct (last_place_spec x Hx) as [Xlo Xhi].
  destruct (last_place_spec y Hy) as [Ylo Yhi].
  unfold round_pos.
  pose proof (pow2_pos (last_place x)) as PX.
  pose proof (pow2_pos (last_place y)) as PY.
  destruct (Z.lt_trichotomy (last_place x) (last_place y)) as [E|[E|E]].
  - assert (K1 : (inject_Z (round_half_even (x / 2 ^ last_place x))
                  <= 2 ^ 53)%Q).
    { change (2 ^ 53)%Q with (inject_Z 9007199254740992).
      rewrite <- Zle_Qle.
      rewrite <- (round_half_even_Z 9007199254740992).
      apply round_half_even_mono.
      change (inject_Z 9007199254740992) with (2 ^ 53)%Q. lra. }
    assert (K2 : (2 ^ 52
                  <= inject_Z (round_half_even (y / 2 ^ last_place y)))%Q).
    { change (2 ^ 52)%Q with (inject_Z 4503599627370496).
      rewrite <- Zle_Qle.
      rewrite <- (round_half_even_Z 4503599627370496) at 1.
      apply round_half_even_mono.
      change (inject_Z 4503599627370496) with (2 ^ 52)%Q. lra. }
    assert (HP : (2 * 2 ^ last_place x <= 2 ^ last_place y)%Q).
    { rewrite <- pow2_succ. apply Qpower_le_compat_l; [lia | lra]. }
    set (PX' := (2 ^ last_place x)%Q) in *. set (PY' := (2 ^ last_place y)%Q) in *.
    set (kx := inject_Z _) in *. set (ky := inject_Z _) in *.
    change (2 ^ 53)%Q with (9007199254740992 # 1)%Q in *.
    change (2 ^ 52)%Q with (4503599627370496 # 1)%Q in *.
    nra.
  - rewrite E in *.
    set (P := (2 ^ last_place y)%Q) in *.
    assert (Hd : (x / P <= y / P)%Q).
    { apply Qle_shift_div_l; [lra|].
      assert ((x / P * P == x)%Q) as -> by (field; lra). lra. }
    apply round_half_even_mono in Hd. rewrite Zle_Qle in Hd.
    nra.
  - exfalso.
    assert (HP : (2 * 2 ^ last_place y <= 2 ^ last_place x)%Q).
    { rewrite <- pow2_succ. apply Qpower_le_compat_l; [lia | lra]. }
    set (PX' := (2 ^ last_place x)%Q) in *. set (PY' := (2 ^ last_place y)%Q) in *.
    assert (Hx' : (x == x / PX' * PX')%Q) by (field; lra).
    assert (Hy' : (y == y / PY' * PY')%Q) by (field; lra).
    set (a := (x / PX')%Q) in *. set (b := (y / PY')%Q) in *.
    change (2 ^ 53)%Q with (9007199254740992 # 1)%Q in *.
    change (2 ^ 52)%Q with (4503599627370496 # 1)%Q in *.
    nra.
Qed.

Lemma fl_pos x : (0 < x)%Q -> fl x = round_pos x.
Proof.
  destruct x as [[|n|n] d]; unfold Qlt; simpl; intros H; try lia. reflexivity.
Qed.

Lemma fl_neg x : (x < 0)%Q -> fl x = (- round_pos (- x))%Q.
Proof.
  destruct x as [[|n|n] d]; unfold Qlt; simpl; intros H; try lia. reflexivity.
Qed.

Lemma fl_zero x : (x == 0)%Q -> fl x = 0%Q.
Proof.
  destruct x as [[|n|n] d]; unfold Qeq; simpl; intros H; try lia. reflexivity.
Qed.

Lemma fl_near x :
  (0 < x)%Q ->
  (x * (1 - half_ulp) <= fl x /\ fl x <= x * (1 + half_ulp))%Q.
Proof. intros Hx. rewrite (fl_pos x Hx). by apply round_pos_near. Qed.

Lemma fl_positive x : (0 < x)%Q -> (0 < fl x)%Q.
Proof.
  intros Hx. destruct (fl_near x Hx) as [H _]. unfold half_ulp in H. nra.
Qed.

Lemma fl_nonneg x : (0 <= x)%Q -> (0 <= fl x)%Q.
Proof.
  intros Hx. destruct (Qlt_le_dec 0 x) as [H|H].
  - apply Qlt_le_weak. by apply fl_positive.
  - rewrite (fl_zero x) by lra. lra.
Qed.

Lemma fl_nonpos x : (x <= 0)%Q -> (fl x <= 0)%Q.
Proof.
  intros Hx. destruct (Qlt_le_dec x 0) as [H|H].
  - rewrite (fl_neg x H).
    assert (0 < round_pos (- x))%Q; [|lra].
    rewrite <- fl_pos by lra. apply fl_positive. lra.
  - rewrite (fl_zero x) by lra. lra.
Qed.

Lemma fl_is_zero x : (fl x == 0)%Q <-> (x == 0)%Q.
Proof.
  split.
  - intros H. destruct (Qlt_le_dec 0 x) as [Hp|Hp].
    { pose proof (fl_positive x Hp). lra. }
    destruct (Qlt_le_dec x 0) as [Hn|Hn]; [|lra].
    rewrite (fl_neg x Hn) in H.
    assert (0 < round_pos (- x))%Q; [|lra].
    rewrite <- fl_pos by lra. apply fl_positive. lra.
  - intros H. by rewrite (fl_zero x H).
Qed.

Lemma fl_mono x y : (x <= y)%Q -> (fl x <= fl y)%Q.
Proof.
  intros Hxy. destruct (Qlt_le_dec 0 x) as [Hx|Hx].
  - rewrite (fl_pos x Hx), (fl_pos y) by lra. by apply round_pos_mono.
  - pose proof (fl_nonpos x Hx) as Hfx.
    destruct (Qlt_le_dec 0 y) as [Hy|Hy].
    + pose proof (fl_positive y Hy). lra.
    + destruct (Qlt_le_dec y 0) as [Hy'|Hy'].
      * rewrite (fl_neg x), (fl_neg y) by lra.
        assert (round_pos (- y) <= round_pos (- x))%Q; [|lra].
        apply round_pos_mono; lra.
      * rewrite (fl_zero y) by lra. exact Hfx.
Qed.

Lemma int_of_floor q : (0 <= q)%Q -> int_of q = Qfloor q.
Proof.
  destruct q as [n d]. unfold Qle, int_of, Qfloor. simpl. intros H.
  apply Z.quot_div_nonneg; lia.
Qed.

Lemma int_of_nonpos q : (q <= 0)%Q -> int_of q <= 0.
Proof.
  destruct q as [n d]. unfold Qle, int_of. simpl. intros H.
  assert (Hn : n <= 0) by lia.
  replace n with (- (- n)) by lia. rewrite Z.quot_opp_l by lia.
  pose proof (Z.quot_pos (- n) (Z.pos d)). lia.
Qed.

(** The quotient of the bitrate rule, [N / (ms / 1000)], goes through
    three roundings.  For the bitrates in range it stays within one of
    the exact quotient. *)
Lemma quotient_parts N ms :
  0 < N -> 0 < ms ->
  let x := (inject_Z ms / inject_Z 1000)%Q in
  let D := fl x in
  let Nf := fl (inject_Z N) in
  let y := (Nf / D)%Q in
  (0 < inject_Z ms /\ 0 < inject_Z N /\ 0 < D /\ 0 < Nf /\ 0 < y
   /\ x * 1000 == inject_Z ms
   /\ x * (1 - half_ulp) <= D /\ D <= x * (1 + half_ulp)
   /\ inject_Z N * (1 - half_ulp) <= Nf
   /\ Nf <= inject_Z N * (1 + half_ulp)
   /\ y * D == Nf
   /\ y * (1 - half_ulp) <= float_quotient N ms
   /\ float_quotient N ms <= y * (1 + half_ulp))%Q.
Proof.
  intros HN Hms x D Nf y.
  assert (HM : (0 < inject_Z ms)%Q).
  { change 0%Q with (inject_Z 0). by rewrite <- Zlt_Qlt. }
  assert (HNq : (0 < inject_Z N)%Q).
  { change 0%Q with (inject_Z 0). by rewrite <- Zlt_Qlt. }
  assert (Hx : (0 < x)%Q).
  { unfold x. apply Qlt_shift_div_l; [reflexivity | lra]. }
  assert (Hx1000 : (x * 1000 == inject_Z ms)%Q).
  { unfold x. change (inject_Z 1000) with 1000%Q. field. }
  pose proof (fl_positive x Hx) as HD. fold D in HD.
  pose proof (fl_positive _ HNq) as HNf. fold Nf in HNf.
  destruct (fl_near x Hx) as [D1 D2]. fold D in D1, D2.
  destruct (fl_near _ HNq) as [N1 N2]. fold Nf in N1, N2.
  assert (Hy : (0 < y)%Q).
  { unfold y. apply Qlt_shift_div_l; lra. }
  assert (HyD : (y * D == Nf)%Q).
  { unfold y. field. lra. }
  destruct (fl_near y Hy) as [Q1 Q2].
  repeat split; try assumption.
Qed.

Ltac split_quotient N ms HN Hms :=
  let H := fresh in
  pose proof (quotient_parts N ms HN Hms) as H; cbv zeta in H;
  set (x := (inject_Z ms / inject_Z 1000)%Q) in *;
  set (D := fl x) in *; set (Nf := fl (inject_Z N)) in *;
  set (y := (Nf / D)%Q) in *;
  destruct H
    as (HM & HNq & HD & HNf & Hy & Hx & D1 & D2 & N1 & N2 & HyD & Q1 & Q2).

Lemma float_quotient_below N ms k :
  0 < N -> 0 < ms < 2 ^ 43 -> k <= 193 -> N * 1000 < k * ms ->
  (float_quotient N ms < inject_Z k)%Q.
Proof.
  intros HN [Hms Hbound] Hk Hlt.
  split_quotient N ms HN Hms.
  assert (Hint : (inject_Z N * 1000 + 1 <= inject_Z k * inject_Z ms)%Q).
  { change 1000%Q with (inject_Z 1000). change 1%Q with (inject_Z 1).
    rewrite <- !inject_Z_mult, <- inject_Z_plus, <- Zle_Qle. lia. }
  assert (HMb : (inject_Z ms <= 8796093022208)%Q).
  { change 8796093022208%Q with (inject_Z (2 ^ 43)). rewrite <- Zle_Qle. lia. }
  assert (Hkb : (inject_Z k <= 193)%Q).
  { change 193%Q with (inject_Z 193). by rewrite <- Zle_Qle. }
  set (q := float_quotient N ms) in *.
  set (K := inject_Z k) in *. set (M := inject_Z ms) in *.
  set (n := inject_Z N) in *.
  unfold half_ulp in *.
  destruct (Qlt_le_dec q K) as [|Hge]; [assumption|exfalso].
  assert (S1 : (y * x * (1 - (1 # 9007199254740992))
                <= n * (1 + (1 # 9007199254740992)))%Q).
  { clear - D1 N2 HyD Hy. nra. }
  assert (S2 : (y * M * (1 - (1 # 9007199254740992))
                <= 1000 * n * (1 + (1 # 9007199254740992)))%Q).
  { clear - S1 Hx. nra. }
  assert (S3 : (K <= y * (1 + (1 # 9007199254740992)))%Q) by lra.
  assert (S4 : (K * M * (1 - (1 # 9007199254740992))
                <= 1000 * n * (1 + (1 # 9007199254740992))
                   * (1 + (1 # 9007199254740992)))%Q).
  { clear - S2 S3 HM.
    assert (K * (M * (1 - (1 # 9007199254740992)))
            <= y * (1 + (1 # 9007199254740992))
               * (M * (1 - (1 # 9007199254740992))))%Q.
    { apply Qmult_le_compat_r; [exact S3 | lra]. }
    lra. }
  assert (S5 : (K * M <= 193 * 8796093022208)%Q).
  { clear - Hkb HMb HM Hint HNq.
    assert (K * M <= 193 * M)%Q by (apply Qmult_le_compat_r; lra).
    lra. }
  lra.
Qed.

Lemma float_quotient_above N ms k :
  0 < N -> 0 < ms -> 1 <= k <= 193 -> k * ms <= N * 1000 ->
  (inject_Z k - 1 <= float_quotient N ms)%Q.
Proof.
  intros HN Hms Hk Hle.
  split_quotient N ms HN Hms.
  assert (Hint : (inject_Z k * inject_Z ms <= inject_Z N * 1000)%Q).
  { change 1000%Q with (inject_Z 1000).
    rewrite <- !inject_Z_mult, <- Zle_Qle. lia. }
  assert (Hkb : (1 <= inject_Z k /\ inject_Z k <= 193)%Q).
  { change 193%Q with (inject_Z 193). change 1%Q with (inject_Z 1).
    rewrite <- !Zle_Qle. lia. }
  set (q := float_quotient N ms) in *.
  set (K := inject_Z k) in *. set (M := inject_Z ms) in *.
  set (n := inject_Z N) in *.
  unfold half_ulp in *.
  assert (S1 : (n * (1 - (1 # 9007199254740992))
                <= y * x * (1 + (1 # 9007199254740992)))%Q).
  { clear - D2 N1 HyD Hy. nra. }
  assert (S2 : (1000 * n * (1 - (1 # 9007199254740992))
                <= y * M * (1 + (1 # 9007199254740992)))%Q).
  { clear - S1 Hx. nra. }
  assert (S3 : (K * M * (1 - (1 # 9007199254740992))
                <= y * M * (1 + (1 # 9007199254740992)))%Q) by lra.
  assert (S4 : (K * (1 - (1 # 9007199254740992))
                <= y * (1 + (1 # 9007199254740992)))%Q).
  { clear - S3 HM. nra. }
  lra.
Qed.

(** The bitrate of the program is the exact one or one less. *)
Lemma float_bitrate_near N ms :
  0 < ms < 2 ^ 43 ->
  let b := clamp 32 192 (int_of (float_quotient N ms)) in
  let s := clamp 32 192 (N * 1000 / ms) in
  b <= s <= b + 1.
Proof.
  intros [Hms Hbound]. cbv zeta. unfold clamp.
  destruct (Z_lt_le_dec 0 N) as [HN|HN].
  - assert (Hq : (0 <= float_quotient N ms)%Q).
    { split_quotient N ms HN Hms. unfold half_ulp in Q1. clear - Hy Q1. nra. }
    rewrite (int_of_floor _ Hq).
    pose proof (Z.mul_div_le (N * 1000) ms Hms) as Hs1.
    pose proof (Z.mul_succ_div_gt (N * 1000) ms Hms) as Hs2.
    assert (Hs0 : 0 <= N * 1000 / ms) by (apply Z.div_pos; lia).
    set (s := N * 1000 / ms) in *.
    split.
    + destruct (Z_lt_le_dec s 192) as [Hlt|Hge]; [|lia].
      assert (Hb : (float_quotient N ms < inject_Z (s + 1))%Q).
      { apply float_quotient_below; try lia. }
      assert (Qfloor (float_quotient N ms) < s + 1); [|lia].
      rewrite Zlt_Qlt. eapply Qle_lt_trans; [apply Qfloor_le | exact Hb].
    + destruct (Z_lt_le_dec s 1) as [H0|H1]; [lia|].
      assert (Ha : (inject_Z (Z.min s 193) - 1 <= float_quotient N ms)%Q).
      { apply float_quotient_above; try lia. nia. }
      assert (Z.min s 193 - 1 <= Qfloor (float_quotient N ms)); [|lia].
      rewrite <- (Qfloor_Z (Z.min s 193 - 1)). apply Qfloor_resp_le.
      unfold Z.sub. rewrite inject_Z_plus. exact Ha.
  - assert (Hq : (float_quotient N ms <= 0)%Q).
    { unfold float_quotient. apply fl_nonpos.
      assert (Hn : (fl (inject_Z N) <= 0)%Q).
      { apply fl_nonpos. change 0%Q with (inject_Z 0). by rewrite <- Zle_Qle. }
      assert (Hd : (0 < fl (inject_Z ms / inject_Z 1000))%Q).
      { apply fl_positive. apply Qlt_shift_div_l; [reflexivity|].
        rewrite Qmult_0_l. change 0%Q with (inject_Z 0). by rewrite <- Zlt_Qlt. }
      apply Qle_shift_div_r; [exact Hd | lra]. }
    pose proof (int_of_nonpos _ Hq).
    assert (N * 1000 / ms <= 0); [|lia].
    apply Z.div_le_upper_bound; lia.
Qed.

(** ** Bitrate selection *)

(** Truncation and floor agree once clamped to [32, 192]: they only
    differ on negative quotients, which both clamp to 32. *)
Lemma clamp_int_of_floor q :
  Z.max 32 (Z.min 192 (int_of q)) = clamp 32 192 (Qfloor q).
Proof.
  destruct q as [n d]. unfold int_of, clamp, Qfloor. simpl.
  destruct (Z_le_gt_dec 0 n) as [Hn|Hn].
  - rewrite Z.quot_div_nonneg by lia. reflexivity.
  - assert (n ÷ Z.pos d <= 0).
    { replace n with (- (- n)) by lia.
      rewrite Z.quot_opp_l by lia.
      pose proof (Z.quot_pos (- n) (Z.pos d)). lia. }
    assert (n / Z.pos d < 0) by (apply Z.div_lt_upper_bound; lia).
    lia.
Qed.

(** The rounded duration is zero only for an audio of length zero. *)
Lemma duration_zero ms :
  Qeq_bool (fl (inject_Z ms / inject_Z 1000)) 0 = true <-> ms = 0.
Proof.
  rewrite Qeq_bool_iff, fl_is_zero.
  unfold Qeq, Qdiv, Qmult, Qinv, inject_Z. simpl. lia.
Qed.

Lemma chosen_bitrate_defined c m :
  fits c m = true \/ wav_ms c <> 0 ->
  chosen_bitrate c m =
  Some (if fits c m then 192
        else clamp 32 192 (Qfloor (float_quotient (m * 8192) (wav_ms c)))).
Proof.
  intros H. unfold chosen_bitrate, fits in *.
  destruct (Qle_bool _ _); [reflexivity|].
  destruct (Qeq_bool _ _) eqn:Hz.
  - apply duration_zero in Hz. destruct H; [discriminate | contradiction].
  - f_equal. apply clamp_int_of_floor.
Qed.

(** The floor of the exact quotient [N / (ms / 1000)]. *)
Lemma exact_quotient_floor N ms :
  0 < ms ->
  Qfloor (inject_Z N / (inject_Z ms / inject_Z 1000)) = N * 1000 / ms.
Proof.
  intros Hms. destruct ms as [|p|p]; try lia.
  unfold Qfloor, Qdiv, Qmult, Qinv, inject_Z. simpl.
  f_equal; lia.
Qed.

(** Above the limit and with a positive duration, the rule of the
    specification is the integer quotient of [max_size_mb * 8192 * 1000]
    by the duration in milliseconds, clamped. *)
Lemma spec_bitrate_over size ms m :
  0 < ms -> m * (1024 * 1024) < size ->
  spec_bitrate size ms m = clamp 32 192 (m * 8192 * 1000 / ms).
Proof.
  intros Hms Hsize. unfold spec_bitrate. cbv zeta.
  assert (Qle_bool (inject_Z size / inject_Z (1024 * 1024)) (inject_Z m) = false)
    as ->.
  { apply not_true_is_false. rewrite Qle_bool_iff.
    unfold Qle, Qdiv, Qmult, Qinv, inject_Z. simpl. lia. }
  f_equal. by apply exact_quotient_floor.
Qed.

(** The three cases the specification lists for a 15 MB limit: 1000 s
    gives 122 kbps, 10 s clamps to 192 and 100000 s clamps to 32. *)
Example spec_bitrate_examples :
  spec_bitrate (200 * 1024 * 1024) 1000000 15 = 122
  /\ spec_bitrate (200 * 1024 * 1024) 10000 15 = 192
  /\ spec_bitrate (200 * 1024 * 1024) 100000000 15 = 32
  /\ spec_bitrate (5 * 1024 * 1024) 30000 15 = 192.
Proof. repeat split; vm_compute; reflexivity. Qed.

(** C2, as stated, fails.  With a limit of 7 MB and a 200 MB intermediate
    of 573.44 s the exact quotient [7 * 8192 / 573.44] is 100, but the
    double nearest to 573.44 lies above it, the quotient of the doubles
    rounds to 99.99999999999999 and the encoder is called with 99 kbps,
    not with [clamp(32, 192, floor(max_size_mb * 8192 / D)) = 100]. *)
Lemma C2_exact_floor_counterexample :
  let c := Samples.lecture in
  let D := (inject_Z (wav_ms c) / inject_Z 1000)%Q in
  fits c 7 = false
  /\ clamp 32 192 (Qfloor (inject_Z (7 * 8192) / D)) = 100
  /\ spec_bitrate (wav_bytes c) (wav_ms c) 7 = 100
  /\ (exists r w',
        video_to_audio (Samples.all c) "videos/clip.mp4" 7 Samples.fresh
        = (r, w')
        /\ exported (trace w') = [("output/audio/clip.mp3", 99)])
  /\ ~ (exists r w' b,
        video_to_audio (Samples.all c) "videos/clip.mp4" 7 Samples.fresh
        = (r, w')
        /\ exported (trace w') = [("output/audio/clip.mp3", b)]
        /\ b = clamp 32 192 (Qfloor (inject_Z (7 * 8192) / D))).
Proof.
  cbv zeta.
  set (run := video_to_audio (Samples.all Samples.lecture) "videos/clip.mp4"
                7 Samples.fresh).
  assert (Hrun : exported (trace run.2) = [("output/audio/clip.mp3", 99)])
    by (vm_compute; reflexivity).
  split; [vm_compute; reflexivity|].
  split; [vm_compute; reflexivity|].
  split; [vm_compute; reflexivity|].
  split.
  - exists run.1, run.2. split; [by destruct run | exact Hrun].
  - intros (r & w' & b & Hr & He & Hb).
    rewrite Hr in Hrun. cbn [snd] in Hrun.
    rewrite Hrun in He. injection He as <-.
    vm_compute in Hb. discriminate Hb.
Qed.

(** C2, amended.  When the final file does not exist yet and the
    transcode gets to the encoder, the encoder is called once, on the
    final path: with 192 kbps if the measured size of the intermediate is
    at most [max_size_mb], and otherwise with
    [clamp(32, 192, floor(q))], where [q] is [max_size_mb * 8192 / D] as
    computed in double precision.  For a duration under [2^43] ms that
    bitrate is [clamp(32, 192, floor(max_size_mb * 8192 / D))] of the
    exact quotient or one less, never more. *)
Theorem C2_bitrate_selection media v m w :
  ensure_ok w ->
  final_audio_of v ∉ files w ->
  extracts (media v) = true ->
  wav_loads (media v) = true ->
  fits (media v) m = true \/ wav_ms (media v) <> 0 ->
  let c := media v in
  let D := (inject_Z (wav_ms c) / inject_Z 1000)%Q in
  exists r w' b,
    video_to_audio media v m w = (r, w')
    /\ exported (trace w') = (exported (trace w) ++ [(final_audio_of v, b)])%list
    /\ (fits c m = true -> b = 192)
    /\ (fits c m = false ->
        b = clamp 32 192 (Qfloor (float_quotient (m * 8192) (wav_ms c))))
    /\ (fits c m = false -> 0 < wav_ms c < 2 ^ 43 ->
        let ideal := clamp 32 192 (Qfloor (inject_Z (m * 8192) / D)) in
        ideal - 1 <= b <= ideal).
Proof.
  intros Hok Hc He Hl Hd. cbv zeta.
  rewrite (video_to_audio_run _ _ _ _ Hok). cbv zeta.
  rewrite bool_decide_eq_false_2 by done.
  rewrite extract_audio_run. cbv zeta.
  pose proof (chosen_bitrate_defined _ _ Hd) as Hb.
  set (b := if fits (media v) m then 192
            else clamp 32 192
                   (Qfloor (float_quotient (m * 8192) (wav_ms (media v))))) in *.
  assert (Hbranch :
    (fits (media v) m = true -> b = 192) /\
    (fits (media v) m = false ->
     b = clamp 32 192 (Qfloor (float_quotient (m * 8192) (wav_ms (media v))))) /\
    (fits (media v) m = false -> 0 < wav_ms (media v) < 2 ^ 43 ->
     clamp 32 192 (Qfloor (inject_Z (m * 8192)
                           / (inject_Z (wav_ms (media v)) / inject_Z 1000))) - 1
     <= b <=
     clamp 32 192 (Qfloor (inject_Z (m * 8192)
                           / (inject_Z (wav_ms (media v)) / inject_Z 1000))))).
  { subst b. split; [by intros ->|]. split; [by intros ->|].
    intros -> Hms. rewrite exact_quotient_floor by lia.
    rewrite <- clamp_int_of_floor.
    pose proof (float_bitrate_near (m * 8192) _ Hms) as Hnear.
    cbv zeta in Hnear. unfold clamp in *. lia. }
  clearbody b.
  unfold extracts in He.
  apply andb_true_iff in He as [He Hcl]. apply andb_true_iff in He as [He Hwr].
  apply andb_true_iff in He as [Ho Ha].
  rewrite Ho, Ha, Hcl. simpl negb. cbv iota.
  destruct (write (media v)); try (simpl in Hwr; discriminate Hwr). cbv iota.
  assert (temp_audio_of v ∈ files (log (touch (temp_audio_of v) (with_output_dirs w))
              [CallOpen v; CallWrite (temp_audio_of v); CallClose v]))
    as Htemp by in_files.
  rewrite (encode_audio_run media _ _ _ _ _ Htemp). cbv zeta.
  rewrite Hl, Hb. simpl negb. cbv iota.
  destruct (export (media v)); do 3 eexists;
    (split; [reflexivity|]); simpl trace;
    (split; [unfold exported; rewrite !omap_app; simpl; rewrite app_nil_r;
             reflexivity|]);
    exact Hbranch.
Qed.

Lemma C2_bitrate_selection_witness :
  exists r w' b,
    video_to_audio (Samples.all Samples.healthy) "videos/clip.mp4" 15
      Samples.fresh = (r, w')
    /\ exported (trace w') = [("output/audio/clip.mp3", b)]
    /\ b = 122.
Proof.
  destruct (C2_bitrate_selection (Samples.all Samples.healthy)
              "videos/clip.mp4" 15 Samples.fresh)
    as (r & w' & b & Hrun & Hexp & _ & Hb & _).
  - vm_compute. repeat split; discriminate.
  - vm_compute. discriminate.
  - reflexivity.
  - reflexivity.
  - right. vm_compute. discriminate.
  - exists r, w', b. split; [exact Hrun|]. split.
    + rewrite Hexp. reflexivity.
    + rewrite Hb; [|reflexivity]. vm_compute. reflexivity.
Defined.

(** ** The batch driver *)

Section BatchFacts.
Variable media : string -> clip.

Lemma decoded_of_plan_subset cache vs x :
  x ∈ decoded_of (plan media cache vs) -> x ∈ vs.
Proof.
  revert cache. induction vs as [|v vs IH]; intros cache; simpl.
  - by intros ?%elem_of_nil.
  - unfold decoded_of. simpl. fold (decoded_of (plan media (cache_step media cache v) vs)).
    destruct (verdict_of media cache v); simpl.
    + intros H. right. by eapply IH.
    + intros [->|H]%elem_of_cons; [left | right; by eapply IH].
    + intros [->|H]%elem_of_cons; [left | right; by eapply IH].
Qed.

(** Without cache hits and with pairwise different output paths, the
    plan yields the output paths of the videos that transcode. *)
Lemma paths_of_plan_fresh vs : forall cache,
  NoDup (map final_audio_of vs) ->
  (forall v, v ∈ vs -> final_audio_of v ∉ cache) ->
  paths_of (plan media cache vs) =
  map final_audio_of (filter (fun v => transcodes (media v) 15 = true) vs).
Proof.
  induction vs as [|v vs IH]; intros cache Hnd Hfresh; [reflexivity|].
  simpl in Hnd. apply NoDup_cons in Hnd as [Hv Hnd].
  simpl. unfold paths_of. simpl. fold (paths_of (plan media (cache_step media cache v) vs)).
  assert (Hrest : forall u, u ∈ vs -> final_audio_of u ∉ cache_step media cache v).
  { intros u Hu. unfold cache_step. pose proof (Hfresh u (list_elem_of_further _ _ _ Hu)).
    destruct (leaves_final _ _); [|done].
    rewrite elem_of_union, elem_of_singleton. intros [E|?]; [|done].
    apply Hv. rewrite <- E. apply list_elem_of_In, in_map. by apply list_elem_of_In. }
  rewrite (IH _ Hnd Hrest).
  unfold verdict_of. rewrite bool_decide_eq_false_2 by (apply Hfresh; left).
  destruct (transcodes (media v) 15) eqn:Ht.
  - rewrite filter_cons_True by done. reflexivity.
  - rewrite filter_cons_False by congruence. reflexivity.
Qed.

End BatchFacts.

(** C4. In an existing directory the batch always runs to its end: every
    matching entry is handed to the transcoder in enumeration order,
    whatever happened to the entries before it, and the returned list has,
    in that order, the output path of each entry that was a cache hit or
    transcoded, and nothing for the entries that failed.  When no output
    exists beforehand and the output paths are pairwise different, this is
    the list of output paths of the videos that transcode. *)
Theorem C4_batch_resilience media listing d w :
  ensure_ok w ->
  d ∈ dirs w ->
  let videos := candidates listing d in
  exists w',
    process_videos_in_directory media listing d w =
      (Ok (paths_of (plan media (files w) videos)), w')
    /\ processing_of (trace w') =
       (processing_of (trace w)
        ++ filter (fun f => is_video f = true) (listing d))%list
    /\ (NoDup (map final_audio_of videos) ->
        (forall v, v ∈ videos -> final_audio_of v ∉ files w) ->
        paths_of (plan media (files w) videos) =
        map final_audio_of
          (filter (fun v => transcodes (media v) 15 = true) videos)).
Proof.
  intros Hok Hd. cbv zeta.
  unfold process_videos_in_directory, bind, isdir.
  rewrite bool_decide_eq_true_2 by done. simpl negb. cbv iota.
  destruct (for_each_entry_run media d (listing d) [] w (files w) Hok)
    as (w' & es & Hrun & Htr & Hproc & _ & _); [done|].
  exists w'. split; [exact Hrun|]. split.
  - rewrite Htr. unfold processing_of in *. by rewrite omap_app, Hproc.
  - apply paths_of_plan_fresh.
Qed.

(** The scenario of the specification: three valid videos and a corrupt
    one give three paths, in enumeration order. *)
Example batch_three_valid_one_corrupt :
  fst (process_videos_in_directory Samples.three_and_one
         Samples.four_entries "videos" Samples.with_videos) =
  Ok ["output/audio/a.mp3"; "output/audio/c.mp3"; "output/audio/d.mp3"].
Proof. vm_compute. reflexivity. Qed.

Lemma C4_batch_resilience_witness :
  exists w',
    process_videos_in_directory Samples.three_and_one Samples.four_entries
      "videos" Samples.with_videos =
      (Ok ["output/audio/a.mp3"; "output/audio/c.mp3"; "output/audio/d.mp3"],
       w')
    /\ processing_of (trace w') = ["a.mp4"; "b.mp4"; "c.avi"; "d.mkv"].
Proof.
  destruct (C4_batch_resilience Samples.three_and_one Samples.four_entries
              "videos" Samples.with_videos)
    as (w' & Hrun & Hproc & _).
  - vm_compute. repeat split; discriminate.
  - vm_compute. reflexivity.
  - exists w'. split; [exact Hrun | exact Hproc].
Defined.

(** ** Which entries are videos *)

Lemma endswith_lower_iff f ext :
  endswith (lower f) ext = true <-> ends_with_ci f ext.
Proof.
  unfold ends_with_ci. induction f as [|c r IH].
  - change (endswith (lower "") ext) with (String.eqb "" ext || false).
    rewrite orb_false_r, String.eqb_eq. split.
    + intros <-. by exists "", "".
    + intros (pre & suf & H & <-). destruct pre; [|discriminate H].
      rewrite append_nil in H. by subst suf.
  - change (endswith (lower (String c r)) ext)
      with (String.eqb (lower (String c r)) ext || endswith (lower r) ext).
    rewrite orb_true_iff, String.eqb_eq, IH. split.
    + intros [<- | (pre & suf & -> & <-)].
      * by exists "", (String c r).
      * by exists (String c pre), suf.
    + intros (pre & suf & H & <-). destruct pre as [|x pre].
      * rewrite append_nil in H. subst suf. by left.
      * rewrite append_cons in H. injection H as -> ->. right. by exists pre, suf.
Qed.

Lemma is_video_iff f : is_video f = true <-> video_name f.
Proof.
  unfold is_video, endswith_any, video_name, video_extensions. cbn [existsb].
  rewrite orb_false_r, !orb_true_iff, !endswith_lower_iff. split.
  - intros [H|[H|[H|H]]]; eexists; (split; [|exact H]);
      rewrite !elem_of_cons; auto.
  - intros (ext & Hin & H). rewrite !elem_of_cons, elem_of_nil in Hin.
    destruct Hin as [->|[->|[->|[->|[]]]]]; auto.
Qed.

(** Entries that do not match leave no mark: the loop does on a listing
    what it does on the matching entries alone. *)
Lemma for_each_entry_filter media d l : forall acc w,
  for_each_entry media d l acc w =
  for_each_entry media d (filter (fun f => is_video f = true) l) acc w.
Proof.
  induction l as [|f l IH]; intros acc w; [reflexivity|].
  destruct (is_video f) eqn:Hf.
  - rewrite filter_cons_True by done. simpl. rewrite Hf.
    unfold bind. destruct (print _ w) as [[[]|e] w0]; [|reflexivity].
    destruct (video_to_audio _ _ _ w0) as [[[p|]|e] w1]; [| |reflexivity].
    + destruct (truthy p); destruct (print _ w1) as [[[]|e] w2];
        try reflexivity; apply IH.
    + destruct (print _ w1) as [[[]|e] w2]; [apply IH | reflexivity].
  - rewrite filter_cons_False by congruence. simpl. rewrite Hf. apply IH.
Qed.

(** C6. In an existing directory the entries handed to the transcoder
    are, in enumeration order, exactly the entries of the listing whose
    name ends (up to case) in .mp4, .avi, .mov or .mkv; only such entries
    are ever opened, the listing is never descended into, and the other
    entries change nothing: the run is the run on the matching entries
    alone. *)
Theorem C6_extension_filter media listing d w :
  ensure_ok w ->
  d ∈ dirs w ->
  exists paths w' es,
    process_videos_in_directory media listing d w = (Ok paths, w')
    /\ trace w' = (trace w ++ es)%list
    /\ processing_of es = filter (fun f => is_video f = true) (listing d)
    /\ (forall f, f ∈ processing_of es <-> f ∈ listing d /\ video_name f)
    /\ (forall x, x ∈ opened es ->
                  exists f, x = join d f /\ f ∈ listing d /\ video_name f)
    /\ process_videos_in_directory media listing d w =
       process_videos_in_directory media
         (fun dir => filter (fun f => is_video f = true) (listing dir)) d w
    /\ (forall listing',
          listing' d = listing d ->
          process_videos_in_directory media listing' d w =
          process_videos_in_directory media listing d w).
Proof.
  intros Hok Hd.
  unfold process_videos_in_directory, bind, isdir.
  rewrite bool_decide_eq_true_2 by done. simpl negb. cbv iota.
  destruct (for_each_entry_run media d (listing d) [] w (files w) Hok)
    as (w' & es & Hrun & Htr & Hproc & Hopen & _); [done|].
  exists (paths_of (plan media (files w) (candidates listing d))), w', es.
  split; [exact Hrun|]. split; [exact Htr|]. split; [exact Hproc|].
  split; [|split; [|split]].
  - intros f. rewrite Hproc, list_elem_of_filter, is_video_iff. tauto.
  - intros x Hx. rewrite Hopen in Hx. apply decoded_of_plan_subset in Hx.
    apply list_elem_of_In, in_map_iff in Hx as (f & <- & Hf).
    apply list_elem_of_In, list_elem_of_filter in Hf as [Hv Hf].
    exists f. split; [done|]. split; [done|]. by apply is_video_iff.
  - apply for_each_entry_filter.
  - intros listing' E. by rewrite E.
Qed.

(** The scenario of the specification: of [a.mp4], [b.txt] and [c.MKV],
    two are candidates. *)
Example filter_mixed_entries :
  filter (fun f => is_video f = true) ["a.mp4"; "b.txt"; "c.MKV"]
  = ["a.mp4"; "c.MKV"].
Proof. vm_compute. reflexivity. Qed.

Lemma C6_extension_filter_witness :
  exists paths w' es,
    process_videos_in_directory (Samples.all Samples.small)
      Samples.mixed_entries "videos" Samples.with_videos = (Ok paths, w')
    /\ trace w' = es
    /\ processing_of es = ["a.mp4"; "c.MKV"]
    /\ opened es = ["videos/a.mp4"; "videos/c.MKV"].
Proof.
  destruct (C6_extension_filter (Samples.all Samples.small)
              Samples.mixed_entries "videos" Samples.with_videos)
    as (paths & w' & es & Hrun & Htr & Hproc & _).
  - vm_compute. repeat split; discriminate.
  - vm_compute. reflexivity.
  - exists paths, w', es. split; [exact Hrun|]. split; [exact Htr|].
    split; [exact Hproc|].
    assert (trace (snd (process_videos_in_directory (Samples.all Samples.small)
      Samples.mixed_entries "videos" Samples.with_videos)) = es) as <-.
    { rewrite Hrun. exact Htr. }
    vm_compute. reflexivity.
Defined.

(** ** Output paths and base names *)

Lemma append_assoc s t u : (s ++ t) ++ u = s ++ t ++ u.
Proof.
  induction s as [|c s IH]; [reflexivity|].
  rewrite !append_cons. by rewrite IH.
Qed.

Lemma contains_append c s t :
  contains c (s ++ t) = contains c s || contains c t.
Proof.
  induction s as [|x s IH]; [reflexivity|].
  rewrite append_cons. simpl. by rewrite IH, orb_assoc.
Qed.

Lemma rfind_from_absent c s : forall i last,
  contains c s = false -> rfind_from c s i last = last.
Proof.
  induction s as [|x s IH]; intros i last H; [reflexivity|].
  simpl in *. apply orb_false_elim in H as [-> H]. by apply IH.
Qed.

Lemma rfind_from_last c s t : forall i last,
  contains c t = false ->
  rfind_from c (s ++ String c t) i last = i + Z.of_nat (String.length s).
Proof.
  induction s as [|x s IH]; intros i last H.
  - rewrite append_nil. simpl. rewrite Ascii.eqb_refl.
    rewrite rfind_from_absent by done. lia.
  - rewrite append_cons. simpl rfind_from. rewrite IH by done.
    simpl String.length. lia.
Qed.

Lemma drop_append s t : drop (String.length s) (s ++ t) = t.
Proof. induction s as [|x s IH]; [reflexivity|]. by rewrite append_cons. Qed.

Lemma take_append s t : take (String.length s) (s ++ t) = s.
Proof.
  induction s as [|x s IH]; [by destruct t|].
  rewrite append_cons. simpl. by rewrite IH.
Qed.

Lemma basename_plain n : contains sep n = false -> basename n = n.
Proof.
  intros H. unfold basename, rfind. by rewrite rfind_from_absent.
Qed.

Lemma basename_after_sep pre n :
  contains sep n = false -> basename (pre ++ String sep n) = n.
Proof.
  intros H. unfold basename, rfind, slice_from.
  rewrite rfind_from_last by done.
  replace (Z.to_nat (0 + Z.of_nat (String.length pre) + 1))
    with (S (String.length pre)) by lia.
  change (pre ++ String sep n) with (pre ++ String sep "" ++ n).
  rewrite <- append_assoc.
  replace (S (String.length pre)) with (String.length (pre ++ String sep "")).
  - apply drop_append.
  - clear. induction pre as [|x pre IH]; [reflexivity|].
    rewrite append_cons. simpl. by rewrite IH.
Qed.

Lemma endswith_iff s suf :
  endswith s suf = true <-> exists pre, s = pre ++ suf.
Proof.
  induction s as [|c r IH].
  - change (endswith "" suf) with (String.eqb "" suf || false).
    rewrite orb_false_r, String.eqb_eq. split.
    + intros <-. by exists "".
    + intros (pre & H). destruct pre; [|discriminate H]. by rewrite append_nil in H.
  - change (endswith (String c r) suf)
      with (String.eqb (String c r) suf || endswith r suf).
    rewrite orb_true_iff, String.eqb_eq, IH. split.
    + intros [<- | (pre & ->)]; [by exists "" | by exists (String c pre)].
    + intros (pre & H). destruct pre as [|x pre].
      * rewrite append_nil in H. by left.
      * rewrite append_cons in H. injection H as -> ->. right. by exists pre.
Qed.

(** [join] puts in front of a plain name a prefix that depends on the
    directory only and is empty or ends with a separator. *)
Lemma join_plain d :
  exists pre,
    (pre = "" \/ exists pre', pre = pre' ++ "/") /\
    forall n, contains sep n = false -> join d n = pre ++ n.
Proof.
  assert (Hs : forall n, contains sep n = false -> startswith n "/" = false).
  { intros [|x n] H; [reflexivity|]. unfold startswith. simpl in *.
    apply orb_false_elim in H as [H _]. unfold sep in H. by rewrite H. }
  unfold join. destruct (String.eqb d "") eqn:Hd.
  - apply String.eqb_eq in Hd as ->. exists "". split; [by left|].
    intros n Hn. by rewrite (Hs n Hn).
  - destruct (endswith d "/") eqn:He.
    + exists d. split.
      * right. by apply endswith_iff.
      * intros n Hn. by rewrite (Hs n Hn).
    + exists (d ++ "/"). split; [right; by exists d|].
      intros n Hn. rewrite (Hs n Hn). simpl. by rewrite append_assoc.
Qed.

Lemma basename_join d n : contains sep n = false -> basename (join d n) = n.
Proof.
  intros Hn. destruct (join_plain d) as (pre & [-> | (pre' & ->)] & Hj);
    rewrite (Hj n Hn).
  - rewrite append_nil. by apply basename_plain.
  - rewrite append_assoc. change ("/" ++ n) with (String sep n).
    by apply basename_after_sep.
Qed.

Lemma join_inj d n1 n2 :
  contains sep n1 = false -> contains sep n2 = false ->
  join d n1 = join d n2 -> n1 = n2.
Proof.
  intros H1 H2. destruct (join_plain d) as (pre & _ & Hj).
  rewrite (Hj n1 H1), (Hj n2 H2). apply String.app_inj.
Qed.

(** The root of [b ++ "." ++ e] is [b] when [b] is a plain name that is
    not made of dots only and [e] has no dot and no separator. *)
Lemma splitext_root_append b e :
  contains sep b = false -> all_eq extsep b = false ->
  contains sep e = false -> contains extsep e = false ->
  splitext_root (b ++ String extsep e) = b.
Proof.
  intros Hb Hdots He Hd. unfold splitext_root.
  assert (rfind sep (b ++ String extsep e) = -1) as ->.
  { unfold rfind. apply rfind_from_absent.
    rewrite contains_append, Hb. simpl. by rewrite He. }
  assert (rfind extsep (b ++ String extsep e) = Z.of_nat (String.length b)) as ->.
  { unfold rfind. by rewrite rfind_from_last. }
  unfold slice, slice_to, slice_from.
  replace (Z.to_nat (Z.of_nat (String.length b) - (-1 + 1)))
    with (String.length b) by lia.
  rewrite Nat2Z.id. simpl drop. rewrite take_append, Hdots.
  replace (-1 <? Z.of_nat (String.length b))%Z with true; [reflexivity|].
  symmetry. apply Z.ltb_lt. lia.
Qed.

Lemma lower_char_keeps_marks c x :
  x = sep \/ x = extsep ->
  Ascii.eqb (lower_char c) x = Ascii.eqb c x.
Proof.
  intros [-> | ->];
    destruct c as [[] [] [] [] [] [] [] []]; reflexivity.
Qed.

Lemma contains_lower x s :
  x = sep \/ x = extsep -> contains x (lower s) = contains x s.
Proof.
  intros Hx. induction s as [|c s IH]; [reflexivity|].
  simpl. by rewrite IH, lower_char_keeps_marks.
Qed.

(** A suffix that is an allowed extension up to case is a dot followed
    by characters that are neither dots nor separators. *)
Lemma extension_shape x :
  lower x ∈ video_extensions ->
  exists e, x = String extsep e
            /\ contains sep e = false /\ contains extsep e = false.
Proof.
  unfold video_extensions. rewrite !elem_of_cons, elem_of_nil.
  intros H. destruct x as [|c e].
  { simpl in H. destruct H as [H|[H|[H|[H|[]]]]]; discriminate H. }
  exists e. simpl in H.
  assert (lower_char c = extsep /\
          (lower e = "mp4" \/ lower e = "avi" \/ lower e = "mov" \/ lower e = "mkv"))
    as [Hc He].
  { destruct H as [H|[H|[H|[H|[]]]]]; injection H as -> ->; auto. }
  split; [|split].
  - f_equal. pose proof (lower_char_keeps_marks c extsep (or_intror eq_refl)) as E.
    rewrite Hc in E. simpl in E. symmetry in E. by apply Ascii.eqb_eq in E.
  - rewrite <- (contains_lower sep) by auto.
    destruct He as [->|[->|[->| ->]]]; reflexivity.
  - rewrite <- (contains_lower extsep) by auto.
    destruct He as [->|[->|[->| ->]]]; reflexivity.
Qed.

(** The output path of a video depends on its base name only. *)
Lemma final_audio_of_name d b x :
  contains sep b = false -> all_eq extsep b = false ->
  lower x ∈ video_extensions ->
  final_audio_of (join d (b ++ x)) = "output/audio/" ++ b ++ ".mp3".
Proof.
  intros Hb Hdots Hx.
  destruct (extension_shape x Hx) as (e & -> & He & Hd).
  rewrite final_audio_form. unfold base_name_of.
  rewrite basename_join.
  - by rewrite splitext_root_append.
  - rewrite contains_append, Hb. simpl. by rewrite He.
Qed.

(** ** Two videos with one base name *)

Section PlanFacts.
Variable media : string -> clip.

Lemma plan_app cache vs1 vs2 :
  plan media cache (vs1 ++ vs2) =
  (plan media cache vs1 ++ plan media (cache_after media cache vs1) vs2)%list.
Proof.
  revert cache. induction vs1 as [|v vs1 IH]; intros cache; [reflexivity|].
  simpl. by rewrite IH.
Qed.

Lemma cache_step_mono cache v p : p ∈ cache -> p ∈ cache_step media cache v.
Proof.
  unfold cache_step. destruct (leaves_final _ _); [|done].
  rewrite elem_of_union. by right.
Qed.

Lemma cache_after_mono vs : forall cache p,
  p ∈ cache -> p ∈ cache_after media cache vs.
Proof.
  induction vs as [|v vs IH]; intros cache p H; [done|].
  simpl. by apply IH, cache_step_mono.
Qed.

Lemma cache_after_other vs : forall cache p,
  p ∉ cache ->
  (forall u, u ∈ vs -> final_audio_of u <> p) ->
  p ∉ cache_after media cache vs.
Proof.
  induction vs as [|v vs IH]; intros cache p H Hvs; [done|].
  simpl. apply IH.
  - unfold cache_step. destruct (leaves_final _ _); [|done].
    rewrite elem_of_union, elem_of_singleton. intros [->|?]; [|done].
    apply (Hvs v); [left | done].
  - intros u Hu. apply Hvs. by right.
Qed.

(** What is in the cache is not decoded again. *)
Lemma cached_not_decoded vs : forall cache p x,
  p ∈ cache ->
  x ∈ decoded_of (plan media cache vs) -> final_audio_of x <> p.
Proof.
  induction vs as [|v vs IH]; intros cache p x Hp; simpl.
  { by intros ?%elem_of_nil. }
  unfold decoded_of. simpl.
  fold (decoded_of (plan media (cache_step media cache v) vs)).
  unfold verdict_of.
  destruct (bool_decide (final_audio_of v ∈ cache)) eqn:Hv; simpl.
  - intros Hx. eapply IH; [|exact Hx]. by apply cache_step_mono.
  - apply bool_decide_eq_false in Hv.
    assert (Hne : final_audio_of v <> p) by congruence.
    destruct (transcodes _ _); simpl;
      (intros [->|Hx]%elem_of_cons; [done|]);
      (eapply IH; [|exact Hx]); by apply cache_step_mono.
Qed.

End PlanFacts.

(** C10. The output path is made from the base name alone: two entries
    [b ++ x1] and [b ++ x2] of a directory, with different allowed
    extensions, have the same final path [output/audio/b.mp3].  When that
    file does not exist yet, the first of the two is the first entry with
    that output path and it transcodes, then the second one is never
    opened (it is a cache hit) and the returned list has the path
    twice. *)
Theorem C10_same_base_name media listing d w b x1 x2 l1 l2 l3 :
  ensure_ok w ->
  d ∈ dirs w ->
  contains sep b = false ->
  all_eq extsep b = false ->
  lower x1 ∈ video_extensions ->
  lower x2 ∈ video_extensions ->
  x1 <> x2 ->
  listing d = (l1 ++ (b ++ x1)%string :: l2 ++ (b ++ x2)%string :: l3)%list ->
  let p := "output/audio/" ++ b ++ ".mp3" in
  let v1 := join d (b ++ x1) in
  let v2 := join d (b ++ x2) in
  p ∉ files w ->
  (forall f, f ∈ l1 -> is_video f = true -> final_audio_of (join d f) <> p) ->
  transcodes (media v1) 15 = true ->
  final_audio_of v1 = p /\ final_audio_of v2 = p /\
  exists paths w' es,
    process_videos_in_directory media listing d w = (Ok paths, w')
    /\ trace w' = (trace w ++ es)%list
    /\ (exists before between after,
          paths = (before ++ p :: between ++ p :: after)%list)
    /\ v1 ∈ opened es
    /\ (v2 ∉ opened es).
Proof.
  intros Hok Hd Hb Hdots Hx1 Hx2 Hne Hl p v1 v2 Hp Hfirst Ht.
  assert (Hf1 : final_audio_of v1 = p) by by apply final_audio_of_name.
  assert (Hf2 : final_audio_of v2 = p) by by apply final_audio_of_name.
  split; [done|]. split; [done|].
  assert (Hn : forall x, lower x ∈ video_extensions ->
                         contains sep (b ++ x) = false).
  { intros x Hx. destruct (extension_shape x Hx) as (e & -> & He & _).
    rewrite contains_append, Hb. simpl. by rewrite He. }
  assert (Hv : forall x, lower x ∈ video_extensions -> is_video (b ++ x) = true).
  { intros x Hx. apply is_video_iff. exists (lower x). split.
    - unfold video_extensions in Hx. exact Hx.
    - by exists b, x. }
  assert (Hv12 : v1 <> v2).
  { intros E. apply join_inj in E; [|by apply Hn..].
    apply String.app_inj in E. by apply Hne. }
  unfold process_videos_in_directory, bind, isdir.
  rewrite bool_decide_eq_true_2 by done. simpl negb. cbv iota.
  destruct (for_each_entry_run media d (listing d) [] w (files w) Hok)
    as (w' & es & Hrun & Htr & _ & Hopen & _); [done|].
  cbv zeta in Hrun, Hopen. rewrite Hl in Hrun, Hopen.
  rewrite filter_app, filter_cons_True in Hrun, Hopen by by apply Hv.
  rewrite filter_app, filter_cons_True in Hrun, Hopen by by apply Hv.
  rewrite map_app in Hrun, Hopen. simpl map in Hrun, Hopen.
  rewrite map_app in Hrun, Hopen. simpl map in Hrun, Hopen.
  fold v1 v2 in Hrun, Hopen.
  set (A := map (join d) (filter (fun f => is_video f = true) l1)) in *.
  set (B := map (join d) (filter (fun f => is_video f = true) l2)) in *.
  set (C := map (join d) (filter (fun f => is_video f = true) l3)) in *.
  rewrite plan_app in Hrun, Hopen. simpl plan in Hrun, Hopen.
  rewrite plan_app in Hrun, Hopen. simpl plan in Hrun, Hopen.
  set (cA := cache_after media (files w) A) in *.
  set (c1 := cache_step media cA v1) in *.
  set (cB := cache_after media c1 B) in *.
  set (c2 := cache_step media cB v2) in *.
  assert (HA : forall u, u ∈ A -> final_audio_of u <> p).
  { intros u Hu. apply list_elem_of_In, in_map_iff in Hu as (f & <- & Hf).
    apply list_elem_of_In, list_elem_of_filter in Hf as [Hvf Hf].
    by apply Hfirst. }
  assert (HpA : p ∉ cA) by by apply cache_after_other.
  assert (Hp1 : p ∈ c1).
  { unfold c1, cache_step. rewrite (transcodes_leaves_final _ _ Ht), Hf1.
    rewrite elem_of_union, elem_of_singleton. by left. }
  assert (HpB : p ∈ cB) by by apply cache_after_mono.
  assert (Hp2 : p ∈ c2) by by apply cache_step_mono.
  assert (Hverdict1 : verdict_of media cA v1 = Transcoded).
  { unfold verdict_of. rewrite Hf1, bool_decide_eq_false_2 by done. by rewrite Ht. }
  assert (Hverdict2 : verdict_of media cB v2 = Cached).
  { unfold verdict_of. by rewrite Hf2, bool_decide_eq_true_2. }
  rewrite Hverdict1, Hverdict2 in Hrun, Hopen.
  exists (paths_of (plan media (files w) A) ++ p ::
          paths_of (plan media c1 B) ++ p :: paths_of (plan media c2 C))%list,
         w', es.
  split.
  { cbn [negb]. cbv iota beta. rewrite Hl, Hrun. unfold paths_of. rewrite !omap_app. simpl.
    rewrite !omap_app. simpl. by rewrite Hf1, Hf2. }
  split; [exact Htr|]. split; [by eauto|].
  rewrite Hopen. unfold decoded_of. rewrite !omap_app. simpl.
  rewrite !omap_app. simpl.
  fold (decoded_of (plan media (files w) A)).
  fold (decoded_of (plan media c1 B)).
  fold (decoded_of (plan media c2 C)).
  split.
  - rewrite elem_of_app, elem_of_cons. right. by left.
  - rewrite elem_of_app, elem_of_cons, elem_of_app.
    intros [H|[H|[H|H]]].
    + apply decoded_of_plan_subset in H. by apply (HA v2).
    + by apply Hv12.
    + by apply (cached_not_decoded media B c1 p v2).
    + by apply (cached_not_decoded media C c2 p v2).
Qed.

(** The scenario of the claim: [a.mp4] and [a.mov] in one directory. *)
Example batch_twin_entries :
  fst (process_videos_in_directory (Samples.all Samples.small)
         Samples.twin_entries "videos" Samples.with_videos) =
  Ok ["output/audio/a.mp3"; "output/audio/a.mp3"].
Proof. vm_compute. reflexivity. Qed.

Lemma C10_same_base_name_witness :
  final_audio_of "videos/a.mp4" = "output/audio/a.mp3" /\
  final_audio_of "videos/a.mov" = "output/audio/a.mp3" /\
  exists paths w' es,
    process_videos_in_directory (Samples.all Samples.small)
      Samples.twin_entries "videos" Samples.with_videos = (Ok paths, w')
    /\ trace w' = es
    /\ (exists before between after,
          paths = (before ++ "output/audio/a.mp3" :: between
                   ++ "output/audio/a.mp3" :: after)%list)
    /\ "videos/a.mp4" ∈ opened es
    /\ ("videos/a.mov" ∉ opened es).
Proof.
  apply (C10_same_base_name (Samples.all Samples.small) Samples.twin_entries
           "videos" Samples.with_videos "a" ".mp4" ".mov"
           [] ["notes.txt"] []).
  - vm_compute. repeat split; discriminate.
  - vm_compute. reflexivity.
  - reflexivity.
  - reflexivity.
  - apply list_elem_of_In. simpl. auto.
  - apply list_elem_of_In. simpl. auto.
  - discriminate.
  - reflexivity.
  - vm_compute. discriminate.
  - intros f Hf. by apply elem_of_nil in Hf.
  - reflexivity.
Defined.


(** * Further properties of [video_processing.py] *)

(** ** Directory creation *)

Ltac sets :=
  repeat match goal with
         | |- _ /\ _ => split
         | |- _ ⊆ _ => let x := fresh "x" in intros x
         | |- _ = _ => reflexivity
         end;
  rewrite ?elem_of_difference, ?elem_of_union, ?elem_of_singleton;
  try tauto.

Lemma ensure_directories_frame w r w' :
  ensure_directories w = (r, w') ->
  files w' = files w /\ trace w' = trace w
  /\ dirs w ⊆ dirs w' /\ dirs w' ⊆ output_dirs ∪ dirs w.
Proof.
  unfold ensure_directories, makedirs.
  change (chain_from "" audio_dir) with ["output"; audio_dir].
  change (chain_from "" analysis_dir) with ["output"; analysis_dir].
  unfold mkdir_all, mkdir_exist_ok, ret, bind, output_dirs; simpl.
  destruct (bool_decide ("output" ∈ files w)) eqn:E1; simpl.
  { intros [= <- <-]. sets. }
  destruct (bool_decide (audio_dir ∈ files w)) eqn:E2; simpl.
  { intros [= <- <-]. simpl. sets. }
  rewrite ?E1; simpl.
  destruct (bool_decide (analysis_dir ∈ files w)) eqn:E3; simpl.
  { intros [= <- <-]. simpl. sets. }
  intros [= <- <-]. simpl. sets.
Qed.

Lemma ensure_run w :
  ensure_ok w ->
  ensure_directories w = (Ok (audio_dir, analysis_dir), with_output_dirs w).
Proof. exact (ensure_directories_run (Samples.all Samples.corrupt) w). Qed.

(** X1. [ensure_directories] returns the two directory names exactly when
    no regular file sits at [output], [output/audio] or [output/analysis];
    it then adds those three directories and nothing else.  Otherwise it
    raises [OSError].  In both cases it changes no file and prints
    nothing, and it never removes a directory. *)
Theorem X1_ensure_directories_outcome w :
  (ensure_ok w ->
   ensure_directories w =
     (Ok ("output/audio", "output/analysis"),
      World (files w) (output_dirs ∪ dirs w) (trace w))) /\
  (~ ensure_ok w ->
   exists w', ensure_directories w = (Raise OSError, w')) /\
  (forall r w',
     ensure_directories w = (r, w') ->
     files w' = files w /\ trace w' = trace w
     /\ dirs w ⊆ dirs w' /\ dirs w' ⊆ output_dirs ∪ dirs w).
Proof.
  split; [|split].
  - intros Hok. rewrite (ensure_run _ Hok). reflexivity.
  - apply ensure_directories_blocked.
  - apply ensure_directories_frame.
Qed.

Lemma X1_ensure_directories_outcome_witness :
  ensure_directories Samples.fresh =
    (Ok ("output/audio", "output/analysis"), World ∅ output_dirs [])
  /\ exists w', ensure_directories Samples.blocked = (Raise OSError, w').
Proof.
  destruct (X1_ensure_directories_outcome Samples.fresh) as (H1 & _ & _).
  destruct (X1_ensure_directories_outcome Samples.blocked) as (_ & H2 & _).
  split.
  - rewrite H1.
    + vm_compute. reflexivity.
    + vm_compute. repeat split; discriminate.
  - apply H2. intros (H & _). apply H. vm_compute. reflexivity.
Defined.

(** X2. [ensure_directories] is idempotent: after a call that succeeded,
    a second call succeeds as well and leaves the world as it is. *)
Theorem X2_ensure_directories_idempotent w names w1 :
  ensure_directories w = (Ok names, w1) ->
  ensure_directories w1 = (Ok names, w1).
Proof.
  intros Hrun.
  destruct (decide (ensure_ok w)) as [Hok|Hno].
  - rewrite (ensure_run _ Hok) in Hrun.
    injection Hrun as <- <-.
    assert (Hok1 : ensure_ok (with_output_dirs w)) by exact Hok.
    rewrite (ensure_run _ Hok1).
    unfold with_output_dirs. simpl. do 2 f_equal.
    apply set_eq. intros x. rewrite !elem_of_union. tauto.
  - destruct (ensure_directories_blocked w Hno) as (w' & Hw').
    rewrite Hw' in Hrun. discriminate Hrun.
Qed.

Lemma X2_ensure_directories_idempotent_witness :
  ensure_directories (World ∅ output_dirs []) =
    (Ok ("output/audio", "output/analysis"), World ∅ output_dirs []).
Proof.
  apply (X2_ensure_directories_idempotent Samples.fresh).
  vm_compute. reflexivity.
Defined.

(** ** What one call of the transcoder does to the world *)

Lemma chosen_bitrate_bounds c m b :
  chosen_bitrate c m = Some b -> 32 <= b <= 192.
Proof.
  unfold chosen_bitrate.
  destruct (Qle_bool _ _); [intros [= <-]; lia|].
  destruct (Qeq_bool _ _); [discriminate|].
  intros [= <-]. lia.
Qed.

Ltac effects_leaf :=
  do 3 eexists;
  split; [reflexivity|];
  split; [simpl; rewrite <- ?app_assoc; reflexivity|];
  split; [reflexivity|];
  split; [intros ? ? ?; in_files|];
  split; [first [left; reflexivity | right; reflexivity]|];
  split; [first [intros ?; discriminate | intros _; in_files]|];
  split; [intros ?; in_files|];
  first [ left; reflexivity
        | right; eexists; split; [reflexivity|first [assumption|reflexivity]] ].

Lemma video_to_audio_effects media v m w :
  ensure_ok w ->
  exists r w' es,
    video_to_audio media v m w = (Ok r, w')
    /\ trace w' = (trace w ++ es)%list
    /\ dirs w' = output_dirs ∪ dirs w
    /\ (forall p, p <> temp_audio_of v -> p <> final_audio_of v ->
                  (p ∈ files w' <-> p ∈ files w))
    /\ (r = None \/ r = Some (final_audio_of v))
    /\ (r = Some (final_audio_of v) -> final_audio_of v ∈ files w')
    /\ (final_audio_of v ∈ files w -> final_audio_of v ∈ files w')
    /\ (exported es = [] \/
        exists b, exported es = [(final_audio_of v, b)]
                  /\ chosen_bitrate (media v) m = Some b).
Proof.
  intros Hok. rewrite (video_to_audio_run _ _ _ _ Hok). cbv zeta.
  pose proof (final_not_temp v v) as Hft.
  destruct (bool_decide (final_audio_of v ∈ files w)) eqn:Hc.
  { apply bool_decide_eq_true in Hc. effects_leaf. }
  apply bool_decide_eq_false in Hc.
  rewrite extract_audio_run. cbv zeta.
  destruct (opens (media v)); simpl negb; cbv iota; [|effects_leaf].
  destruct (has_audio (media v)); simpl negb; cbv iota; [|effects_leaf].
  destruct (write (media v)); cbv iota; [|effects_leaf..].
  destruct (closes (media v)); cbv iota; [|effects_leaf].
  assert (temp_audio_of v ∈ files
            (log (touch (temp_audio_of v) (with_output_dirs w))
               [CallOpen v; CallWrite (temp_audio_of v); CallClose v]))
    as Htemp by in_files.
  rewrite (encode_audio_run media _ _ _ _ _ Htemp). cbv zeta.
  destruct (wav_loads (media v)); simpl negb; cbv iota; [|effects_leaf].
  destruct (chosen_bitrate (media v) m) as [b|] eqn:Hb; [|effects_leaf].
  destruct (export (media v)); effects_leaf.
Qed.

Lemma video_to_audio_files_frame media v m w r w' :
  video_to_audio media v m w = (r, w') ->
  (forall p, p <> temp_audio_of v -> p <> final_audio_of v ->
             (p ∈ files w' <-> p ∈ files w))
  /\ (final_audio_of v ∈ files w -> final_audio_of v ∈ files w')
  /\ dirs w ⊆ dirs w'
  /\ dirs w' ⊆ output_dirs ∪ dirs w.
Proof.
  intros Hrun. destruct (decide (ensure_ok w)) as [Hok|Hno].
  - destruct (video_to_audio_effects media v m w Hok)
      as (r0 & w0 & es & Hrun0 & _ & Hdirs & Hframe & _ & _ & Hkeep & _).
    rewrite Hrun in Hrun0. injection Hrun0 as -> ->.
    split; [exact Hframe|]. split; [exact Hkeep|].
    rewrite Hdirs. split; sets.
  - destruct (ensure_directories_blocked w Hno) as (w0 & Hw0).
    destruct (ensure_directories_frame _ _ _ Hw0) as (Hf & _ & Hd1 & Hd2).
    unfold video_to_audio in Hrun. unfold bind at 1 in Hrun.
    rewrite Hw0 in Hrun. injection Hrun as <- <-.
    rewrite Hf. split; [tauto|]. split; [tauto|].
    split; [exact Hd1 | exact Hd2].
Qed.

(** X3. Whatever happens in a call of [video_to_audio], also when it
    raises: the only files it can create or delete are its own
    intermediate and final path, it never deletes an existing final file,
    it never removes a directory and adds at most the three output
    directories, and what was printed before stays in place. *)
Theorem X3_video_to_audio_frame media v m w r w' :
  video_to_audio media v m w = (r, w') ->
  (forall p, p <> temp_audio_of v -> p <> final_audio_of v ->
             (p ∈ files w' <-> p ∈ files w))
  /\ (final_audio_of v ∈ files w -> final_audio_of v ∈ files w')
  /\ dirs w ⊆ dirs w'
  /\ dirs w' ⊆ output_dirs ∪ dirs w
  /\ exists es, trace w' = (trace w ++ es)%list.
Proof.
  intros Hrun.
  destruct (video_to_audio_files_frame _ _ _ _ _ _ Hrun)
    as (Hframe & Hkeep & Hd1 & Hd2).
  split; [exact Hframe|]. split; [exact Hkeep|].
  split; [exact Hd1|]. split; [exact Hd2|].
  destruct (decide (ensure_ok w)) as [Hok|Hno].
  - destruct (video_to_audio_effects media v m w Hok)
      as (r0 & w0 & es & Hrun0 & Htr & _).
    rewrite Hrun in Hrun0. injection Hrun0 as -> ->. by exists es.
  - destruct (ensure_directories_blocked w Hno) as (w0 & Hw0).
    destruct (ensure_directories_frame _ _ _ Hw0) as (_ & Ht & _).
    unfold video_to_audio in Hrun. unfold bind at 1 in Hrun.
    rewrite Hw0 in Hrun. injection Hrun as <- <-.
    exists []. by rewrite app_nil_r.
Qed.

Lemma X3_video_to_audio_frame_witness :
  "videos/clip.mp4" ∈
    files (snd (video_to_audio (Samples.all Samples.healthy) "videos/clip.mp4"
                  15 (World {["videos/clip.mp4"]} {["videos"]} [])))
  /\ "videos" ∈
    dirs (snd (video_to_audio (Samples.all Samples.healthy) "videos/clip.mp4"
                 15 (World {["videos/clip.mp4"]} {["videos"]} []))).
Proof.
  destruct (X3_video_to_audio_frame (Samples.all Samples.healthy)
              "videos/clip.mp4" 15 (World {["videos/clip.mp4"]} {["videos"]} [])
              _ _ (surjective_pairing _))
    as (Hframe & _ & Hdirs & _).
  split.
  - apply Hframe.
    + vm_compute. discriminate.
    + vm_compute. discriminate.
    + vm_compute. reflexivity.
  - apply Hdirs. vm_compute. reflexivity.
Defined.

(** X4. A call of [video_to_audio] that returns gives [None] or the final
    path; a returned path is [output/audio/<base>.mp3] for a [<base>]
    without separator, whatever the video path looks like, and the file
    exists when the call returns. *)
Theorem X4_returned_path_exists media v m w r w' :
  video_to_audio media v m w = (Ok r, w') ->
  (r = None \/ r = Some (final_audio_of v))
  /\ (forall p, r = Some p ->
         p ∈ files w'
         /\ exists base, contains sep base = false
                         /\ p = "output/audio/" ++ base ++ ".mp3").
Proof.
  intros Hrun. destruct (decide (ensure_ok w)) as [Hok|Hno].
  - destruct (video_to_audio_effects media v m w Hok)
      as (r0 & w0 & es & Hrun0 & _ & _ & _ & Hr & Hin & _).
    rewrite Hrun in Hrun0. injection Hrun0 as -> ->.
    split; [exact Hr|]. intros p Hp.
    destruct Hr as [->| ->]; [discriminate|]. injection Hp as <-.
    split; [by apply Hin|].
    exists (base_name_of v). split; [apply base_name_no_sep|].
    apply final_audio_form.
  - destruct (ensure_directories_blocked w Hno) as (w0 & Hw0).
    unfold video_to_audio in Hrun. unfold bind at 1 in Hrun.
    rewrite Hw0 in Hrun. discriminate Hrun.
Qed.

Lemma X4_returned_path_exists_witness :
  exists w',
    video_to_audio (Samples.all Samples.healthy) "../up/./clip.final.mp4" 15
      Samples.fresh = (Ok (Some "output/audio/clip.final.mp3"), w')
    /\ "output/audio/clip.final.mp3" ∈ files w'.
Proof.
  eexists. split; [vm_compute; reflexivity|].
  apply (X4_returned_path_exists (Samples.all Samples.healthy)
           "../up/./clip.final.mp4" 15 Samples.fresh
           (Some "output/audio/clip.final.mp3") _).
  - vm_compute. reflexivity.
  - reflexivity.
Defined.

(** ** Encoding *)

(** X5. A call of [video_to_audio] encodes at most once, always to its
    final path, and the bitrate it asks for lies between 32 and 192 kbps
    for every size limit, zero and negative ones included. *)
Theorem X5_one_export_in_range media v m w r w' :
  video_to_audio media v m w = (r, w') ->
  exists es,
    trace w' = (trace w ++ es)%list
    /\ (exported es = [] \/
        exists b, exported es = [(final_audio_of v, b)] /\ 32 <= b <= 192).
Proof.
  intros Hrun. destruct (decide (ensure_ok w)) as [Hok|Hno].
  - destruct (video_to_audio_effects media v m w Hok)
      as (r0 & w0 & es & Hrun0 & Htr & _ & _ & _ & _ & _ & Hexp).
    rewrite Hrun in Hrun0. injection Hrun0 as -> ->.
    exists es. split; [exact Htr|].
    destruct Hexp as [He | (b & He & Hb)]; [by left|].
    right. exists b. split; [exact He|]. by eapply chosen_bitrate_bounds.
  - destruct (ensure_directories_blocked w Hno) as (w0 & Hw0).
    destruct (ensure_directories_frame _ _ _ Hw0) as (_ & Ht & _).
    unfold video_to_audio in Hrun. unfold bind at 1 in Hrun.
    rewrite Hw0 in Hrun. injection Hrun as <- <-.
    exists []. rewrite app_nil_r. split; [exact Ht | by left].
Qed.

Lemma X5_one_export_in_range_witness :
  exists es,
    trace (snd (video_to_audio (Samples.all Samples.healthy) "videos/clip.mp4"
                  (-3) Samples.fresh)) = es
    /\ (exported es = [] \/
        exists b, exported es = [("output/audio/clip.mp3", b)]
                  /\ 32 <= b <= 192).
Proof.
  destruct (X5_one_export_in_range (Samples.all Samples.healthy)
              "videos/clip.mp4" (-3) Samples.fresh _ _ (surjective_pairing _))
    as (es & Htr & H).
  exists es. split; [exact Htr | exact H].
Defined.

(** X6. The cache check cannot tell a finished file from a broken one:
    when the encoder raises after it created the final file, the call
    returns [None] and leaves that file, and from then on every call for
    this video returns the path as a cache hit, without any codec call. *)
Theorem X6_failed_export_poisons_cache media v m w :
  ensure_ok w ->
  final_audio_of v ∉ files w ->
  reaches_export (media v) m = true ->
  export (media v) = FailsAfter ->
  exists w1,
    video_to_audio media v m w = (Ok None, w1)
    /\ final_audio_of v ∈ files w1
    /\ forall media',
         video_to_audio media' v m w1 =
           (Ok (Some (final_audio_of v)),
            World (files w1) (output_dirs ∪ dirs w1)
              (trace w1 ++ [Print (MsgExists v)])).
Proof.
  intros Hok Hc Hreach Hex.
  destruct (video_to_audio_summary media v m w Hok)
    as (w1 & es & Hrun & _ & _ & _ & _ & Hok1 & Hfiles).
  rewrite bool_decide_eq_false_2 in Hrun by done.
  unfold transcodes in Hrun. rewrite Hreach, Hex in Hrun. simpl in Hrun.
  assert (Hin : final_audio_of v ∈ files w1).
  { apply Hfiles. right. split; [done|].
    unfold leaves_final. by rewrite Hreach, Hex. }
  exists w1. split; [exact Hrun|]. split; [exact Hin|].
  intros media'. by rewrite cache_hit_run.
Qed.

Lemma X6_failed_export_poisons_cache_witness :
  exists w1,
    video_to_audio
      (Samples.all (Clip true true Written true true 1024 1000 FailsAfter))
      "videos/clip.mp4" 15 Samples.fresh = (Ok None, w1)
    /\ final_audio_of "videos/clip.mp4" ∈ files w1
    /\ forall media',
         video_to_audio media' "videos/clip.mp4" 15 w1 =
           (Ok (Some (final_audio_of "videos/clip.mp4")),
            World (files w1) (output_dirs ∪ dirs w1)
              (trace w1 ++ [Print (MsgExists "videos/clip.mp4")])).
Proof.
  apply (X6_failed_export_poisons_cache
           (Samples.all (Clip true true Written true true 1024 1000 FailsAfter))
           "videos/clip.mp4" 15 Samples.fresh).
  - vm_compute. repeat split; discriminate.
  - vm_compute. discriminate.
  - vm_compute. reflexivity.
  - reflexivity.
Defined.

(** X7. Once the WAV has been extracted and the video closed, the
    intermediate file is gone when the call returns, whether loading,
    the bitrate computation or the export failed or all went well, and
    also when a file of that name was there before the call. *)
Theorem X7_intermediate_removed_after_extraction media v m w :
  ensure_ok w ->
  final_audio_of v ∉ files w ->
  extracts (media v) = true ->
  exists r w',
    video_to_audio media v m w = (Ok r, w')
    /\ (temp_audio_of v ∉ files w')
    /\ CallWrite (temp_audio_of v) ∈ trace w'.
Proof.
  intros Hok Hc He. rewrite (video_to_audio_run _ _ _ _ Hok). cbv zeta.
  rewrite bool_decide_eq_false_2 by done.
  rewrite extract_audio_run. cbv zeta. unfold extracts in He.
  apply andb_true_iff in He as [He Hcl]. apply andb_true_iff in He as [He Hwr].
  apply andb_true_iff in He as [Ho Ha].
  rewrite Ho, Ha, Hcl. simpl negb. cbv iota.
  destruct (write (media v)); try (simpl in Hwr; discriminate Hwr). cbv iota.
  assert (temp_audio_of v ∈ files
            (log (touch (temp_audio_of v) (with_output_dirs w))
               [CallOpen v; CallWrite (temp_audio_of v); CallClose v]))
    as Htemp by in_files.
  rewrite (encode_audio_run media _ _ _ _ _ Htemp). cbv zeta.
  assert (Hlog : forall w0 es,
            CallWrite (temp_audio_of v)
            ∈ trace (log (log w0 [CallOpen v; CallWrite (temp_audio_of v);
                                  CallClose v]) es)).
  { intros w0 es. simpl. rewrite !elem_of_app, !elem_of_cons. tauto. }
  destruct (wav_loads (media v)); simpl negb; cbv iota.
  2:{ do 2 eexists. split; [reflexivity|]. split; [in_files | apply Hlog]. }
  destruct (chosen_bitrate (media v) m).
  2:{ do 2 eexists. split; [reflexivity|]. split; [in_files | apply Hlog]. }
  destruct (export (media v)); do 2 eexists;
    (split; [reflexivity|]); (split; [in_files | apply Hlog]).
Qed.

Lemma X7_intermediate_removed_after_extraction_witness :
  exists r w',
    video_to_audio (Samples.all Samples.healthy) "videos/clip.mp4" 15
      (World {["output/audio/clip_temp.wav"]} ∅ []) = (Ok r, w')
    /\ (temp_audio_of "videos/clip.mp4" ∉ files w')
    /\ CallWrite (temp_audio_of "videos/clip.mp4") ∈ trace w'.
Proof.
  apply (X7_intermediate_removed_after_extraction
           (Samples.all Samples.healthy) "videos/clip.mp4" 15
           (World {["output/audio/clip_temp.wav"]} ∅ [])).
  - vm_compute. repeat split; discriminate.
  - vm_compute. discriminate.
  - reflexivity.
Defined.

(** X8. An intermediate above the limit with an audio of length zero:
    the division by the duration raises, the second [except] turns it
    into [None], the encoder is never called, no final file appears and
    the intermediate is removed. *)
Theorem X8_zero_duration media v m w :
  ensure_ok w ->
  final_audio_of v ∉ files w ->
  extracts (media v) = true ->
  wav_loads (media v) = true ->
  fits (media v) m = false ->
  wav_ms (media v) = 0 ->
  exists w',
    video_to_audio media v m w = (Ok None, w')
    /\ trace w' =
       (trace w ++
        [CallOpen v; CallWrite (temp_audio_of v); CallClose v;
         CallLoad (temp_audio_of v);
         Print (MsgProcessError (temp_audio_of v) ZeroDivisionError)])%list
    /\ (temp_audio_of v ∉ files w')
    /\ (final_audio_of v ∉ files w').
Proof.
  intros Hok Hc He Hl Hfit Hms.
  pose proof (final_not_temp v v) as Hft.
  rewrite (video_to_audio_run _ _ _ _ Hok). cbv zeta.
  rewrite bool_decide_eq_false_2 by done.
  rewrite extract_audio_run. cbv zeta. unfold extracts in He.
  apply andb_true_iff in He as [He Hcl]. apply andb_true_iff in He as [He Hwr].
  apply andb_true_iff in He as [Ho Ha].
  rewrite Ho, Ha, Hcl. simpl negb. cbv iota.
  destruct (write (media v)); try (simpl in Hwr; discriminate Hwr). cbv iota.
  assert (temp_audio_of v ∈ files
            (log (touch (temp_audio_of v) (with_output_dirs w))
               [CallOpen v; CallWrite (temp_audio_of v); CallClose v]))
    as Htemp by in_files.
  rewrite (encode_audio_run media _ _ _ _ _ Htemp). cbv zeta.
  rewrite Hl. simpl negb. cbv iota.
  assert (chosen_bitrate (media v) m = None) as ->.
  { unfold chosen_bitrate. unfold fits in Hfit. rewrite Hfit, Hms. reflexivity. }
  eexists. split; [reflexivity|].
  split; [simpl; by rewrite <- app_assoc|].
  split; in_files.
Qed.

Lemma X8_zero_duration_witness :
  exists w',
    video_to_audio
      (Samples.all (Clip true true Written true true 44 0 Written))
      "videos/empty.mp4" 0 Samples.fresh = (Ok None, w')
    /\ trace w' =
       [CallOpen "videos/empty.mp4"; CallWrite "output/audio/empty_temp.wav";
        CallClose "videos/empty.mp4"; CallLoad "output/audio/empty_temp.wav";
        Print (MsgProcessError "output/audio/empty_temp.wav" ZeroDivisionError)]
    /\ (temp_audio_of "videos/empty.mp4" ∉ files w')
    /\ (final_audio_of "videos/empty.mp4" ∉ files w').
Proof.
  apply (X8_zero_duration
           (Samples.all (Clip true true Written true true 44 0 Written))
           "videos/empty.mp4" 0 Samples.fresh).
  - vm_compute. repeat split; discriminate.
  - vm_compute. discriminate.
  - reflexivity.
  - reflexivity.
  - reflexivity.
  - reflexivity.
Defined.

(** ** What the back-calculated bitrate guarantees *)

Lemma choose_bitrate_run audio m w :
  choose_bitrate audio (measured_mb audio) m w =
  (match chosen_bitrate audio m with
   | Some b => Ok b
   | None => Raise ZeroDivisionError
   end, w).
Proof.
  unfold choose_bitrate, chosen_bitrate, truediv, truediv_float, bind, ret,
    raise.
  change (Z.eqb 1000 0) with false. cbv iota.
  destruct (Qle_bool _ _); [reflexivity|].
  by destruct (Qeq_bool _ _).
Qed.

Lemma chosen_bitrate_over c m :
  fits c m = false -> 0 < wav_ms c ->
  chosen_bitrate c m =
  Some (clamp 32 192 (int_of (float_quotient (m * 8192) (wav_ms c)))).
Proof.
  intros Hfit Hms. unfold chosen_bitrate. unfold fits in Hfit. rewrite Hfit.
  destruct (Qeq_bool _ _) eqn:Hz; [|reflexivity].
  apply duration_zero in Hz. lia.
Qed.

(** The quotient in double precision does not decrease when the
    numerator grows and the duration shrinks. *)
Lemma float_quotient_mono N1 N2 ms1 ms2 :
  0 <= N2 <= N1 -> 0 < ms1 <= ms2 ->
  (0 <= float_quotient N2 ms2 <= float_quotient N1 ms1)%Q.
Proof.
  intros [HN2 HN] [Hms1 Hms]. unfold float_quotient.
  assert (Hd1 : (0 < fl (inject_Z ms1 / inject_Z 1000))%Q).
  { apply fl_positive. apply Qlt_shift_div_l; [reflexivity|].
    rewrite Qmult_0_l. change 0%Q with (inject_Z 0). by rewrite <- Zlt_Qlt. }
  assert (Hd : (fl (inject_Z ms1 / inject_Z 1000)
                <= fl (inject_Z ms2 / inject_Z 1000))%Q).
  { apply fl_mono. apply Qmult_le_compat_r; [by rewrite <- Zle_Qle | discriminate]. }
  assert (Hn2 : (0 <= fl (inject_Z N2))%Q).
  { apply fl_nonneg. change 0%Q with (inject_Z 0). by rewrite <- Zle_Qle. }
  assert (Hn : (fl (inject_Z N2) <= fl (inject_Z N1))%Q).
  { apply fl_mono. by rewrite <- Zle_Qle. }
  set (d1 := fl (inject_Z ms1 / inject_Z 1000)) in *.
  set (d2 := fl (inject_Z ms2 / inject_Z 1000)) in *.
  set (n1 := fl (inject_Z N1)) in *. set (n2 := fl (inject_Z N2)) in *.
  assert (Hq2 : (0 <= n2 / d2)%Q).
  { apply Qle_shift_div_l; lra. }
  split.
  - by apply fl_nonneg.
  - apply fl_mono.
    apply Qle_shift_div_l; [lra|].
    assert (Hq1 : (n2 / d2 * d2 == n2)%Q) by (field; lra).
    assert (n2 / d2 * d1 <= n2 / d2 * d2)%Q; [|lra].
    rewrite !(Qmult_comm (n2 / d2)). by apply Qmult_le_compat_r.
Qed.

(** X9. What [choose_bitrate] promises about the size: it changes
    nothing in the world; below the limit it answers 192; above the limit,
    whenever its answer is more than the floor of 32 kbps, bitrate times
    duration is at most [max_size_mb * 8192] (kilobits), so the nominal
    stream fits the limit.  At the floor of 32 nothing is promised.  The
    roundings of the quotient cannot spoil this for a duration under
    [2^43] ms, where it stays within one of the exact quotient. *)
Theorem X9_bitrate_fits_limit audio m w b w' :
  choose_bitrate audio (measured_mb audio) m w = (Ok b, w') ->
  0 <= wav_ms audio < 2 ^ 43 ->
  w' = w
  /\ (fits audio m = true -> b = 192)
  /\ (fits audio m = false -> 32 < b ->
      b * wav_ms audio <= m * 8192 * 1000).
Proof.
  rewrite choose_bitrate_run. intros Hrun Hms.
  destruct (chosen_bitrate audio m) as [b0|] eqn:Hb; [|discriminate Hrun].
  injection Hrun as -> ->. split; [reflexivity|]. split.
  - intros Hfit. unfold chosen_bitrate, fits in *. rewrite Hfit in Hb. congruence.
  - intros Hfit Hb32.
    assert (wav_ms audio <> 0).
    { intros Hz. unfold chosen_bitrate, fits in *. rewrite Hfit in Hb.
      apply duration_zero in Hz. rewrite Hz in Hb. discriminate Hb. }
    rewrite chosen_bitrate_over in Hb by (done || lia).
    injection Hb as <-.
    assert (Hms' : 0 < wav_ms audio < 2 ^ 43) by lia.
    pose proof (float_bitrate_near (m * 8192) _ Hms') as [Hnear _].
    set (b := clamp 32 192 (int_of (float_quotient (m * 8192) (wav_ms audio))))
      in *.
    set (N := m * 8192 * 1000) in *.
    pose proof (Z.mul_div_le N (wav_ms audio)).
    assert (b <= N / wav_ms audio) by (unfold clamp in Hnear; lia).
    nia.
Qed.

Lemma X9_bitrate_fits_limit_witness :
  122 * 1000000 <= 15 * 8192 * 1000.
Proof.
  destruct (X9_bitrate_fits_limit Samples.healthy 15 Samples.fresh 122
              Samples.fresh) as (_ & _ & H).
  - vm_compute. reflexivity.
  - vm_compute. split; [discriminate | reflexivity].
  - apply H; [reflexivity | lia].
Defined.

(** X10. Above the limit the bitrate follows the inputs the right way:
    a longer audio or a smaller limit never gets a higher bitrate. *)
Theorem X10_bitrate_monotone c1 c2 m1 m2 b1 b2 w1 w2 w1' w2' :
  choose_bitrate c1 (measured_mb c1) m1 w1 = (Ok b1, w1') ->
  choose_bitrate c2 (measured_mb c2) m2 w2 = (Ok b2, w2') ->
  fits c1 m1 = false -> fits c2 m2 = false ->
  0 < wav_ms c1 -> wav_ms c1 <= wav_ms c2 ->
  0 <= m2 -> m2 <= m1 ->
  b2 <= b1.
Proof.
  rewrite !choose_bitrate_run. intros Hb1 Hb2 Hf1 Hf2 Hms1 Hms Hm2 Hm.
  rewrite chosen_bitrate_over in Hb1 by (done || lia).
  rewrite chosen_bitrate_over in Hb2 by (done || lia).
  injection Hb1 as <- _. injection Hb2 as <- _.
  destruct (float_quotient_mono (m1 * 8192) (m2 * 8192) (wav_ms c1) (wav_ms c2))
    as [H0 Hle]; [lia | lia |].
  assert (int_of (float_quotient (m2 * 8192) (wav_ms c2))
          <= int_of (float_quotient (m1 * 8192) (wav_ms c1))).
  { rewrite !int_of_floor by lra. by apply Qfloor_resp_le. }
  unfold clamp. lia.
Qed.

Lemma X10_bitrate_monotone_witness : 61 <= 122.
Proof.
  apply (X10_bitrate_monotone
           Samples.healthy
           (Clip true true Written true true (400 * 1024 * 1024) 2000000 Written)
           15 15 122 61 Samples.fresh Samples.fresh Samples.fresh Samples.fresh).
  - vm_compute. reflexivity.
  - vm_compute. reflexivity.
  - reflexivity.
  - reflexivity.
  - reflexivity.
  - vm_compute. discriminate.
  - lia.
  - lia.
Defined.

(** ** The batch as a whole *)

Section BatchRuns.
Variable media : string -> clip.

Lemma for_each_entry_state d l : forall acc w cache,
  ensure_ok w ->
  (forall u, final_audio_of u ∈ files w <-> final_audio_of u ∈ cache) ->
  let videos := map (join d) (filter (fun f => is_video f = true) l) in
  exists w' es,
    for_each_entry media d l acc w =
      (Ok (acc ++ paths_of (plan media cache videos))%list, w')
    /\ trace w' = (trace w ++ es)%list
    /\ opened es = decoded_of (plan media cache videos)
    /\ ensure_ok w'
    /\ dirs w ⊆ dirs w'
    /\ (forall u, final_audio_of u ∈ files w' <->
                  final_audio_of u ∈ cache_after media cache videos).
Proof.
  induction l as [|f l IH]; intros acc w cache Hok Hinv; cbv zeta.
  { exists w, []. simpl. rewrite !app_nil_r. done. }
  simpl for_each_entry. destruct (is_video f) eqn:Hf.
  2:{ rewrite filter_cons_False by congruence. apply IH; done. }
  rewrite filter_cons_True by done. simpl map. simpl plan. simpl cache_after.
  unfold bind at 1, print, emit. unfold bind at 1.
  set (w0 := World (files w) (dirs w) (trace w ++ [Print (MsgProcessing f)])).
  destruct (video_to_audio_summary media (join d f) 15 w0 Hok)
    as (w1 & es1 & Hrun & Htr & _ & Hopen & Hdirs & Hok1 & Hfiles).
  rewrite Hrun. clear Hrun.
  assert (Hinv1 : forall u, final_audio_of u ∈ files w1 <->
                            final_audio_of u ∈ cache_step media cache (join d f)).
  { intros u. rewrite Hfiles. simpl. rewrite Hinv. unfold cache_step.
    destruct (leaves_final _ _); in_files. }
  assert (Hd1 : dirs w ⊆ dirs w1).
  { rewrite Hdirs. simpl. intros x. rewrite elem_of_union. tauto. }
  unfold verdict_of.
  assert (bool_decide (final_audio_of (join d f) ∈ files w0)
          = bool_decide (final_audio_of (join d f) ∈ cache)) as Hcache.
  { apply bool_decide_ext, Hinv. }
  rewrite Hcache in *. clear Hcache.
  assert (Hstep : forall acc' msg,
    exists w' es,
      for_each_entry media d l acc'
        (World (files w1) (dirs w1) (trace w1 ++ [Print msg])) =
        (Ok (acc' ++ paths_of (plan media (cache_step media cache (join d f))
               (map (join d) (filter (fun f => is_video f = true) l))))%list, w')
      /\ trace w' = (trace w ++ Print (MsgProcessing f) :: es1
                     ++ Print msg :: es)%list
      /\ opened es = decoded_of (plan media (cache_step media cache (join d f))
               (map (join d) (filter (fun f => is_video f = true) l)))
      /\ ensure_ok w'
      /\ dirs w ⊆ dirs w'
      /\ (forall u, final_audio_of u ∈ files w' <->
            final_audio_of u ∈ cache_after media
              (cache_step media cache (join d f))
              (map (join d) (filter (fun f => is_video f = true) l)))).
  { intros acc' msg.
    destruct (IH acc' (World (files w1) (dirs w1) (trace w1 ++ [Print msg]))
                 (cache_step media cache (join d f)) Hok1 Hinv1)
      as (w3 & es3 & Hrun3 & Htr3 & Hopen3 & Hok3 & Hd3 & Hinv3).
    exists w3, es3. split; [exact Hrun3|]. split.
    { rewrite Htr3. simpl. rewrite Htr. subst w0. simpl.
      rewrite <- !app_assoc. reflexivity. }
    split; [exact Hopen3|]. split; [exact Hok3|]. split; [|exact Hinv3].
    intros x Hx. apply Hd3. simpl. by apply Hd1. }
  assert (Hev : forall msg es,
    opened (Print (MsgProcessing f) :: es1 ++ Print msg :: es) =
    (opened es1 ++ opened es)%list).
  { intros msg es. unfold opened. simpl. by rewrite omap_app. }
  destruct (bool_decide (final_audio_of (join d f) ∈ cache));
    cbn [orb] in *; cbv iota.
  - rewrite final_audio_truthy. unfold bind at 1, print, emit.
    destruct (Hstep (acc ++ [final_audio_of (join d f)])%list
                    (MsgCreated (final_audio_of (join d f))))
      as (w3 & es3 & Hrun3 & Htr3 & Hopen3 & Hrest).
    exists w3, (Print (MsgProcessing f) :: es1
                ++ Print (MsgCreated (final_audio_of (join d f))) :: es3)%list.
    rewrite Hrun3, Htr3, Hev, Hopen, Hopen3.
    unfold paths_of, decoded_of. simpl. rewrite <- !app_assoc. done.
  - destruct (transcodes (media (join d f)) 15); cbv iota.
    + rewrite final_audio_truthy. unfold bind at 1, print, emit.
      destruct (Hstep (acc ++ [final_audio_of (join d f)])%list
                      (MsgCreated (final_audio_of (join d f))))
        as (w3 & es3 & Hrun3 & Htr3 & Hopen3 & Hrest).
      exists w3, (Print (MsgProcessing f) :: es1
                  ++ Print (MsgCreated (final_audio_of (join d f))) :: es3)%list.
      rewrite Hrun3, Htr3, Hev, Hopen, Hopen3.
      unfold paths_of, decoded_of. simpl. rewrite <- !app_assoc. done.
    + unfold bind at 1, print, emit.
      destruct (Hstep acc (MsgFailed f))
        as (w3 & es3 & Hrun3 & Htr3 & Hopen3 & Hrest).
      exists w3, (Print (MsgProcessing f) :: es1
                  ++ Print (MsgFailed f) :: es3)%list.
      rewrite Hrun3, Htr3, Hev, Hopen, Hopen3.
      unfold paths_of, decoded_of. simpl. done.
Qed.

Lemma paths_of_plan_elem vs : forall cache p,
  p ∈ paths_of (plan media cache vs) ->
  p ∈ cache_after media cache vs
  /\ exists v, v ∈ vs /\ p = final_audio_of v.
Proof.
  induction vs as [|v vs IH]; intros cache p; simpl.
  { by intros ?%elem_of_nil. }
  unfold paths_of. simpl.
  fold (paths_of (plan media (cache_step media cache v) vs)).
  assert (Hrec : p ∈ paths_of (plan media (cache_step media cache v) vs) ->
                 p ∈ cache_after media (cache_step media cache v) vs
                 /\ exists v0, v0 ∈ v :: vs /\ p = final_audio_of v0).
  { intros H. destruct (IH _ _ H) as (Hin & u & Hu & ->).
    split; [exact Hin|]. exists u. split; [by right | done]. }
  unfold verdict_of.
  destruct (bool_decide (final_audio_of v ∈ cache)) eqn:Hc; simpl.
  - intros [->|H]%elem_of_cons; [|by apply Hrec].
    apply bool_decide_eq_true in Hc. split.
    + by apply cache_after_mono, cache_step_mono.
    + exists v. split; [left | done].
  - destruct (transcodes (media v) 15) eqn:Ht; simpl.
    + intros [->|H]%elem_of_cons; [|by apply Hrec]. split.
      * apply cache_after_mono. unfold cache_step.
        rewrite (transcodes_leaves_final _ _ Ht).
        rewrite elem_of_union, elem_of_singleton. by left.
      * exists v. split; [left | done].
    + apply Hrec.
Qed.

Lemma paths_of_plan_length vs : forall cache,
  (length (paths_of (plan media cache vs)) <= length vs)%nat.
Proof.
  induction vs as [|v vs IH]; intros cache; simpl; [lia|].
  unfold paths_of. simpl.
  fold (paths_of (plan media (cache_step media cache v) vs)).
  pose proof (IH (cache_step media cache v)).
  destruct (verdict_of media cache v); simpl; lia.
Qed.

Lemma cached_in_paths vs : forall cache v,
  v ∈ vs -> final_audio_of v ∈ cache ->
  final_audio_of v ∈ paths_of (plan media cache vs).
Proof.
  induction vs as [|u vs IH]; intros cache v Hv Hc.
  { by apply elem_of_nil in Hv. }
  simpl. unfold paths_of. simpl.
  fold (paths_of (plan media (cache_step media cache u) vs)).
  apply elem_of_cons in Hv as [<-|Hv].
  - unfold verdict_of. rewrite bool_decide_eq_true_2 by done. simpl. left.
  - assert (final_audio_of v ∈ paths_of (plan media (cache_step media cache u) vs))
      by (apply IH; [done | by apply cache_step_mono]).
    destruct (verdict_of media cache u); simpl; try done; by right.
Qed.

End BatchRuns.

Lemma for_each_entry_frame media d l : forall acc w r w',
  for_each_entry media d l acc w = (r, w') ->
  (forall p,
     (forall f, f ∈ l -> is_video f = true ->
        p <> temp_audio_of (join d f) /\ p <> final_audio_of (join d f)) ->
     (p ∈ files w' <-> p ∈ files w))
  /\ (forall u, final_audio_of u ∈ files w -> final_audio_of u ∈ files w')
  /\ dirs w ⊆ dirs w'
  /\ dirs w' ⊆ output_dirs ∪ dirs w.
Proof.
  induction l as [|f l IH]; intros acc w r w'.
  { simpl. intros [= <- <-]. split; [done|]. split; [done|]. sets. }
  simpl for_each_entry. destruct (is_video f) eqn:Hf.
  2:{ intros Hrun. destruct (IH _ _ _ _ Hrun) as (H1 & H2 & H3 & H4).
      split; [|done]. intros p Hp. apply H1.
      intros g Hg. apply Hp. by right. }
  unfold bind at 1, print, emit. unfold bind at 1.
  set (w0 := World (files w) (dirs w) (trace w ++ [Print (MsgProcessing f)])).
  destruct (video_to_audio media (join d f) 15 w0) as [r1 w1] eqn:Hv.
  destruct (video_to_audio_files_frame _ _ _ _ _ _ Hv)
    as (Hframe & Hkeep & Hd1 & Hd2).
  simpl in Hframe, Hkeep, Hd1, Hd2.
  assert (Hkeep1 : forall u, final_audio_of u ∈ files w ->
                             final_audio_of u ∈ files w1).
  { intros u Hu.
    destruct (decide (final_audio_of u = final_audio_of (join d f))) as [E|E].
    - rewrite E in *. by apply Hkeep.
    - apply Hframe; [apply final_not_temp | exact E | exact Hu]. }
  assert (Hnext : forall acc' msg r' w'',
    for_each_entry media d l acc'
      (World (files w1) (dirs w1) (trace w1 ++ [Print msg])) = (r', w'') ->
    (forall p,
       (forall g, g ∈ f :: l -> is_video g = true ->
          p <> temp_audio_of (join d g) /\ p <> final_audio_of (join d g)) ->
       (p ∈ files w'' <-> p ∈ files w))
    /\ (forall u, final_audio_of u ∈ files w -> final_audio_of u ∈ files w'')
    /\ dirs w ⊆ dirs w''
    /\ dirs w'' ⊆ output_dirs ∪ dirs w).
  { intros acc' msg r' w'' Hrun.
    destruct (IH _ _ _ _ Hrun) as (H1 & H2 & H3 & H4). simpl in H1, H2, H3, H4.
    split; [|split; [|split]].
    - intros p Hp. rewrite H1.
      + destruct (Hp f) as (Ht & Hfin); [left | done |]. by apply Hframe.
      + intros g Hg. apply Hp. by right.
    - intros u Hu. by apply H2, Hkeep1.
    - intros x Hx. by apply H3, Hd1.
    - intros x Hx. apply H4 in Hx. apply elem_of_union in Hx as [Hx|Hx].
      + apply elem_of_union. by left.
      + by apply Hd2. }
  destruct r1 as [[p|]|e].
  - destruct (truthy p); unfold bind at 1, print, emit; apply Hnext.
  - unfold bind at 1, print, emit. apply Hnext.
  - intros [= <- <-]. split; [|split; [exact Hkeep1|split; [exact Hd1|exact Hd2]]].
    intros p Hp. destruct (Hp f) as (Ht & Hfin); [left | done |].
    by apply Hframe.
Qed.

(** X11. The only exception that leaves [video_to_audio] is the [OSError]
    of [ensure_directories]: when the three output directories can be
    made the call returns (a path or [None]), whatever the codecs do;
    when they cannot it raises [OSError] before it reads, writes or
    prints anything. *)
Theorem X11_only_directory_errors_escape media v m w r w' :
  video_to_audio media v m w = (r, w') ->
  (ensure_ok w -> exists p, r = Ok p)
  /\ (~ ensure_ok w ->
      r = Raise OSError /\ files w' = files w /\ trace w' = trace w).
Proof.
  intros Hrun. split.
  - intros Hok.
    destruct (video_to_audio_effects media v m w Hok)
      as (r0 & w0 & es & Hrun0 & _).
    rewrite Hrun in Hrun0. injection Hrun0 as -> ->. by exists r0.
  - intros Hno.
    destruct (ensure_directories_blocked w Hno) as (w0 & Hw0).
    destruct (ensure_directories_frame _ _ _ Hw0) as (Hf & Ht & _).
    unfold video_to_audio in Hrun. unfold bind at 1 in Hrun.
    rewrite Hw0 in Hrun. injection Hrun as <- <-. done.
Qed.

Lemma X11_only_directory_errors_escape_witness :
  (exists p, Ok (@None string) = Ok p)
  /\ (@Raise (option string) OSError = Raise OSError
      /\ files (World {["output/audio"]} {["output"]} []) = {["output/audio"]}
      /\ trace (World {["output/audio"]} {["output"]} []) = []).
Proof.
  assert (H1 : video_to_audio (Samples.all Samples.corrupt)
                 "videos/clip.mp4" 15 Samples.fresh =
               (Ok None,
                World ∅ output_dirs
                  [CallOpen "videos/clip.mp4";
                   Print (MsgExtractError "videos/clip.mp4" CodecError)])).
  { vm_compute. reflexivity. }
  assert (H2 : video_to_audio (Samples.all Samples.healthy)
                 "videos/clip.mp4" 15 (World {["output/audio"]} ∅ []) =
               (Raise OSError, World {["output/audio"]} {["output"]} [])).
  { vm_compute. reflexivity. }
  split.
  - apply (proj1 (X11_only_directory_errors_escape _ _ _ _ _ _ H1)).
    vm_compute. repeat split; discriminate.
  - apply (proj2 (X11_only_directory_errors_escape _ _ _ _ _ _ H2)).
    intros (_ & H & _). apply H. vm_compute. reflexivity.
Defined.

(** X12. In an existing directory, with the output directories available,
    [process_videos_in_directory] returns at most one path per matching
    entry; every returned path is the final path of a matching entry of
    the directory and names a file that exists when the batch returns. *)
Theorem X12_batch_paths_exist media listing d w :
  ensure_ok w ->
  d ∈ dirs w ->
  exists paths w',
    process_videos_in_directory media listing d w = (Ok paths, w')
    /\ (length paths <= length (candidates listing d))%nat
    /\ forall p, p ∈ paths ->
         p ∈ files w'
         /\ exists f, f ∈ listing d /\ is_video f = true
                      /\ p = final_audio_of (join d f).
Proof.
  intros Hok Hd.
  unfold process_videos_in_directory, bind, isdir.
  rewrite bool_decide_eq_true_2 by done. simpl negb. cbv iota.
  destruct (for_each_entry_state media d (listing d) [] w (files w) Hok)
    as (w' & es & Hrun & _ & _ & _ & _ & Hinv); [done|].
  exists (paths_of (plan media (files w) (candidates listing d))), w'.
  split; [exact Hrun|]. split; [apply paths_of_plan_length|].
  intros p Hp.
  destruct (paths_of_plan_elem media _ _ _ Hp) as (Hin & v & Hv & ->).
  split; [by apply Hinv|].
  unfold candidates in Hv. apply list_elem_of_In, in_map_iff in Hv.
  destruct Hv as (f & <- & Hf%list_elem_of_In).
  apply list_elem_of_filter in Hf as (Hf1 & Hf2).
  by exists f.
Qed.

Lemma X12_batch_paths_exist_witness :
  exists paths w',
    process_videos_in_directory Samples.three_and_one Samples.four_entries
      "videos" Samples.with_videos = (Ok paths, w')
    /\ (length paths <= 4)%nat
    /\ forall p, p ∈ paths -> p ∈ files w'.
Proof.
  destruct (X12_batch_paths_exist Samples.three_and_one Samples.four_entries
              "videos" Samples.with_videos)
    as (paths & w' & Hrun & Hlen & Hall).
  - vm_compute. repeat split; discriminate.
  - vm_compute. reflexivity.
  - exists paths, w'. split; [exact Hrun|]. split; [exact Hlen|].
    intros p Hp. by destruct (Hall p Hp).
Defined.

Lemma process_in_directory_run media listing d w :
  d ∈ dirs w ->
  process_videos_in_directory media listing d w =
  for_each_entry media d (filter (fun f => is_video f = true) (listing d)) [] w.
Proof.
  intros Hd. rewrite <- for_each_entry_filter.
  unfold process_videos_in_directory, bind, isdir.
  by rewrite bool_decide_eq_true_2.
Qed.

(** X13. A directory without a matching entry (an empty one, or one with
    other files only): the batch returns the empty list and does nothing
    at all; it prints nothing and does not even create the output
    directories, so it also succeeds where they cannot be made. *)
Theorem X13_batch_without_videos media listing d w :
  d ∈ dirs w ->
  (forall f, f ∈ listing d -> is_video f = false) ->
  process_videos_in_directory media listing d w = (Ok [], w).
Proof.
  intros Hd Hnone. rewrite process_in_directory_run by done.
  replace (filter (fun f => is_video f = true) (listing d))
    with (@nil string); [reflexivity|].
  symmetry. induction (listing d) as [|f l IH]; [reflexivity|].
  rewrite filter_cons_False.
  - apply IH. intros g Hg. apply Hnone. by right.
  - rewrite (Hnone f); [discriminate | left].
Qed.

Lemma X13_batch_without_videos_witness :
  process_videos_in_directory (Samples.all Samples.healthy)
    (fun _ => ["notes.txt"; "clip.mp3"; "mp4"; "clip.mp4.bak"])
    "videos" (World {["output"]} {["videos"]} []) =
    (Ok [], World {["output"]} {["videos"]} []).
Proof.
  apply (X13_batch_without_videos (Samples.all Samples.healthy)
           (fun _ => ["notes.txt"; "clip.mp3"; "mp4"; "clip.mp4.bak"])
           "videos" (World {["output"]} {["videos"]} [])).
  - vm_compute. reflexivity.
  - intros f Hf. repeat (apply elem_of_cons in Hf as [->|Hf];
                         [vm_compute; reflexivity|]).
    by apply elem_of_nil in Hf.
Defined.

(** X14. When the output directories cannot be made, the batch does not
    survive its first matching entry: it prints the processing line for
    that entry and raises [OSError]; no file changes, no codec is called
    and the entries after it are never looked at. *)
Theorem X14_batch_aborts_when_blocked media listing d w f rest :
  ~ ensure_ok w ->
  d ∈ dirs w ->
  filter (fun f => is_video f = true) (listing d) = f :: rest ->
  exists w',
    process_videos_in_directory media listing d w = (Raise OSError, w')
    /\ files w' = files w
    /\ trace w' = (trace w ++ [Print (MsgProcessing f)])%list.
Proof.
  intros Hno Hd Hl. rewrite process_in_directory_run by done. rewrite Hl.
  assert (Hf : is_video f = true).
  { assert (f ∈ filter (fun f => is_video f = true) (listing d)) as H
      by (rewrite Hl; left).
    by apply list_elem_of_filter in H as (H & _). }
  simpl for_each_entry. rewrite Hf.
  unfold bind at 1, print, emit. unfold bind at 1.
  set (w0 := World (files w) (dirs w) (trace w ++ [Print (MsgProcessing f)])).
  assert (Hno0 : ~ ensure_ok w0) by exact Hno.
  destruct (ensure_directories_blocked w0 Hno0) as (w1 & Hw1).
  destruct (ensure_directories_frame _ _ _ Hw1) as (Hfs & Ht & _).
  unfold video_to_audio. unfold bind at 1. rewrite Hw1.
  exists w1. split; [reflexivity|]. by rewrite Hfs, Ht.
Qed.

Lemma X14_batch_aborts_when_blocked_witness :
  exists w',
    process_videos_in_directory Samples.three_and_one Samples.four_entries
      "videos" (World {["output"]} {["videos"]} []) = (Raise OSError, w')
    /\ files w' = {["output"]}
    /\ trace w' = [Print (MsgProcessing "a.mp4")].
Proof.
  destruct (X14_batch_aborts_when_blocked Samples.three_and_one
              Samples.four_entries "videos"
              (World {["output"]} {["videos"]} [])
              "a.mp4" ["b.mp4"; "c.avi"; "d.mkv"])
    as (w' & Hrun & Hfiles & Htrace).
  - intros (H & _). apply H. vm_compute. reflexivity.
  - vm_compute. reflexivity.
  - vm_compute. reflexivity.
  - exists w'. split; [exact Hrun|]. split; [exact Hfiles | exact Htrace].
Defined.

(** X15. Running the batch again on the same directory entries, after a
    run that returned: the second run returns as well, every path the
    first run returned is returned again, and no video whose path the
    first run returned is opened again, whatever the codecs would now do
    with it. *)
Theorem X15_second_batch_run media media' listing d w paths1 w1 :
  ensure_ok w ->
  d ∈ dirs w ->
  process_videos_in_directory media listing d w = (Ok paths1, w1) ->
  exists paths2 w2 es,
    process_videos_in_directory media' listing d w1 = (Ok paths2, w2)
    /\ trace w2 = (trace w1 ++ es)%list
    /\ (forall p, p ∈ paths1 -> p ∈ paths2)
    /\ (forall v, v ∈ opened es -> final_audio_of v ∉ paths1).
Proof.
  intros Hok Hd Hrun1.
  rewrite process_in_directory_run in Hrun1 by done.
  rewrite <- for_each_entry_filter in Hrun1.
  destruct (for_each_entry_state media d (listing d) [] w (files w) Hok)
    as (w1' & es1 & Hrun & _ & _ & Hok1 & Hd1 & Hinv1); [done|].
  rewrite Hrun1 in Hrun. injection Hrun as -> <-.
  assert (Hin1 : forall p,
    p ∈ paths_of (plan media (files w) (candidates listing d)) ->
    p ∈ files w1 /\ exists v, v ∈ candidates listing d /\ p = final_audio_of v).
  { intros p Hp.
    destruct (paths_of_plan_elem media _ _ _ Hp) as (Hin & v & Hv & ->).
    split; [by apply Hinv1 | by exists v]. }
  rewrite process_in_directory_run by (by apply Hd1).
  rewrite <- for_each_entry_filter.
  destruct (for_each_entry_state media' d (listing d) [] w1 (files w1) Hok1)
    as (w2 & es2 & Hrun2 & Htr2 & Hopen2 & _); [done|].
  exists (paths_of (plan media' (files w1) (candidates listing d))), w2, es2.
  split; [exact Hrun2|]. split; [exact Htr2|]. split.
  - intros p Hp. destruct (Hin1 p Hp) as (Hin & v & Hv & ->).
    by apply cached_in_paths.
  - intros v Hv Hp. destruct (Hin1 _ Hp) as (Hin & _).
    rewrite Hopen2 in Hv.
    by apply (cached_not_decoded media' _ _ _ _ Hin Hv).
Qed.

Lemma X15_second_batch_run_witness :
  exists paths2 w2,
    process_videos_in_directory (Samples.all Samples.corrupt)
      Samples.four_entries "videos"
      (snd (process_videos_in_directory Samples.three_and_one
              Samples.four_entries "videos" Samples.with_videos))
    = (Ok paths2, w2)
    /\ "output/audio/a.mp3" ∈ paths2
    /\ "output/audio/c.mp3" ∈ paths2
    /\ "output/audio/d.mp3" ∈ paths2.
Proof.
  destruct (X15_second_batch_run Samples.three_and_one
              (Samples.all Samples.corrupt) Samples.four_entries "videos"
              Samples.with_videos
              ["output/audio/a.mp3"; "output/audio/c.mp3"; "output/audio/d.mp3"]
              (snd (process_videos_in_directory Samples.three_and_one
                      Samples.four_entries "videos" Samples.with_videos)))
    as (paths2 & w2 & es & Hrun & Htr & Hsub & _).
  - vm_compute. repeat split; discriminate.
  - vm_compute. reflexivity.
  - vm_compute. reflexivity.
  - exists paths2, w2. split; [exact Hrun|].
    repeat split; apply Hsub; repeat constructor.
Defined.

(** X16. Whatever the batch does, also when it is aborted by an
    exception: the only files it can create or delete are the
    intermediate and final paths of the matching entries of the
    directory; it never deletes a final audio file that existed, never
    removes a directory and adds at most the three output directories. *)
Theorem X16_batch_frame media listing d w r w' :
  process_videos_in_directory media listing d w = (r, w') ->
  (forall p,
     (forall f, f ∈ listing d -> is_video f = true ->
        p <> temp_audio_of (join d f) /\ p <> final_audio_of (join d f)) ->
     (p ∈ files w' <-> p ∈ files w))
  /\ (forall u, final_audio_of u ∈ files w -> final_audio_of u ∈ files w')
  /\ dirs w ⊆ dirs w'
  /\ dirs w' ⊆ output_dirs ∪ dirs w.
Proof.
  unfold process_videos_in_directory, bind, isdir.
  destruct (bool_decide (d ∈ dirs w)); simpl negb; cbv iota.
  - apply for_each_entry_frame.
  - unfold print, emit. intros [= <- <-]. simpl.
    split; [done|]. split; [done|]. sets.
Qed.

Lemma X16_batch_frame_witness :
  "videos/a.mp4" ∈
    files (snd (process_videos_in_directory Samples.three_and_one
                  Samples.four_entries "videos"
                  (World {["videos/a.mp4"]} {["videos"]} []))).
Proof.
  destruct (X16_batch_frame Samples.three_and_one Samples.four_entries
              "videos" (World {["videos/a.mp4"]} {["videos"]} [])
              _ _ (surjective_pairing _))
    as (Hframe & _).
  apply Hframe.
  - intros f Hf _. unfold Samples.four_entries in Hf.
    repeat (apply elem_of_cons in Hf as [->|Hf];
            [vm_compute; split; discriminate|]).
    by apply elem_of_nil in Hf.
  - vm_compute. reflexivity.
Defined.

(** * The analysis files *)

Import Analysis.

(** ** Names of the analysis files *)

Lemma append_empty s : s ++ "" = s.
Proof. induction s as [|c s IH]; [reflexivity|]. by rewrite append_cons, IH. Qed.

Lemma analysis_name_no_sep a :
  contains sep (splitext_root (basename a) ++ "_analysis.txt") = false.
Proof.
  rewrite contains_append.
  change (splitext_root (basename a)) with (base_name_of a).
  by rewrite base_name_no_sep.
Qed.

Lemma analysis_file_join a :
  join analysis_dir (splitext_root (basename a) ++ "_analysis.txt") =
  analysis_file_of a.
Proof.
  pose proof (analysis_name_no_sep a) as Hn. unfold join.
  assert (startswith (splitext_root (basename a) ++ "_analysis.txt") "/"
          = false) as ->.
  { destruct (splitext_root (basename a) ++ "_analysis.txt") as [|x n];
      [reflexivity|].
    unfold startswith. simpl in *.
    apply orb_false_elim in Hn as [Hn _]. unfold sep in Hn. by rewrite Hn. }
  reflexivity.
Qed.

Lemma analysis_file_not_output a :
  analysis_file_of a <> "output" /\ analysis_file_of a <> audio_dir
  /\ analysis_file_of a <> analysis_dir.
Proof.
  unfold analysis_file_of, audio_dir, analysis_dir.
  rewrite !append_cons, append_nil.
  repeat split; intros H; discriminate H.
Qed.

Lemma analysis_file_parent a w :
  analysis_dir ∈ dirs w -> parent_exists (analysis_file_of a) w = true.
Proof.
  intros Hd. unfold parent_exists, analysis_file_of.
  change ("output/analysis/" ++ splitext_root (basename a) ++ "_analysis.txt")
    with ("output/analysis"
          ++ String sep (splitext_root (basename a) ++ "_analysis.txt")).
  unfold rfind. rewrite rfind_from_last by apply analysis_name_no_sep.
  unfold slice_to.
  replace (Z.to_nat (0 + Z.of_nat (String.length "output/analysis")))
    with (String.length "output/analysis") by lia.
  rewrite take_append. rewrite bool_decide_eq_true_2 by exact Hd.
  apply orb_true_r.
Qed.

(** ** The skip check *)

Lemma should_skip_run a w :
  ensure_ok w ->
  should_skip_analysis a true w =
    (Ok (bool_decide (analysis_file_of a ∈ files w)), with_output_dirs w).
Proof.
  intros Hok. unfold should_skip_analysis, bind. cbn [negb].
  cbv beta iota zeta. rewrite (ensure_run _ Hok). simpl snd.
  rewrite analysis_file_join. reflexivity.
Qed.

(** X17. [should_skip_analysis] is not a pure query.  With the option
    off it answers [False] and touches nothing.  With the option on it
    first creates the three output directories and then answers whether
    [output/analysis/<base>_analysis.txt] is a regular file, [<base>]
    being the audio file's name without directory and extension; when
    the directories cannot be made it raises [OSError]. *)
Theorem X17_should_skip_analysis_outcome a w :
  should_skip_analysis a false w = (Ok false, w)
  /\ (ensure_ok w ->
      should_skip_analysis a true w =
        (Ok (bool_decide
               ("output/analysis/" ++ splitext_root (basename a)
                ++ "_analysis.txt" ∈ files w)),
         World (files w) (output_dirs ∪ dirs w) (trace w)))
  /\ (~ ensure_ok w ->
      exists w', should_skip_analysis a true w = (Raise OSError, w')).
Proof.
  split; [reflexivity|]. split.
  - intros Hok. by rewrite should_skip_run.
  - intros Hno. destruct (ensure_directories_blocked w Hno) as (w' & Hw').
    exists w'. unfold should_skip_analysis, bind. cbn [negb].
    cbv beta iota zeta. by rewrite Hw'.
Qed.

Lemma X17_should_skip_analysis_outcome_witness :
  should_skip_analysis "output/audio/talk.v2.mp3" true
    (World {["output/analysis/talk.v2_analysis.txt"]} ∅ []) =
    (Ok true,
     World {["output/analysis/talk.v2_analysis.txt"]} output_dirs [])
  /\ exists w', should_skip_analysis "output/audio/talk.v2.mp3" true
                  Samples.blocked = (Raise OSError, w').
Proof.
  split.
  - destruct (X17_should_skip_analysis_outcome "output/audio/talk.v2.mp3"
                (World {["output/analysis/talk.v2_analysis.txt"]} ∅ []))
      as (_ & H & _).
    rewrite H.
    + vm_compute. reflexivity.
    + vm_compute. repeat split; discriminate.
  - destruct (X17_should_skip_analysis_outcome "output/audio/talk.v2.mp3"
                Samples.blocked) as (_ & _ & H).
    apply H. intros (H1 & _). apply H1. vm_compute. reflexivity.
Defined.

(** ** Saving *)

Lemma analysis_file_basename a :
  basename (analysis_file_of a) = splitext_root (basename a) ++ "_analysis.txt".
Proof.
  unfold analysis_file_of.
  change ("output/analysis/" ++ splitext_root (basename a) ++ "_analysis.txt")
    with ("output/analysis"
          ++ String sep (splitext_root (basename a) ++ "_analysis.txt")).
  apply basename_after_sep, analysis_name_no_sep.
Qed.

Lemma analysis_name_not_empty s :
  String.eqb (s ++ "_analysis.txt") "" = false.
Proof. destruct s; reflexivity. Qed.

Lemma save_analysis_run a text d :
  ensure_ok (fs d) ->
  analysis_file_of a ∉ dirs (fs d) ->
  storable (splitext_root (basename a) ++ "_analysis.txt") = true ->
  utf8_valid text = true ->
  save_analysis a text d =
    (Ok tt,
     Disk (World ({[analysis_file_of a]} ∪ files (fs d))
                 (output_dirs ∪ dirs (fs d)) (trace (fs d)))
          (put (analysis_file_of a) text (bytes_at d))).
Proof.
  intros Hok Hnd Hname Htext. unfold save_analysis. cbv zeta.
  rewrite (ensure_run _ Hok). simpl snd. rewrite analysis_file_join.
  unfold write_text. cbn [fs bytes_at].
  unfold storable in Hname. apply andb_true_iff in Hname as [Hnul Hlen].
  apply negb_true_iff in Hnul.
  assert (contains NUL (analysis_file_of a) = false) as ->.
  { unfold analysis_file_of. rewrite contains_append, Hnul. reflexivity. }
  destruct (analysis_file_not_output a) as (N1 & N2 & N3).
  rewrite bool_decide_eq_false_2.
  2:{ unfold with_output_dirs, output_dirs. simpl.
      rewrite !elem_of_union, !elem_of_singleton. tauto. }
  rewrite analysis_file_parent.
  2:{ unfold with_output_dirs, output_dirs. simpl.
      rewrite !elem_of_union, !elem_of_singleton. tauto. }
  rewrite analysis_file_basename, analysis_name_not_empty.
  assert ((name_max <? String.length
             (splitext_root (basename a) ++ "_analysis.txt"))%nat = false)
    as ->.
  { apply Nat.ltb_ge. by apply Nat.leb_le. }
  rewrite Htext. reflexivity.
Qed.

(** X18. [save_analysis] and [should_skip_analysis] agree on the file,
    for every audio path whose analysis file can be created.  When the
    output directories can be made, no directory sits at the analysis
    path, the name of the analysis file has no NUL and at most 255 bytes,
    and the text can be encoded, [save_analysis] returns, the analysis
    file is the only file it adds or changes, it holds the text, and from
    then on [should_skip_analysis] answers [True] for this audio file
    without changing anything. *)
Theorem X18_saved_analysis_is_skipped a text d :
  ensure_ok (fs d) ->
  analysis_file_of a ∉ dirs (fs d) ->
  storable (splitext_root (basename a) ++ "_analysis.txt") = true ->
  utf8_valid text = true ->
  exists d',
    save_analysis a text d = (Ok tt, d')
    /\ files (fs d') = {[analysis_file_of a]} ∪ files (fs d)
    /\ bytes_at d' (analysis_file_of a) = text
    /\ (forall q, q <> analysis_file_of a -> bytes_at d' q = bytes_at d q)
    /\ trace (fs d') = trace (fs d)
    /\ should_skip_analysis a true (fs d') = (Ok true, fs d').
Proof.
  intros Hok Hnd Hname Htext. eexists. split; [by apply save_analysis_run|].
  cbn [fs bytes_at files trace]. split; [done|].
  split; [unfold put; by rewrite String.eqb_refl|].
  split.
  { intros q Hq. unfold put. apply String.eqb_neq in Hq. by rewrite Hq. }
  split; [done|].
  destruct (analysis_file_not_output a) as (N1 & N2 & N3).
  destruct Hok as (H1 & H2 & H3).
  rewrite should_skip_run.
  - rewrite bool_decide_eq_true_2
      by (simpl; rewrite elem_of_union, elem_of_singleton; by left).
    unfold with_output_dirs. simpl. do 2 f_equal.
    apply set_eq. intros x. rewrite !elem_of_union. tauto.
  - unfold ensure_ok. simpl.
    rewrite !elem_of_union, !elem_of_singleton.
    repeat split; intros [E|E]; congruence.
Qed.

Lemma X18_saved_analysis_is_skipped_witness :
  exists d',
    save_analysis "output/audio/talk.mp3" "summary"
      (Disk Samples.cached_clip (fun _ => "")) = (Ok tt, d')
    /\ bytes_at d' "output/analysis/talk_analysis.txt" = "summary"
    /\ should_skip_analysis "output/audio/talk.mp3" true (fs d') =
       (Ok true, fs d').
Proof.
  destruct (X18_saved_analysis_is_skipped "output/audio/talk.mp3" "summary"
              (Disk Samples.cached_clip (fun _ => "")))
    as (d' & Hrun & _ & Hbytes & _ & _ & Hskip).
  - vm_compute. repeat split; discriminate.
  - vm_compute. discriminate.
  - vm_compute. reflexivity.
  - vm_compute. reflexivity.
  - exists d'. split; [exact Hrun|]. split; [exact Hbytes | exact Hskip].
Defined.

(** ** Loading *)

Lemma startswith_before_mp3 c t :
  startswith (String c t) ".mp3" = false ->
  startswith (String c t ++ ".mp3") ".mp3" = false.
Proof.
  unfold startswith. simpl String.length.
  destruct t as [|c2 [|c3 [|c4 t]]]; rewrite ?append_cons, ?append_nil;
    cbn [take]; intros H; [| | |exact H];
    cbn [String.eqb];
    repeat match goal with
           | |- context [Ascii.eqb ?x ?y] =>
               first [ is_var x; destruct (Ascii.eqb x y)
                     | let b := eval vm_compute in (Ascii.eqb x y) in
                       change (Ascii.eqb x y) with b ]
           end;
    reflexivity.
Qed.

Lemma replace_last_mp3 new b :
  occurs ".mp3" b = false ->
  str_replace ".mp3" new (b ++ ".mp3") = b ++ new.
Proof.
  unfold str_replace. induction b as [|c b IH]; intros Hb.
  - rewrite !append_nil. cbn. by rewrite append_empty.
  - simpl in Hb. apply orb_false_elim in Hb as [Hs Hb].
    apply startswith_before_mp3 in Hs.
    rewrite append_cons in *. cbn [replace_from]. rewrite Hs.
    by rewrite IH, append_cons.
Qed.

Lemma ordinary_name_root a b :
  basename a = b ++ ".mp3" ->
  all_eq extsep b = false ->
  splitext_root (basename a) = b.
Proof.
  intros Ha Hdots.
  assert (Hb : contains sep b = false).
  { pose proof (basename_no_sep a) as H. rewrite Ha, contains_append in H.
    by apply orb_false_elim in H as [H _]. }
  rewrite Ha. change (b ++ ".mp3") with (b ++ String extsep "mp3").
  by rewrite splitext_root_append.
Qed.

Lemma load_path_of_saved a b :
  basename a = b ++ ".mp3" ->
  all_eq extsep b = false ->
  occurs ".mp3" b = false ->
  "output/analysis/" ++ str_replace ".mp3" "_analysis.txt" (basename a) =
  analysis_file_of a.
Proof.
  intros Ha Hdots Hocc. unfold analysis_file_of.
  rewrite (ordinary_name_root a b) by done. rewrite Ha.
  by rewrite replace_last_mp3.
Qed.

Lemma load_existing_analysis_run a d :
  let p := "output/analysis/"
           ++ str_replace ".mp3" "_analysis.txt" (basename a) in
  load_existing_analysis a d =
    if bool_decide (p ∈ files (fs d))
    then (if utf8_valid (bytes_at d p)
          then Ok (true, Some (universal_newlines (bytes_at d p)))
          else Raise UnicodeDecodeError, d)
    else if bool_decide (p ∈ dirs (fs d)) then (Raise OSError, d)
    else (Ok (false, None), d).
Proof.
  cbv zeta. unfold load_existing_analysis, exists_, read_text.
  destruct d as [w t]. cbn [fs bytes_at].
  set (p := "output/analysis/"
            ++ str_replace ".mp3" "_analysis.txt" (basename a)).
  destruct (bool_decide (p ∈ files w)); cbn [orb].
  - by destruct (utf8_valid (t p)).
  - destruct (bool_decide (p ∈ dirs w)); reflexivity.
Qed.

Lemma universal_newlines_plain s :
  contains CR s = false -> universal_newlines s = s.
Proof.
  induction s as [|c s IH]; [reflexivity|].
  cbn [contains universal_newlines]. intros H.
  apply orb_false_elim in H as [Hc Hs]. rewrite Hc. by rewrite IH.
Qed.

(** X19. [load_existing_analysis] after [should_skip_analysis], as the
    application calls them, for an ordinary audio name [b ++ ".mp3"]
    ([b] not only dots, no ['.mp3'] inside [b]): the two functions derive
    the file name in different ways and still look at the same file.
    When the skip check answered [True], the load never answers
    [(False, None)]: it returns [(True, text)], the text being the
    file's bytes decoded and with the line ends translated, or raises
    [UnicodeDecodeError] when the bytes are not UTF-8.  When the skip
    check answered [False], the load answers [(False, None)], unless a
    directory sits at the path, which makes [open] raise [OSError].  The
    load changes nothing. *)
Theorem X19_load_after_skip a b d answer w1 :
  basename a = b ++ ".mp3" ->
  all_eq extsep b = false ->
  occurs ".mp3" b = false ->
  should_skip_analysis a true (fs d) = (Ok answer, w1) ->
  let d1 := Disk w1 (bytes_at d) in
  let bytes := bytes_at d ("output/analysis/" ++ b ++ "_analysis.txt") in
  (answer = true ->
   load_existing_analysis a d1 =
     (if utf8_valid bytes then Ok (true, Some (universal_newlines bytes))
      else Raise UnicodeDecodeError, d1))
  /\ (answer = false ->
      "output/analysis/" ++ b ++ "_analysis.txt" ∉ dirs (fs d) ->
      load_existing_analysis a d1 = (Ok (false, None), d1))
  /\ (answer = false ->
      "output/analysis/" ++ b ++ "_analysis.txt" ∈ dirs (fs d) ->
      load_existing_analysis a d1 = (Raise OSError, d1)).
Proof.
  intros Ha Hdots Hocc Hskip. cbv zeta.
  assert (Hok : ensure_ok (fs d)).
  { destruct (decide (ensure_ok (fs d))) as [Hok|Hno]; [done|].
    destruct (ensure_directories_blocked _ Hno) as (w' & Hw').
    unfold should_skip_analysis, bind in Hskip. cbn [negb] in Hskip.
    cbv beta iota zeta in Hskip. rewrite Hw' in Hskip. discriminate Hskip. }
  rewrite (should_skip_run _ _ Hok) in Hskip. injection Hskip as <- <-.
  rewrite load_existing_analysis_run. cbv zeta.
  rewrite (load_path_of_saved a b) by done.
  assert (Hfile : analysis_file_of a = "output/analysis/" ++ b ++ "_analysis.txt").
  { unfold analysis_file_of. by rewrite (ordinary_name_root a b). }
  rewrite Hfile. cbn [fs bytes_at]. unfold with_output_dirs. cbn [files dirs].
  destruct (analysis_file_not_output a) as (N1 & N2 & N3).
  rewrite Hfile in N1, N2, N3.
  split; [|split].
  - intros ->. reflexivity.
  - intros -> Hnd. rewrite bool_decide_eq_false_2; [reflexivity|].
    unfold output_dirs. rewrite !elem_of_union, !elem_of_singleton. tauto.
  - intros -> Hd. rewrite bool_decide_eq_true_2; [reflexivity|].
    rewrite elem_of_union. by right.
Qed.

Lemma X19_load_after_skip_witness :
  let w := World {["output/analysis/talk.v2_analysis.txt"]} ∅ [] in
  let bytes q :=
    if String.eqb q "output/analysis/talk.v2_analysis.txt"
    then "one" ++ String CR (String LF "two") else "" in
  load_existing_analysis "output/audio/talk.v2.mp3"
    (Disk (World (files w) output_dirs []) bytes) =
  (Ok (true, Some ("one" ++ String LF "two")),
   Disk (World (files w) output_dirs []) bytes).
Proof.
  cbv zeta.
  destruct (X19_load_after_skip "output/audio/talk.v2.mp3" "talk.v2"
    (Disk (World {["output/analysis/talk.v2_analysis.txt"]} ∅ [])
       (fun q => if String.eqb q "output/analysis/talk.v2_analysis.txt"
                 then "one" ++ String CR (String LF "two") else ""))
    true
    (World {["output/analysis/talk.v2_analysis.txt"]} output_dirs []))
    as (H & _).
  - vm_compute. reflexivity.
  - vm_compute. reflexivity.
  - vm_compute. reflexivity.
  - vm_compute. reflexivity.
  - cbv zeta in H. cbn [bytes_at files] in *. rewrite H by reflexivity.
    vm_compute. reflexivity.
Defined.

(** X20. Saving and loading round-trip for an ordinary audio name.  When
    the audio file's name is [b ++ ".mp3"], [b] does not consist of dots
    only, ['.mp3'] does not occur inside [b], the name
    [b ++ "_analysis.txt"] has no NUL and at most 255 bytes and the text
    can be encoded, then after [save_analysis audio text],
    [load_existing_analysis audio] returns [True] and the text with its
    line ends translated: every ['\r\n'] and every other ['\r'] has
    become ['\n'].  A text without ['\r'] comes back unchanged.  (The two
    functions compute the file name in different ways, which agree under
    these conditions.) *)
Theorem X20_save_then_load a b text d :
  ensure_ok (fs d) ->
  analysis_file_of a ∉ dirs (fs d) ->
  basename a = b ++ ".mp3" ->
  all_eq extsep b = false ->
  occurs ".mp3" b = false ->
  storable (b ++ "_analysis.txt") = true ->
  utf8_valid text = true ->
  exists d',
    save_analysis a text d = (Ok tt, d')
    /\ load_existing_analysis a d' =
       (Ok (true, Some (universal_newlines text)), d')
    /\ (contains CR text = false ->
        load_existing_analysis a d' = (Ok (true, Some text), d')).
Proof.
  intros Hok Hnd Ha Hdots Hocc Hname Htext.
  rewrite <- (ordinary_name_root a b) in Hname by done.
  eexists. split; [by apply save_analysis_run|].
  assert (Hload : forall t, universal_newlines text = t ->
    load_existing_analysis a
      (Disk (World ({[analysis_file_of a]} ∪ files (fs d))
                   (output_dirs ∪ dirs (fs d)) (trace (fs d)))
            (put (analysis_file_of a) text (bytes_at d))) =
    (Ok (true, Some t),
     Disk (World ({[analysis_file_of a]} ∪ files (fs d))
                 (output_dirs ∪ dirs (fs d)) (trace (fs d)))
          (put (analysis_file_of a) text (bytes_at d)))).
  { intros t <-. rewrite load_existing_analysis_run. cbv zeta.
    rewrite (load_path_of_saved a b) by done. cbn [fs bytes_at files].
    rewrite bool_decide_eq_true_2
      by (rewrite elem_of_union, elem_of_singleton; by left).
    unfold put at 1 2. rewrite String.eqb_refl. by rewrite Htext. }
  split; [by apply Hload|].
  intros Hcr. by apply Hload, universal_newlines_plain.
Qed.

Lemma X20_save_then_load_witness :
  exists d',
    save_analysis "output/audio/talk.v2.mp3"
      ("one" ++ String CR (String LF "two"))
      (Disk Samples.fresh (fun _ => "")) = (Ok tt, d')
    /\ load_existing_analysis "output/audio/talk.v2.mp3" d' =
       (Ok (true, Some ("one" ++ String LF "two")), d').
Proof.
  destruct (X20_save_then_load "output/audio/talk.v2.mp3" "talk.v2"
              ("one" ++ String CR (String LF "two"))
              (Disk Samples.fresh (fun _ => "")))
    as (d' & Hsave & Hload & _).
  - vm_compute. repeat split; discriminate.
  - vm_compute. discriminate.
  - vm_compute. reflexivity.
  - vm_compute. reflexivity.
  - vm_compute. reflexivity.
  - vm_compute. reflexivity.
  - vm_compute. reflexivity.
  - exists d'. split; [exact Hsave | exact Hload].
Defined.

(** X21. From video to stored analysis.  When [video_to_audio] returned a
    path for a video whose base name does not consist of dots only and
    has no ['.mp3'] inside, the name [<base>_analysis.txt] has no NUL and
    at most 255 bytes and the text can be encoded, an analysis saved for
    that path is found again: [should_skip_analysis] answers [True] and
    [load_existing_analysis] returns the text with its line ends
    translated (unchanged when it has no ['\r']), from the file
    [output/analysis/<base>_analysis.txt]. *)
Theorem X21_video_to_stored_analysis media v m w p w1 text c :
  video_to_audio media v m w = (Ok (Some p), w1) ->
  all_eq extsep (base_name_of v) = false ->
  occurs ".mp3" (base_name_of v) = false ->
  analysis_file_of p ∉ dirs w1 ->
  storable (base_name_of v ++ "_analysis.txt") = true ->
  utf8_valid text = true ->
  analysis_file_of p = "output/analysis/" ++ base_name_of v ++ "_analysis.txt"
  /\ exists d',
       save_analysis p text (Disk w1 c) = (Ok tt, d')
       /\ should_skip_analysis p true (fs d') = (Ok true, fs d')
       /\ load_existing_analysis p d' =
          (Ok (true, Some (universal_newlines text)), d')
       /\ (contains CR text = false ->
           load_existing_analysis p d' = (Ok (true, Some text), d')).
Proof.
  intros Hrun Hdots Hocc Hnd Hname Htext.
  assert (Hok : ensure_ok w).
  { destruct (decide (ensure_ok w)) as [Hok|Hno]; [done|].
    destruct (blocked_directories_raise media v m w Hno) as (w' & Hw').
    rewrite Hw' in Hrun. discriminate Hrun. }
  destruct (success_leaves_cache _ _ _ _ _ _ Hok Hrun) as (-> & _ & Hok1).
  assert (Hbase : basename (final_audio_of v) = base_name_of v ++ ".mp3").
  { rewrite final_audio_form.
    change ("output/audio/" ++ base_name_of v ++ ".mp3")
      with ("output/audio" ++ String sep (base_name_of v ++ ".mp3")).
    apply basename_after_sep.
    rewrite contains_append. by rewrite base_name_no_sep. }
  pose proof (ordinary_name_root _ _ Hbase Hdots) as Hroot.
  split; [unfold analysis_file_of; by rewrite Hroot|].
  rewrite <- Hroot in Hname.
  set (p := analysis_file_of (final_audio_of v)) in *.
  set (d' := Disk (World ({[p]} ∪ files w1) (output_dirs ∪ dirs w1) (trace w1))
                  (put p text c)).
  assert (Hload : forall t, universal_newlines text = t ->
            load_existing_analysis (final_audio_of v) d' = (Ok (true, Some t), d')).
  { intros t <-. rewrite load_existing_analysis_run. cbv zeta.
    rewrite (load_path_of_saved (final_audio_of v) (base_name_of v)) by done.
    fold p. subst d'. cbn [fs bytes_at files].
    rewrite bool_decide_eq_true_2
      by (rewrite elem_of_union, elem_of_singleton; by left).
    unfold put at 1 2. rewrite String.eqb_refl. by rewrite Htext. }
  exists d'. split; [by apply (save_analysis_run _ _ (Disk w1 c))|].
  split; [|split; [by apply Hload|]].
  2:{ intros Hcr. by apply Hload, universal_newlines_plain. }
  subst d'. cbn [fs].
  destruct (analysis_file_not_output (final_audio_of v)) as (N1 & N2 & N3).
  fold p in N1, N2, N3.
  destruct Hok1 as (H1 & H2 & H3).
  rewrite should_skip_run.
  - fold p. rewrite bool_decide_eq_true_2
      by (simpl; rewrite elem_of_union, elem_of_singleton; by left).
    unfold with_output_dirs. simpl. do 2 f_equal.
    apply set_eq. intros x. rewrite !elem_of_union. tauto.
  - unfold ensure_ok. simpl.
    rewrite !elem_of_union, !elem_of_singleton.
    repeat split; intros [E|E]; congruence.
Qed.

Lemma X21_video_to_stored_analysis_witness :
  exists d',
    save_analysis "output/audio/clip.mp3" "summary"
      (Disk (snd (video_to_audio (Samples.all Samples.healthy)
                    "videos/clip.mp4" 15 Samples.fresh)) (fun _ => ""))
    = (Ok tt, d')
    /\ load_existing_analysis "output/audio/clip.mp3" d' =
       (Ok (true, Some "summary"), d').
Proof.
  destruct (X21_video_to_stored_analysis (Samples.all Samples.healthy)
              "videos/clip.mp4" 15 Samples.fresh "output/audio/clip.mp3"
              (snd (video_to_audio (Samples.all Samples.healthy)
                      "videos/clip.mp4" 15 Samples.fresh))
              "summary" (fun _ => ""))
    as (_ & d' & Hsave & _ & _ & Hload).
  - vm_compute. reflexivity.
  - vm_compute. reflexivity.
  - vm_compute. reflexivity.
  - vm_compute. discriminate.
  - vm_compute. reflexivity.
  - vm_compute. reflexivity.
  - exists d'. split; [exact Hsave | apply Hload; reflexivity].
Defined.

(** ** Saves that fail *)

Lemma skip_after_create a w :
  ensure_ok w ->
  analysis_file_of a ∉ dirs w ->
  should_skip_analysis a true
    (World ({[analysis_file_of a]} ∪ files w) (output_dirs ∪ dirs w) (trace w))
  = (Ok true,
     World ({[analysis_file_of a]} ∪ files w) (output_dirs ∪ dirs w) (trace w)).
Proof.
  intros (H1 & H2 & H3) Hnd.
  destruct (analysis_file_not_output a) as (N1 & N2 & N3).
  rewrite should_skip_run.
  - rewrite bool_decide_eq_true_2
      by (simpl; rewrite elem_of_union, elem_of_singleton; by left).
    unfold with_output_dirs. simpl. do 2 f_equal.
    apply set_eq. intros x. rewrite !elem_of_union. tauto.
  - unfold ensure_ok. simpl.
    rewrite !elem_of_union, !elem_of_singleton.
    repeat split; intros [E|E]; congruence.
Qed.

(** X22. How [save_analysis] fails once the output directories are
    made.  A NUL in the name of the analysis file makes [open] raise
    [ValueError], a name of more than 255 bytes makes it raise
    [OSError]; in both cases the directories stay and no file appears.
    A text that cannot be encoded makes [write] raise
    [UnicodeEncodeError] after [open] created the file: the analysis
    file is left empty, and from then on [should_skip_analysis] answers
    [True] for this audio file. *)
Theorem X22_save_analysis_failures a text d :
  ensure_ok (fs d) ->
  analysis_file_of a ∉ dirs (fs d) ->
  let name := splitext_root (basename a) ++ "_analysis.txt" in
  let made :=
    Disk (World (files (fs d)) (output_dirs ∪ dirs (fs d)) (trace (fs d)))
         (bytes_at d) in
  (contains NUL name = true ->
   save_analysis a text d = (Raise ValueError, made))
  /\ (contains NUL name = false ->
      (name_max < String.length name)%nat ->
      save_analysis a text d = (Raise OSError, made))
  /\ (storable name = true -> utf8_valid text = false ->
      exists d',
        save_analysis a text d = (Raise UnicodeEncodeError, d')
        /\ files (fs d') = {[analysis_file_of a]} ∪ files (fs d)
        /\ bytes_at d' (analysis_file_of a) = ""
        /\ should_skip_analysis a true (fs d') = (Ok true, fs d')).
Proof.
  intros Hok Hnd. cbv zeta.
  assert (Hnul : contains NUL (analysis_file_of a)
                 = contains NUL (splitext_root (basename a) ++ "_analysis.txt")).
  { unfold analysis_file_of. by rewrite contains_append. }
  assert (Hsave : save_analysis a text d =
                  write_text (analysis_file_of a) text
                    (Disk (with_output_dirs (fs d)) (bytes_at d))).
  { unfold save_analysis. cbv zeta. rewrite (ensure_run _ Hok). simpl snd.
    by rewrite analysis_file_join. }
  rewrite Hsave. unfold write_text. cbn [fs bytes_at]. rewrite Hnul.
  rewrite analysis_file_basename, analysis_name_not_empty.
  destruct (analysis_file_not_output a) as (N1 & N2 & N3).
  rewrite bool_decide_eq_false_2.
  2:{ unfold with_output_dirs, output_dirs. simpl.
      rewrite !elem_of_union, !elem_of_singleton. tauto. }
  rewrite analysis_file_parent.
  2:{ unfold with_output_dirs, output_dirs. simpl.
      rewrite !elem_of_union, !elem_of_singleton. tauto. }
  cbn [negb orb]. split; [|split].
  - intros ->. reflexivity.
  - intros -> Hlen. apply Nat.ltb_lt in Hlen. rewrite Hlen. reflexivity.
  - intros Hname Htext. unfold storable in Hname.
    apply andb_true_iff in Hname as [Hn Hlen]. apply negb_true_iff in Hn.
    rewrite Hn, Htext.
    assert ((name_max <? String.length
               (splitext_root (basename a) ++ "_analysis.txt"))%nat = false)
      as ->.
    { apply Nat.ltb_ge. by apply Nat.leb_le. }
    eexists. split; [reflexivity|]. cbn [fs bytes_at files].
    split; [reflexivity|].
    split; [unfold put; by rewrite String.eqb_refl|].
    exact (skip_after_create a (fs d) Hok Hnd).
Qed.

Lemma X22_save_analysis_failures_witness :
  let long := "aaaaaaaaaaaaaaaaaaaaaaaaaaaaaaaaaaaaaaaaaaaaaaaaaaaaaaaaaaaaaaaaaaaaaaaaaaaaaaaaaaaaaaaaaaaaaaaaaaaaaaaaaaaaaaaaaaaaaaaaaaaaaaaaaaaaaaaaaaaaaaaaaaaaaaaaaaaaaaaaaaaaaaaaaaaaaaaaaaaaaaaaaaaaaaaaaaaaaaaaaaaaaaaaaaaaaaaaaaaaaaaaaaaaaaaaaaaaaaaaaaaaaaaaaaa.mp3" in
  fst (save_analysis long "summary" (Disk Samples.fresh (fun _ => "")))
  = Raise OSError.
Proof.
  cbv zeta.
  destruct (X22_save_analysis_failures
    "aaaaaaaaaaaaaaaaaaaaaaaaaaaaaaaaaaaaaaaaaaaaaaaaaaaaaaaaaaaaaaaaaaaaaaaaaaaaaaaaaaaaaaaaaaaaaaaaaaaaaaaaaaaaaaaaaaaaaaaaaaaaaaaaaaaaaaaaaaaaaaaaaaaaaaaaaaaaaaaaaaaaaaaaaaaaaaaaaaaaaaaaaaaaaaaaaaaaaaaaaaaaaaaaaaaaaaaaaaaaaaaaaaaaaaaaaaaaaaaaaaaaaaaaaaa.mp3"
    "summary" (Disk Samples.fresh (fun _ => ""))) as (_ & H & _).
  - vm_compute. repeat split; discriminate.
  - vm_compute. discriminate.
  - rewrite H; [reflexivity | vm_compute; reflexivity |].
    apply Nat.ltb_lt. vm_compute. reflexivity.
Defined.
